(** * Student course enrollment: timetable conflict detection and the
      enrollment and timetable-mutation transactions

    A shallow embedding of [services/enrollmentService.js] and
    [services/adminService.js], and of the tables, triggers and constraints
    of [dbSchema.sql] they run against.

    - The conflict checker ([timeSlotsOverlap], [checkTimetableClashes]) is
      pure: times are the strings the driver returns for TIME columns and
      are compared as JavaScript compares strings; the per-day buckets are a
      finite map from the weekday to the slots placed so far.
    - Storage is a record of tables. A service method is a function from the
      tables to its result object, the tables it leaves and the trace of what
      it asked of the connection.
    - Awaited driver calls live in a small state-and-error monad over the
      connection: a call may throw, either because the rows reject the
      statement (trigger, key, check) or because of a failure from outside,
      which an oracle supplies per statement. The connection keeps the
      committed tables next to the ones it sees: [rollback] returns to the
      committed ones, and so does a deadlock, which also ends the
      transaction.

    The first part of the file holds the definitions, the second the
    properties. *)

From Stdlib Require Import ZArith Ascii String.
From stdpp Require Import gmap strings list fin_maps sorting.

Local Open Scope string_scope.
Local Open Scope list_scope.
Local Open Scope Z_scope.

(** ** Weekdays

    [day_of_week] is the ENUM column of [timetables]; the seven members are
    listed in the same order in [validDays] of adminService.js. *)

Inductive weekday :=
  | Monday | Tuesday | Wednesday | Thursday | Friday | Saturday | Sunday.

Global Instance weekday_eq_dec : EqDecision weekday.
Proof. solve_decision. Defined.

(** Position of the member in the ENUM declaration (what ORDER BY uses). *)
Definition weekday_index (d : weekday) : nat :=
  match d with
  | Monday => 1 | Tuesday => 2 | Wednesday => 3 | Thursday => 4
  | Friday => 5 | Saturday => 6 | Sunday => 7
  end%nat.

Definition weekday_of_index (n : nat) : weekday :=
  match n with
  | 1 => Monday | 2 => Tuesday | 3 => Wednesday | 4 => Thursday
  | 5 => Friday | 6 => Saturday | _ => Sunday
  end%nat.

Global Instance weekday_countable : Countable weekday.
Proof.
  apply (inj_countable' weekday_index weekday_of_index).
  intros []; reflexivity.
Defined.

Definition weekday_name (d : weekday) : string :=
  match d with
  | Monday => "Monday" | Tuesday => "Tuesday" | Wednesday => "Wednesday"
  | Thursday => "Thursday" | Friday => "Friday" | Saturday => "Saturday"
  | Sunday => "Sunday"
  end.

Definition validDays : list string :=
  ["Monday"; "Tuesday"; "Wednesday"; "Thursday"; "Friday"; "Saturday"; "Sunday"].

Definition weekday_of_name (s : string) : option weekday :=
  if String.eqb s "Monday" then Some Monday
  else if String.eqb s "Tuesday" then Some Tuesday
  else if String.eqb s "Wednesday" then Some Wednesday
  else if String.eqb s "Thursday" then Some Thursday
  else if String.eqb s "Friday" then Some Friday
  else if String.eqb s "Saturday" then Some Saturday
  else if String.eqb s "Sunday" then Some Sunday
  else None.

(** ** Time-of-day values as the JavaScript side sees them

    The driver hands TIME columns to the services as strings, and the
    services compare them with the relational operators of JavaScript, which
    on two strings compare code units lexicographically. *)

Definition js_lt (a b : string) : bool := String.ltb a b.
Definition js_gt (a b : string) : bool := String.ltb b a.
Definition js_ge (a b : string) : bool := negb (String.ltb a b).

(** [a || b] on strings: the empty string is falsy. *)
Definition js_or_str (a b : string) : string :=
  match a with EmptyString => b | _ => a end.

(** ** Timetable rows as returned by [SELECT t.*, c.course_code] *)

Record slot := Slot {
  timetable_id : Z;
  course_id : Z;
  day_of_week : weekday;
  start_time : string;
  end_time : string;
  course_code : string
}.

Global Instance slot_eq_dec : EqDecision slot.
Proof. solve_decision. Defined.

(** [timeSlotsOverlap(start1, end1, start2, end2)] *)
Definition timeSlotsOverlap (start1 end1 start2 end2 : string) : bool :=
  js_lt start1 end2 && js_gt end1 start2.

Definition slots_overlap (a b : slot) : bool :=
  timeSlotsOverlap (start_time a) (end_time a) (start_time b) (end_time b).

(** The failure object of [checkTimetableClashes]: the day, the incoming
    slot and the slot already in the bucket it collides with. *)
Record clash_report := ClashReport {
  clash_day : weekday;
  clash_slot : slot;
  clash_existing : slot
}.

(** The [error] string built from a report. *)
Definition clash_error (r : clash_report) : string :=
  "Timetable clash detected on " +:+ weekday_name (clash_day r) +:+ ": "
  +:+ js_or_str (course_code (clash_slot r)) "Course"
  +:+ " (" +:+ start_time (clash_slot r) +:+ "-" +:+ end_time (clash_slot r)
  +:+ ") overlaps with "
  +:+ js_or_str (course_code (clash_existing r)) "Course"
  +:+ " (" +:+ start_time (clash_existing r) +:+ "-"
  +:+ end_time (clash_existing r) +:+ ")".

Inductive clash_result :=
  | ClashFree                      (* { success: true } *)
  | ClashFound (r : clash_report). (* { success: false, error: ... } *)

Definition clash_success (r : clash_result) : bool :=
  match r with ClashFree => true | ClashFound _ => false end.

(** [timeSlotsByDay[day]], with the absent key read as the empty bucket the
    loop would create. *)
Definition bucket (timeSlotsByDay : gmap weekday (list slot)) (day : weekday)
  : list slot :=
  default [] (timeSlotsByDay !! day).

(** The inner loop: [for (const existing of timeSlotsByDay[day])]. *)
Fixpoint scan_bucket (day : weekday) (s : slot) (existing_slots : list slot)
  : option clash_report :=
  match existing_slots with
  | [] => None
  | existing :: rest =>
      if timeSlotsOverlap (start_time s) (end_time s)
                          (start_time existing) (end_time existing)
      then Some (ClashReport day s existing)
      else scan_bucket day s rest
  end.

(** The outer loop: [for (const slot of timetables)]. *)
Fixpoint check_loop (timetables : list slot)
    (timeSlotsByDay : gmap weekday (list slot)) : clash_result :=
  match timetables with
  | [] => ClashFree
  | s :: rest =>
      let day := day_of_week s in
      match scan_bucket day s (bucket timeSlotsByDay day) with
      | Some r => ClashFound r
      | None =>
          check_loop rest
            (<[day := bucket timeSlotsByDay day ++ [s]]> timeSlotsByDay)
      end
  end.

Definition checkTimetableClashes (timetables : list slot) : clash_result :=
  check_loop timetables ∅.

(** ** The HH:MM:SS rendering of a time of day

    Two digits, a colon, two digits, a colon, two digits; minutes and seconds
    below sixty. [time_of_string] decodes such a string to the number of
    seconds since midnight and rejects every other string. *)

Definition is_digit (c : ascii) : bool :=
  (48 <=? N_of_ascii c)%N && (N_of_ascii c <=? 57)%N.

Definition digit_value (c : ascii) : N := (N_of_ascii c - 48)%N.

Definition two_digits (hi lo : ascii) : N :=
  (10 * digit_value hi + digit_value lo)%N.

Definition is_colon (c : ascii) : bool := (N_of_ascii c =? 58)%N.

Definition time_of_string (s : string) : option N :=
  match s with
  | String h1 (String h0 (String c1 (String m1 (String m0
      (String c2 (String s1 (String s0 EmptyString))))))) =>
      if is_digit h1 && is_digit h0 && is_colon c1
         && is_digit m1 && is_digit m0 && is_colon c2
         && is_digit s1 && is_digit s0
         && (two_digits m1 m0 <? 60)%N && (two_digits s1 s0 <? 60)%N
      then Some (3600 * two_digits h1 h0 + 60 * two_digits m1 m0
                 + two_digits s1 s0)%N
      else None
  | _ => None
  end.

(** The half-open overlap test on decoded times. *)
Definition times_overlap (start1 end1 start2 end2 : N) : bool :=
  (start1 <? end2)%N && (start2 <? end1)%N.

(** ** Collections

    [[...new Set(xs)]] and [SELECT DISTINCT]: the first occurrence of every
    element, in order of first occurrence. *)
Fixpoint distinct {A} `{EqDecision A} (l : list A) : list A :=
  match l with
  | [] => []
  | x :: rest => x :: filter (λ y, y ≠ x) (distinct rest)
  end.

(** ** Storage: the tables of dbSchema.sql

    Tables with an AUTO_INCREMENT primary key that the services address by
    key are finite maps from the key to the remaining columns;
    [student_courses] is the list of its (student_id, course_id) pairs in
    insertion order. The creation timestamps and the columns that only the
    listings of [getEnrolledStudents] and [getEnrolledCourses] read (email,
    enrolled_at) are left out. *)

Record student_row := StudentRow {
  st_name : string;
  st_college_id : Z
}.

Record course_row := CourseRow {
  co_code : string;
  co_name : string;
  co_college_id : Z;
  co_credits : Z
}.

Record timetable_row := TimetableRow {
  tt_course_id : Z;
  tt_day_of_week : weekday;
  tt_start_time : string;
  tt_end_time : string
}.

Global Instance student_row_eq_dec : EqDecision student_row.
Proof. solve_decision. Defined.
Global Instance course_row_eq_dec : EqDecision course_row.
Proof. solve_decision. Defined.
Global Instance timetable_row_eq_dec : EqDecision timetable_row.
Proof. solve_decision. Defined.

Record db := Db {
  colleges : gmap Z string;
  students : gmap Z student_row;
  courses : gmap Z course_row;
  timetables : gmap Z timetable_row;
  student_courses : list (Z * Z)
}.

Definition set_student_courses (d : db) (rows : list (Z * Z)) : db :=
  Db (colleges d) (students d) (courses d) (timetables d) rows.

Definition set_timetables (d : db) (rows : gmap Z timetable_row) : db :=
  Db (colleges d) (students d) (courses d) rows (student_courses d).

Definition set_courses (d : db) (rows : gmap Z course_row) : db :=
  Db (colleges d) (students d) rows (timetables d) (student_courses d).

(** The key an AUTO_INCREMENT column hands out: above every key in use. *)
Definition next_id {A} (m : gmap Z A) : Z :=
  1 + foldr Z.max 0 (map_to_list m).*1.

(** The rows of a table in the order of its primary key, the order in which
    InnoDB reads them. MySQL promises no order for a SELECT without ORDER BY,
    nor between rows that tie in an ORDER BY; the theorems below rely only on
    which rows a query returns and on the order it asks for. *)
Definition key_le {A} (a b : Z * A) : Prop := a.1 ≤ b.1.

Global Instance key_le_dec {A} : RelDecision (@key_le A).
Proof. intros a b. unfold key_le. apply _. Defined.

Definition table_rows {A} (m : gmap Z A) : list (Z * A) :=
  merge_sort key_le (map_to_list m).

(** [<] and [>] between TIME values inside SQL statements. A TIME column
    holds a time of day and the driver exchanges it as its HH:MM:SS string;
    the two are identified here. On HH:MM:SS strings the order of the times
    is the lexicographic order of the strings
    ([hhmmss_compare]), and such a string is stored and
    read back unchanged. MySQL converts every other string it is given (a
    time without seconds, an hour of one digit or of three) before it
    stores or compares it, which this order does not follow: the statements
    below that rest on a TIME comparison or on a stored time are made for
    tables and requests whose times are HH:MM:SS strings
    ([times_well_formed], [time_well_formed]). *)
Definition sql_time_lt (a b : string) : bool := String.ltb a b.

Definition sql_overlap (s1 e1 s2 e2 : string) : bool :=
  sql_time_lt s1 e2 && sql_time_lt s2 e1.

(** *** Result sets *)

(** [JOIN courses c ON t.course_id = c.course_id], selecting
    [t.*, c.course_code]. *)
Definition join_course (d : db) (row : Z * timetable_row) : option slot :=
  let '(tid, t) := row in
  c ← courses d !! tt_course_id t;
  Some (Slot tid (tt_course_id t) (tt_day_of_week t) (tt_start_time t)
             (tt_end_time t) (co_code c)).

(** The rows of [timetables] of one course, joined with [courses]. *)
Definition course_slots (d : db) (courseId : Z) : list slot :=
  omap (join_course d)
       (filter (λ row, tt_course_id row.2 = courseId)
               (table_rows (timetables d))).

(** [ORDER BY t.day_of_week, t.start_time]; rows that tie in both come in
    the order of the primary key. *)
Definition slot_le (a b : slot) : Prop :=
  (weekday_index (day_of_week a) < weekday_index (day_of_week b))%nat
  ∨ (weekday_index (day_of_week a) = weekday_index (day_of_week b)
     ∧ (sql_time_lt (start_time a) (start_time b) = true
        ∨ (sql_time_lt (start_time b) (start_time a) = false
           ∧ timetable_id a ≤ timetable_id b))).

Global Instance slot_le_dec : RelDecision slot_le.
Proof. intros a b. unfold slot_le. apply _. Defined.

(** [SELECT student_id, name, college_id FROM students WHERE student_id = ?] *)
Definition select_student (studentId : Z) (d : db) : list (Z * student_row) :=
  match students d !! studentId with
  | Some s => [(studentId, s)]
  | None => []
  end.

(** [SELECT course_id, course_code, course_name, college_id FROM courses
     WHERE course_id IN (?)] *)
Definition select_courses (ids : list Z) (d : db) : list (Z * course_row) :=
  filter (λ row, row.1 ∈ ids) (table_rows (courses d)).

(** [SELECT t.*, c.course_code FROM timetables t JOIN courses c ...
     WHERE t.course_id IN (?) ORDER BY t.day_of_week, t.start_time] *)
Definition select_timetables (ids : list Z) (d : db) : list slot :=
  merge_sort slot_le
    (omap (join_course d)
          (filter (λ row, tt_course_id row.2 ∈ ids)
                  (table_rows (timetables d)))).

(** [SELECT t.*, c.course_code FROM student_courses sc JOIN timetables t ...
     JOIN courses c ... WHERE sc.student_id = ?] *)
Definition select_existing_enrollments (studentId : Z) (d : db) : list slot :=
  sc ← student_courses d;
  if decide (sc.1 = studentId) then course_slots d sc.2 else [].

(** [SELECT c.course_code FROM student_courses sc JOIN courses c ...
     WHERE sc.student_id = ? AND sc.course_id IN (?)] *)
Definition select_already_enrolled (studentId : Z) (ids : list Z) (d : db)
  : list string :=
  omap (λ sc : Z * Z,
          if decide (sc.1 = studentId ∧ sc.2 ∈ ids)
          then co_code <$> courses d !! sc.2
          else None)
       (student_courses d).

(** *** Statements that write *)

(** [error.code] of an error thrown by the driver. *)
Inductive sql_error :=
  | ER_SIGNAL_EXCEPTION (sqlMessage : string) (* SIGNAL raised by a trigger *)
  | ER_DUP_ENTRY                              (* UNIQUE KEY violated *)
  | ER_NO_REFERENCED_ROW                      (* FOREIGN KEY violated *)
  | ER_CHECK_CONSTRAINT_VIOLATED              (* CHECK violated *)
  | ER_DATA_TOO_LONG                          (* longer than the VARCHAR *)
  | ER_WARN_DATA_OUT_OF_RANGE                 (* beyond the INT *)
  | ER_LOCK_DEADLOCK    (* InnoDB chose the transaction as deadlock victim *)
  | ER_OTHER.           (* lock wait timeout, interrupted statement, ... *)

Global Instance sql_error_eq_dec : EqDecision sql_error.
Proof. solve_decision. Defined.

(** Trigger [check_timetable_clash_before_insert]: the number of pairs
    (slot of an enrolled course, slot of the new course) on the same day that
    overlap, the times compared as [sql_time_lt] says. *)
Definition trigger_clash_count (d : db) (studentId courseId : Z) : nat :=
  length (
    sc ← student_courses d;
    if decide (sc.1 = studentId) then
      t1 ← filter (λ row, tt_course_id row.2 = sc.2)
                  (map_to_list (timetables d));
      t2 ← filter (λ row, tt_course_id row.2 = courseId)
                  (map_to_list (timetables d));
      if bool_decide (tt_day_of_week t1.2 = tt_day_of_week t2.2)
         && sql_overlap (tt_start_time t1.2) (tt_end_time t1.2)
                        (tt_start_time t2.2) (tt_end_time t2.2)
      then [(t1, t2)] else []
    else []).

(** [INSERT INTO student_courses (student_id, course_id) VALUES (?, ?)]:
    the two BEFORE INSERT triggers in their order of creation, then the
    foreign keys and the unique key of the table. A trigger comparing with a
    NULL (no such student or course) does not fire. *)
Definition insert_enrollment (studentId courseId : Z) (d : db)
  : sql_error + (unit * db) :=
  let college_mismatch :=
    match students d !! studentId, courses d !! courseId with
    | Some s, Some c => bool_decide (st_college_id s ≠ co_college_id c)
    | _, _ => false
    end in
  if college_mismatch then
    inl (ER_SIGNAL_EXCEPTION
           "Student and course must belong to the same college")
  else if (0 <? trigger_clash_count d studentId courseId)%nat then
    inl (ER_SIGNAL_EXCEPTION
           "Timetable clash detected with existing course enrollment")
  else if bool_decide (students d !! studentId = None
                       ∨ courses d !! courseId = None) then
    inl ER_NO_REFERENCED_ROW
  else if bool_decide ((studentId, courseId) ∈ student_courses d) then
    inl ER_DUP_ENTRY
  else
    inr ((), set_student_courses d
               (student_courses d ++ [(studentId, courseId)])).

(** [INSERT INTO timetables (course_id, day_of_week, start_time, end_time)]
    with the foreign key and [CHECK (end_time > start_time)]; the result is
    [insertId]. The times are compared and stored as [sql_time_lt] says:
    as MySQL does it for HH:MM:SS strings. *)
Definition insert_timetable (courseId : Z) (day : weekday)
    (startTime endTime : string) (d : db) : sql_error + (Z * db) :=
  if bool_decide (courses d !! courseId = None) then inl ER_NO_REFERENCED_ROW
  else if negb (sql_time_lt startTime endTime) then
    inl ER_CHECK_CONSTRAINT_VIOLATED
  else
    let id := next_id (timetables d) in
    inr (id, set_timetables d
               (<[id := TimetableRow courseId day startTime endTime]>
                  (timetables d))).

(** [UPDATE timetables SET day_of_week = ?, start_time = ?, end_time = ?
     WHERE timetable_id = ?] with [CHECK (end_time > start_time)]; like
    [insert_timetable] it follows MySQL for HH:MM:SS strings. *)
Definition update_timetable (timetableId : Z) (day : weekday)
    (startTime endTime : string) (d : db) : sql_error + (unit * db) :=
  match timetables d !! timetableId with
  | None => inr ((), d)
  | Some old =>
      if negb (sql_time_lt startTime endTime) then
        inl ER_CHECK_CONSTRAINT_VIOLATED
      else
        inr ((), set_timetables d
                   (<[timetableId :=
                        TimetableRow (tt_course_id old) day startTime endTime]>
                      (timetables d)))
  end.

(** [DELETE FROM timetables WHERE timetable_id = ?]; the result is
    [affectedRows]. *)
Definition delete_timetable (timetableId : Z) (d : db)
  : sql_error + (nat * db) :=
  match timetables d !! timetableId with
  | None => inr (0%nat, d)
  | Some _ => inr (1%nat, set_timetables d (delete timetableId (timetables d)))
  end.

(** [DELETE FROM student_courses WHERE student_id = ? AND course_id = ?] *)
Definition delete_enrollment (studentId courseId : Z) (d : db)
  : sql_error + (nat * db) :=
  let kept := filter (λ sc, sc ≠ (studentId, courseId)) (student_courses d) in
  inr ((length (student_courses d) - length kept)%nat,
       set_student_courses d kept).

(** The key under which the unique index of [courses] files a course code.
    The schema names no collation, and the default collations of MySQL
    compare without regard to case: the letters a-z are filed as A-Z.
    (What a collation does to other characters is not followed.) *)
Definition upper_case (a : ascii) : ascii :=
  let n := nat_of_ascii a in
  if (97 <=? n)%nat && (n <=? 122)%nat then ascii_of_nat (n - 32) else a.

Fixpoint collation_key (s : string) : string :=
  match s with
  | EmptyString => EmptyString
  | String a rest => String (upper_case a) (collation_key rest)
  end.

(** The values of an INT column. *)
Definition sql_int (n : Z) : bool :=
  (-2147483648 <=? n) && (n <=? 2147483647).

(** [INSERT INTO courses (course_code, course_name, college_id, credits)]:
    the columns in strict mode ([college_id INT], [credits INT],
    [course_code VARCHAR(50)], [course_name VARCHAR(255)]), then
    [UNIQUE KEY (course_code, college_id)] and the foreign key. *)
Definition insert_course (courseCode courseName : string)
    (collegeId credits : Z) (d : db) : sql_error + (Z * db) :=
  if negb (sql_int collegeId) || negb (sql_int credits) then
    inl ER_WARN_DATA_OUT_OF_RANGE
  else if ((50 <? String.length courseCode)%nat
      || (255 <? String.length courseName)%nat) then inl ER_DATA_TOO_LONG
  else if bool_decide (Exists (λ row, collation_key (co_code row.2)
                                      = collation_key courseCode
                                 ∧ co_college_id row.2 = collegeId)
                         (map_to_list (courses d))) then inl ER_DUP_ENTRY
  else if bool_decide (colleges d !! collegeId = None) then
    inl ER_NO_REFERENCED_ROW
  else
    let id := next_id (courses d) in
    inr (id, set_courses d
               (<[id := CourseRow courseCode courseName collegeId credits]>
                  (courses d))).

(** ** Connections, transactions and the trace of storage interactions *)

Inductive statement :=
  | SelectStudent | SelectCourses | SelectTimetables
  | SelectExistingEnrollments | SelectAlreadyEnrolled
  | InsertEnrollment (courseId : Z)
  | SelectCourse | SelectEnrolledStudents | SelectConflicts
  | InsertTimetable | SelectTimetable | UpdateTimetable
  | DeleteTimetable | DeleteEnrollment | InsertCourse.

Inductive event :=
  | EvGetConnection
  | EvBegin
  | EvQuery (q : statement)
  | EvCommit
  | EvRollback
  | EvRelease.

(** A connection: the rows as the connection sees them, the rows as they
    are committed (what a rollback returns to), what the connection did so
    far, how many statements it has sent, and whether a transaction is open
    on it. Outside a transaction every statement commits as it succeeds. *)
Record conn := Conn {
  live : db;
  saved : db;
  log : list event;
  clock : nat;
  in_transaction : bool
}.

(** An awaited driver call: it throws or yields a value, and moves the
    connection on. *)
Definition M (A : Type) : Type := conn → (sql_error + A) * conn.

Global Instance M_ret : MRet M := λ A a c, (inr a, c).

Global Instance M_bind : MBind M := λ A B f m c,
  match m c with
  | (inl e, c') => (inl e, c')
  | (inr a, c') => f a c'
  end.

Section Storage.
(** Failures that come from outside the rows themselves: [fault n] is the
    error, if any, with which the n-th statement sent over the connection
    is rejected. *)
Variable fault : nat → option sql_error.

(** The connection after a statement was rejected with [e]. A rejected
    statement leaves no row of its own and the transaction stays open,
    except for a deadlock: InnoDB then rolls the whole transaction back
    and ends it, so that the statements still queued on the connection
    run, and commit, each on its own. *)
Definition rejection (e : sql_error) (ev : event) (c : conn) : conn :=
  match e with
  | ER_LOCK_DEADLOCK =>
      Conn (saved c) (saved c) (log c ++ [ev]) (S (clock c)) false
  | _ =>
      Conn (live c) (saved c) (log c ++ [ev]) (S (clock c))
           (in_transaction c)
  end.

Definition stmt {A} (q : statement) (run : db → sql_error + (A * db)) : M A :=
  λ c,
    match fault (clock c) with
    | Some e => (inl e, rejection e (EvQuery q) c)
    | None =>
        match run (live c) with
        | inl e => (inl e, rejection e (EvQuery q) c)
        | inr (a, d') =>
            (inr a, Conn d' (if in_transaction c then saved c else d')
                         (log c ++ [EvQuery q]) (S (clock c))
                         (in_transaction c))
        end
    end.

Definition select {A} (q : statement) (rows : db → A) : M A :=
  stmt q (λ d, inr (rows d, d)).

Definition beginTransaction : M unit := λ c,
  match fault (clock c) with
  | Some e => (inl e, rejection e EvBegin c)
  | None =>
      (inr (),
       Conn (live c) (live c) (log c ++ [EvBegin]) (S (clock c)) true)
  end.

Definition commit : M unit := λ c,
  match fault (clock c) with
  | Some e => (inl e, rejection e EvCommit c)
  | None =>
      (inr (),
       Conn (live c) (live c) (log c ++ [EvCommit]) (S (clock c)) false)
  end.

(** [rollback] and [release] are taken to go through, and the pool to
    hand out a connection: the faults of [fault] are those of the
    statements sent over a connection. (Without a connection the method
    throws to its caller instead of returning a result.) *)
Definition rollback : M unit := λ c,
  (inr (),
   Conn (saved c) (saved c) (log c ++ [EvRollback]) (clock c) false).

(** [const connection = await db.getConnection(); try { body }
     catch (error) { await connection.rollback(); handler }
     finally { connection.release() }] *)
Definition with_connection {R} (body : M R) (handler : sql_error → R) (d : db)
  : R * db * list event :=
  match body (Conn d d [EvGetConnection] 0%nat false) with
  | (inr r, c) => (r, live c, log c ++ [EvRelease])
  | (inl e, c) =>
      let c' := (rollback c).2 in
      (handler e, live c', log c' ++ [EvRelease])
  end.

(** [try { await db.query(...) } catch (error) { handler }] on the pool. *)
Definition with_pool {A R} (q : statement) (run : db → sql_error + (A * db))
    (k : A → R) (handler : sql_error → R) (d : db) : R * db * list event :=
  match fault 0%nat with
  | Some e => (handler e, d, [EvQuery q])
  | None =>
      match run d with
      | inl e => (handler e, d, [EvQuery q])
      | inr (a, d') => (k a, d', [EvQuery q])
      end
  end.
End Storage.

(** Storage that answers every statement. *)
Definition no_fault : nat → option sql_error := λ _, None.

(** ** JavaScript values reaching [saveStudentCourses]

    Identifiers are integers; the elements of a [courseIds] array are numbers
    as its documented type [number[]] says. *)

Inductive js_value :=
  | JsUndefined
  | JsNull
  | JsBoolean (b : bool)
  | JsNumber (n : Z)
  | JsNaN
  | JsString (s : string)
  | JsArray (elements : list Z)
  | JsObject.

(** Truthiness: what [!v] negates. *)
Definition js_truthy (v : js_value) : bool :=
  match v with
  | JsUndefined | JsNull | JsNaN => false
  | JsBoolean b => b
  | JsNumber n => negb (n =? 0)
  | JsString s => negb (String.eqb s "")
  | JsArray _ | JsObject => true
  end.

(** [typeof v === 'number'] *)
Definition js_is_number (v : js_value) : bool :=
  match v with JsNumber _ | JsNaN => true | _ => false end.

(** [Array.isArray(v)] *)
Definition js_is_array (v : js_value) : bool :=
  match v with JsArray _ => true | _ => false end.

Definition js_number_value (v : js_value) : Z :=
  match v with JsNumber n => n | _ => 0 end.

Definition js_elements (v : js_value) : list Z :=
  match v with JsArray l => l | _ => [] end.

(** ** enrollmentService.js *)

(** The result objects of [saveStudentCourses], one constructor per
    [return]. *)
Inductive enroll_result :=
  | EnrollInvalidStudentId      (* 'Invalid student ID provided' *)
  | EnrollNotArray              (* 'Course IDs must be provided as an array' *)
  | EnrollEmptyList             (* 'Course list cannot be empty' *)
  | EnrollStudentNotFound       (* 'Student not found' *)
  | EnrollCoursesNotFound (missingIds : list Z)
                                (* `Courses not found: ${missingIds...}` *)
  | EnrollWrongCollege (codes : list string)
                      (* `Courses ... do not belong to student's college` *)
  | EnrollClash (r : clash_report)
                                (* the failed result of the clash check *)
  | EnrollAlreadyEnrolled (codes : list string)
                                (* `Student is already enrolled in: ...` *)
  | EnrollConstraintViolation (message : string)
                      (* error.sqlMessage || 'Database constraint violation' *)
  | EnrollError       (* 'An error occurred while processing enrollment' *)
  | EnrollSuccess (studentId : Z)
                  (enrolledCourses : list (Z * string * string)).

Definition enroll_success (r : enroll_result) : bool :=
  match r with EnrollSuccess _ _ => true | _ => false end.

(** The [catch] block of [saveStudentCourses], after its rollback. *)
Definition enroll_handler (error : sql_error) : enroll_result :=
  match error with
  | ER_SIGNAL_EXCEPTION sqlMessage =>
      EnrollConstraintViolation
        (js_or_str sqlMessage "Database constraint violation")
  | _ => EnrollError
  end.

Inductive drop_result :=
  | DropNotFound   (* 'Enrollment not found' *)
  | DropFailed     (* 'Failed to drop course' *)
  | DropSuccess.   (* 'Course dropped successfully' *)

Section Services.
Variable fault : nat → option sql_error.

(** [Promise.all(uniqueCourseIds.map(courseId => connection.query(INSERT)))]:
    every INSERT is queued on the connection at once and runs in turn
    whatever became of the ones before it; the promise rejects with the
    first rejection. *)
Fixpoint insert_all (studentId : Z) (ids : list Z) : M unit :=
  match ids with
  | [] => mret ()
  | courseId :: rest => λ c,
      let '(r, c1) :=
        stmt fault (InsertEnrollment courseId)
             (insert_enrollment studentId courseId) c in
      let '(r', c2) := insert_all studentId rest c1 in
      (match r with inl e => inl e | inr _ => r' end, c2)
  end.

(** The [try] block of [saveStudentCourses]. *)
Definition enroll_transaction (studentId : Z) (uniqueCourseIds : list Z)
  : M enroll_result :=
  beginTransaction fault;;
  (* 1. Verify student exists and get their college *)
  studentRows ← select fault SelectStudent (select_student studentId);
  match studentRows with
  | [] => rollback;; mret EnrollStudentNotFound
  | student :: _ =>
    let studentCollegeId := st_college_id student.2 in
    (* 2. Verify all courses exist and belong to the same college *)
    courseRows ← select fault SelectCourses (select_courses uniqueCourseIds);
    if negb (length courseRows =? length uniqueCourseIds)%nat then
      rollback;;
      let foundIds := courseRows.*1 in
      let missingIds := filter (λ id, id ∉ foundIds) uniqueCourseIds in
      mret (EnrollCoursesNotFound missingIds)
    else
    let invalidCourses :=
      filter (λ c, co_college_id c.2 ≠ studentCollegeId) courseRows in
    if (0 <? length invalidCourses)%nat then
      rollback;;
      mret (EnrollWrongCollege ((λ c, co_code c.2) <$> invalidCourses))
    else
    (* 3. Get timetables for all courses to check for clashes *)
    timetableRows ←
      select fault SelectTimetables (select_timetables uniqueCourseIds);
    match checkTimetableClashes timetableRows with
    | ClashFound r => rollback;; mret (EnrollClash r)
    | ClashFree =>
      (* 4. Check for clashes with already enrolled courses *)
      existingEnrollments ←
        select fault SelectExistingEnrollments
               (select_existing_enrollments studentId);
      match (if (0 <? length existingEnrollments)%nat
             then checkTimetableClashes (existingEnrollments ++ timetableRows)
             else ClashFree) with
      | ClashFound r => rollback;; mret (EnrollClash r)
      | ClashFree =>
        (* 5. Check if student is already enrolled in any of these courses *)
        alreadyEnrolled ←
          select fault SelectAlreadyEnrolled
                 (select_already_enrolled studentId uniqueCourseIds);
        if (0 <? length alreadyEnrolled)%nat then
          rollback;; mret (EnrollAlreadyEnrolled alreadyEnrolled)
        else
          (* 6. Insert all course enrollments *)
          insert_all studentId uniqueCourseIds;;
          commit fault;;
          mret (EnrollSuccess studentId
                  ((λ c, (c.1, co_code c.2, co_name c.2)) <$> courseRows))
      end
    end
  end.

Definition saveStudentCourses (studentId courseIds : js_value) (d : db)
  : enroll_result * db * list event :=
  if negb (js_truthy studentId) || negb (js_is_number studentId) then
    (EnrollInvalidStudentId, d, [])
  else if negb (js_is_array courseIds) then
    (EnrollNotArray, d, [])
  else if (length (js_elements courseIds) =? 0)%nat then
    (EnrollEmptyList, d, [])
  else
    (* Remove duplicates *)
    let uniqueCourseIds := distinct (js_elements courseIds) in
    with_connection
      (enroll_transaction (js_number_value studentId) uniqueCourseIds)
      enroll_handler d.

Definition dropCourse (studentId courseId : Z) (d : db)
  : drop_result * db * list event :=
  with_pool fault DeleteEnrollment (delete_enrollment studentId courseId)
    (λ affectedRows,
       if (affectedRows =? 0)%nat then DropNotFound else DropSuccess)
    (λ _, DropFailed) d.
End Services.

(** ** adminService.js *)

(** A row of the conflict query:
    [s.student_id, s.name, c.course_code, t.day_of_week, t.start_time,
     t.end_time]. *)
Record conflict_row := ConflictRow {
  cf_student_id : Z;
  cf_name : string;
  cf_course_code : string;
  cf_day_of_week : weekday;
  cf_start_time : string;
  cf_end_time : string
}.

Global Instance conflict_row_eq_dec : EqDecision conflict_row.
Proof. solve_decision. Defined.

(** [SELECT course_id, course_code FROM courses WHERE course_id = ?] *)
Definition select_course (courseId : Z) (d : db) : list (Z * string) :=
  match courses d !! courseId with
  | Some c => [(courseId, co_code c)]
  | None => []
  end.

(** [SELECT DISTINCT sc.student_id, s.name FROM student_courses sc
     JOIN students s ... WHERE sc.course_id = ?] *)
Definition select_enrolled_students (courseId : Z) (d : db)
  : list (Z * string) :=
  distinct
    (omap (λ sc : Z * Z,
             if decide (sc.2 = courseId)
             then (λ s, (sc.1, st_name s)) <$> students d !! sc.1
             else None)
          (student_courses d)).

(** The conflict query shared by [addTimetable] and [updateTimetable]:
    [SELECT DISTINCT s.student_id, s.name, c.course_code, t.day_of_week,
            t.start_time, t.end_time
     FROM student_courses sc1 JOIN students s ON sc1.student_id = s.student_id
     JOIN student_courses sc2 ON s.student_id = sc2.student_id
     JOIN timetables t ON sc2.course_id = t.course_id
     JOIN courses c ON t.course_id = c.course_id
     WHERE sc1.course_id = ? AND t.day_of_week = ?
       AND t.start_time < ? AND t.end_time > ? AND <last condition>]
    with the parameters [courseId, day, endTime, startTime]. The last
    condition is [sc2.course_id != courseId] in [addTimetable] and
    [t.timetable_id != timetableId] in [updateTimetable]; it is the argument
    [keep], applied to [sc2.course_id] and [t.timetable_id]. The times are
    compared as [sql_time_lt] says. *)
Definition select_conflicts (courseId : Z) (day : weekday)
    (startTime endTime : string) (keep : Z → Z → bool) (d : db)
  : list conflict_row :=
  distinct (
    sc1 ← student_courses d;
    if decide (sc1.2 = courseId) then
      match students d !! sc1.1 with
      | None => []
      | Some s =>
          sc2 ← student_courses d;
          if decide (sc2.1 = sc1.1) then
            t ← filter (λ row, tt_course_id row.2 = sc2.2)
                       (table_rows (timetables d));
            match courses d !! sc2.2 with
            | None => []
            | Some c =>
                if bool_decide (tt_day_of_week t.2 = day)
                   && sql_time_lt (tt_start_time t.2) endTime
                   && sql_time_lt startTime (tt_end_time t.2)
                   && keep sc2.2 t.1
                then [ConflictRow sc1.1 (st_name s) (co_code c)
                        (tt_day_of_week t.2) (tt_start_time t.2)
                        (tt_end_time t.2)]
                else []
            end
          else []
      end
    else []).

(** [SELECT * FROM timetables WHERE timetable_id = ?] *)
Definition select_timetable (timetableId : Z) (d : db)
  : list (Z * timetable_row) :=
  match timetables d !! timetableId with
  | Some t => [(timetableId, t)]
  | None => []
  end.

(** The result objects of the AdminService methods that write. *)
Inductive admin_result :=
  | InvalidDay                 (* 'Invalid day of week...' *)
  | InvalidInterval            (* 'Start time must be before end time' *)
  | CourseNotFound             (* 'Course not found' *)
  | TimetableNotFound          (* 'Timetable not found' *)
  | Conflicts (conflicts : list conflict_row)
          (* `Cannot add/update timetable: Would create conflicts for ...` *)
  | AdminFailed                (* 'Failed to add/update/delete ...' *)
  | CourseCodeExists    (* 'Course code already exists for this college' *)
  | TimetableAdded (timetableId courseId : Z) (day : weekday)
                   (startTime endTime : string)
  | TimetableUpdated (timetableId : Z) (day : weekday)
                     (startTime endTime : string)
  | TimetableDeleted
  | CourseAdded (courseId : Z).

Definition admin_success (r : admin_result) : bool :=
  match r with
  | TimetableAdded _ _ _ _ _ | TimetableUpdated _ _ _ _
  | TimetableDeleted | CourseAdded _ => true
  | _ => false
  end.

(** The [updates] object of [updateTimetable]; [None] is an absent field. *)
Record timetable_updates := Updates {
  upd_dayOfWeek : option string;
  upd_startTime : option string;
  upd_endTime : option string
}.

(** [field || existing] for an optional string field. *)
Definition js_or_field (field : option string) (existing : string) : string :=
  match field with
  | Some s => js_or_str s existing
  | None => existing
  end.

(** [dayOfWeek && !validDays.includes(dayOfWeek)] followed later by
    [dayOfWeek || existingTimetable.day_of_week]: [None] when the guard
    rejects, otherwise the day to write given the existing one. *)
Definition update_day (dayOfWeek : option string)
  : option (weekday → weekday) :=
  match dayOfWeek with
  | None | Some EmptyString => Some (λ existing, existing)
  | Some name =>
      match weekday_of_name name with
      | Some day => Some (λ _, day)
      | None => None
      end
  end.

Section Admin.
Variable fault : nat → option sql_error.

(** The [try] block of [addTimetable]. *)
Definition add_transaction (courseId : Z) (day : weekday)
    (startTime endTime : string) : M admin_result :=
  beginTransaction fault;;
  (* Verify course exists *)
  courseRows ← select fault SelectCourse (select_course courseId);
  if (length courseRows =? 0)%nat then rollback;; mret CourseNotFound
  else
  (* Check if this would create conflicts with existing enrollments *)
  enrolledStudents ←
    select fault SelectEnrolledStudents (select_enrolled_students courseId);
  rejected ←
    (if (0 <? length enrolledStudents)%nat then
       conflicts ←
         select fault SelectConflicts
           (select_conflicts courseId day startTime endTime
              (λ course _, bool_decide (course ≠ courseId)));
       if (0 <? length conflicts)%nat
       then rollback;; mret (Some (Conflicts conflicts))
       else mret None
     else mret None);
  match rejected with
  | Some result => mret result
  | None =>
      (* Insert the new timetable *)
      insertId ←
        stmt fault InsertTimetable
             (insert_timetable courseId day startTime endTime);
      commit fault;;
      mret (TimetableAdded insertId courseId day startTime endTime)
  end.

Definition addTimetable (courseId : Z) (dayOfWeek startTime endTime : string)
    (d : db) : admin_result * db * list event :=
  match weekday_of_name dayOfWeek with   (* validDays.includes(dayOfWeek) *)
  | None => (InvalidDay, d, [])
  | Some day =>
      if js_ge startTime endTime then (InvalidInterval, d, [])
      else
        with_connection (add_transaction courseId day startTime endTime)
                        (λ _, AdminFailed) d
  end.

(** The [try] block of [updateTimetable]. *)
Definition update_transaction (timetableId : Z) (new_day : weekday → weekday)
    (startTime endTime : option string) : M admin_result :=
  beginTransaction fault;;
  (* Get existing timetable *)
  timetableRows ← select fault SelectTimetable (select_timetable timetableId);
  match timetableRows with
  | [] => rollback;; mret TimetableNotFound
  | existingTimetable :: _ =>
      let newDayOfWeek := new_day (tt_day_of_week existingTimetable.2) in
      let newStartTime :=
        js_or_field startTime (tt_start_time existingTimetable.2) in
      let newEndTime :=
        js_or_field endTime (tt_end_time existingTimetable.2) in
      if js_ge newStartTime newEndTime then rollback;; mret InvalidInterval
      else
      (* Check for conflicts with enrolled students *)
      conflicts ←
        select fault SelectConflicts
          (select_conflicts (tt_course_id existingTimetable.2) newDayOfWeek
             newStartTime newEndTime
             (λ _ tid, bool_decide (tid ≠ timetableId)));
      if (0 <? length conflicts)%nat
      then rollback;; mret (Conflicts conflicts)
      else
        (* Update the timetable *)
        stmt fault UpdateTimetable
             (update_timetable timetableId newDayOfWeek newStartTime
                               newEndTime);;
        commit fault;;
        mret (TimetableUpdated timetableId newDayOfWeek newStartTime
                               newEndTime)
  end.

Definition updateTimetable (timetableId : Z) (updates : timetable_updates)
    (d : db) : admin_result * db * list event :=
  match update_day (upd_dayOfWeek updates) with
  | None => (InvalidDay, d, [])
  | Some new_day =>
      with_connection
        (update_transaction timetableId new_day (upd_startTime updates)
                            (upd_endTime updates))
        (λ _, AdminFailed) d
  end.

Definition deleteTimetable (timetableId : Z) (d : db)
  : admin_result * db * list event :=
  with_pool fault DeleteTimetable (delete_timetable timetableId)
    (λ affectedRows,
       if (affectedRows =? 0)%nat then TimetableNotFound
       else TimetableDeleted)
    (λ _, AdminFailed) d.

Definition addCourse (courseCode courseName : string)
    (collegeId credits : Z) (d : db) : admin_result * db * list event :=
  with_pool fault InsertCourse
    (insert_course courseCode courseName collegeId credits)
    CourseAdded
    (λ error,
       match error with
       | ER_DUP_ENTRY => CourseCodeExists
       | _ => AdminFailed
       end) d.
End Admin.

(** ** Vocabulary of the statements *)

(** [a] lies on the weekday of [s]. *)
Definition same_day (s : slot) : slot → Prop :=
  λ a, day_of_week a = day_of_week s.

Global Instance same_day_dec (s a : slot) : Decision (same_day s a).
Proof. unfold same_day. apply _. Defined.

(** The joined row of timetable [id], as the enrollment queries return it. *)
Definition slot_of (id : Z) (t : timetable_row) (c : course_row) : slot :=
  Slot id (tt_course_id t) (tt_day_of_week t) (tt_start_time t)
       (tt_end_time t) (co_code c).

(** No two slots of the sequence lie on the same weekday with overlapping
    intervals. *)
Definition no_two_overlap (ts : list slot) : Prop :=
  ∀ (i j : nat) (a b : slot),
    i ≠ j → ts !! i = Some a → ts !! j = Some b →
    day_of_week a = day_of_week b →
    timeSlotsOverlap (start_time a) (end_time a) (start_time b) (end_time b)
    = false.

(** The buckets hold, per day and in input order, the slots scanned so far. *)
Definition buckets_hold (m : gmap weekday (list slot)) (seen : list slot)
  : Prop :=
  ∀ d, bucket m d = filter (λ a, day_of_week a = d) seen.

(** *** Outcomes of an enrollment *)

(** The rows a successful enrollment adds, and the tables after it. *)
Definition enrollment_rows (studentId : Z) (ids : list Z) : list (Z * Z) :=
  (λ courseId, (studentId, courseId)) <$> ids.

Definition enroll_db (d : db) (studentId : Z) (ids : list Z) : db :=
  set_student_courses d (student_courses d ++ enrollment_rows studentId ids).

(** The requested identifiers that name no course. *)
Definition missing_courses (d : db) (ids : list Z) : list Z :=
  filter (λ id, courses d !! id = None) ids.

(** The requested courses of another college than [college]. *)
Definition foreign_courses (d : db) (college : Z) (ids : list Z)
  : list (Z * course_row) :=
  filter (λ c, co_college_id c.2 ≠ college) (select_courses ids d).

(** All six guards of [saveStudentCourses] pass for the student row [s]. *)
Definition guards_pass (d : db) (studentId : Z) (ids : list Z)
    (s : student_row) : Prop :=
  students d !! studentId = Some s
  ∧ length (select_courses ids d) = length ids
  ∧ foreign_courses d (st_college_id s) ids = []
  ∧ checkTimetableClashes (select_timetables ids d) = ClashFree
  ∧ checkTimetableClashes
      (select_existing_enrollments studentId d ++ select_timetables ids d)
    = ClashFree
  ∧ select_already_enrolled studentId ids d = [].

(** Every way [saveStudentCourses] can end once its input is accepted: the
    result object and the tables it leaves, for the deduplicated request
    [ids]. The INSERTs are all queued before the first of them is answered:
    when one of them is rejected with a deadlock the transaction is over,
    the INSERTs behind it commit on their own ([outcome_partly_committed])
    and the ROLLBACK of the handler finds nothing to undo. *)
Inductive enroll_outcome (fault : nat → option sql_error) (d : db)
    (studentId : Z) (ids : list Z) : enroll_result → db → Prop :=
  | outcome_fault n e :
      fault n = Some e →
      enroll_outcome fault d studentId ids (enroll_handler e) d
  | outcome_student_not_found :
      students d !! studentId = None →
      enroll_outcome fault d studentId ids EnrollStudentNotFound d
  | outcome_courses_not_found s :
      students d !! studentId = Some s →
      length (select_courses ids d) ≠ length ids →
      enroll_outcome fault d studentId ids
        (EnrollCoursesNotFound
           (filter (λ id, id ∉ (select_courses ids d).*1) ids)) d
  | outcome_wrong_college s :
      students d !! studentId = Some s →
      length (select_courses ids d) = length ids →
      foreign_courses d (st_college_id s) ids ≠ [] →
      enroll_outcome fault d studentId ids
        (EnrollWrongCollege
           ((λ c, co_code c.2) <$> foreign_courses d (st_college_id s) ids)) d
  | outcome_internal_clash s r :
      students d !! studentId = Some s →
      length (select_courses ids d) = length ids →
      foreign_courses d (st_college_id s) ids = [] →
      checkTimetableClashes (select_timetables ids d) = ClashFound r →
      enroll_outcome fault d studentId ids (EnrollClash r) d
  | outcome_existing_clash s r :
      students d !! studentId = Some s →
      length (select_courses ids d) = length ids →
      foreign_courses d (st_college_id s) ids = [] →
      checkTimetableClashes (select_timetables ids d) = ClashFree →
      checkTimetableClashes
        (select_existing_enrollments studentId d ++ select_timetables ids d)
      = ClashFound r →
      enroll_outcome fault d studentId ids (EnrollClash r) d
  | outcome_already_enrolled s :
      students d !! studentId = Some s →
      length (select_courses ids d) = length ids →
      foreign_courses d (st_college_id s) ids = [] →
      checkTimetableClashes (select_timetables ids d) = ClashFree →
      checkTimetableClashes
        (select_existing_enrollments studentId d ++ select_timetables ids d)
      = ClashFree →
      select_already_enrolled studentId ids d ≠ [] →
      enroll_outcome fault d studentId ids
        (EnrollAlreadyEnrolled (select_already_enrolled studentId ids d)) d
  | outcome_insert_rejected s inserted courseId rest e :
      guards_pass d studentId ids s →
      ids = inserted ++ courseId :: rest →
      insert_enrollment studentId courseId (enroll_db d studentId inserted)
      = inl e →
      enroll_outcome fault d studentId ids (enroll_handler e) d
  | outcome_partly_committed s n e committed :
      guards_pass d studentId ids s →
      fault n = Some ER_LOCK_DEADLOCK →
      sublist committed ids →
      enroll_outcome fault d studentId ids (enroll_handler e)
        (enroll_db d studentId committed)
  | outcome_enrolled s :
      guards_pass d studentId ids s →
      enroll_outcome fault d studentId ids
        (EnrollSuccess studentId
           ((λ c, (c.1, co_code c.2, co_name c.2)) <$> select_courses ids d))
        (enroll_db d studentId ids).

(** *** Outcomes of the timetable mutations *)

(** The conflict query as [addTimetable] and as [updateTimetable] send it. *)
Definition add_conflicts (d : db) (courseId : Z) (day : weekday)
    (startTime endTime : string) : list conflict_row :=
  select_conflicts courseId day startTime endTime
    (λ course _, bool_decide (course ≠ courseId)) d.

Definition update_conflicts (d : db) (timetableId courseId : Z) (day : weekday)
    (startTime endTime : string) : list conflict_row :=
  select_conflicts courseId day startTime endTime
    (λ _ tid, bool_decide (tid ≠ timetableId)) d.

(** Every way [addTimetable] can end once its input is accepted. *)
Inductive add_outcome (fault : nat → option sql_error) (d : db)
    (courseId : Z) (day : weekday) (startTime endTime : string)
  : admin_result → db → Prop :=
  | add_fault n e :
      fault n = Some e →
      add_outcome fault d courseId day startTime endTime AdminFailed d
  | add_course_not_found :
      courses d !! courseId = None →
      add_outcome fault d courseId day startTime endTime CourseNotFound d
  | add_rejected :
      is_Some (courses d !! courseId) →
      select_enrolled_students courseId d ≠ [] →
      add_conflicts d courseId day startTime endTime ≠ [] →
      add_outcome fault d courseId day startTime endTime
        (Conflicts (add_conflicts d courseId day startTime endTime)) d
  | add_insert_failed e :
      is_Some (courses d !! courseId) →
      select_enrolled_students courseId d = []
      ∨ add_conflicts d courseId day startTime endTime = [] →
      insert_timetable courseId day startTime endTime d = inl e →
      add_outcome fault d courseId day startTime endTime AdminFailed d
  | add_inserted insertId d' :
      is_Some (courses d !! courseId) →
      select_enrolled_students courseId d = []
      ∨ add_conflicts d courseId day startTime endTime = [] →
      insert_timetable courseId day startTime endTime d = inr (insertId, d') →
      add_outcome fault d courseId day startTime endTime
        (TimetableAdded insertId courseId day startTime endTime) d'.

(** Every way [updateTimetable] can end once its input is accepted. *)
Inductive update_outcome (fault : nat → option sql_error) (d : db)
    (timetableId : Z) (new_day : weekday → weekday)
    (startTime endTime : option string) : admin_result → db → Prop :=
  | update_fault n e :
      fault n = Some e →
      update_outcome fault d timetableId new_day startTime endTime AdminFailed d
  | update_not_found :
      timetables d !! timetableId = None →
      update_outcome fault d timetableId new_day startTime endTime
        TimetableNotFound d
  | update_invalid old :
      timetables d !! timetableId = Some old →
      js_ge (js_or_field startTime (tt_start_time old))
            (js_or_field endTime (tt_end_time old)) = true →
      update_outcome fault d timetableId new_day startTime endTime
        InvalidInterval d
  | update_rejected old :
      timetables d !! timetableId = Some old →
      js_ge (js_or_field startTime (tt_start_time old))
            (js_or_field endTime (tt_end_time old)) = false →
      update_conflicts d timetableId (tt_course_id old)
        (new_day (tt_day_of_week old))
        (js_or_field startTime (tt_start_time old))
        (js_or_field endTime (tt_end_time old)) ≠ [] →
      update_outcome fault d timetableId new_day startTime endTime
        (Conflicts
           (update_conflicts d timetableId (tt_course_id old)
              (new_day (tt_day_of_week old))
              (js_or_field startTime (tt_start_time old))
              (js_or_field endTime (tt_end_time old)))) d
  | update_failed old e :
      timetables d !! timetableId = Some old →
      js_ge (js_or_field startTime (tt_start_time old))
            (js_or_field endTime (tt_end_time old)) = false →
      update_conflicts d timetableId (tt_course_id old)
        (new_day (tt_day_of_week old))
        (js_or_field startTime (tt_start_time old))
        (js_or_field endTime (tt_end_time old)) = [] →
      update_timetable timetableId (new_day (tt_day_of_week old))
        (js_or_field startTime (tt_start_time old))
        (js_or_field endTime (tt_end_time old)) d = inl e →
      update_outcome fault d timetableId new_day startTime endTime AdminFailed d
  | update_done old d' :
      timetables d !! timetableId = Some old →
      js_ge (js_or_field startTime (tt_start_time old))
            (js_or_field endTime (tt_end_time old)) = false →
      update_conflicts d timetableId (tt_course_id old)
        (new_day (tt_day_of_week old))
        (js_or_field startTime (tt_start_time old))
        (js_or_field endTime (tt_end_time old)) = [] →
      update_timetable timetableId (new_day (tt_day_of_week old))
        (js_or_field startTime (tt_start_time old))
        (js_or_field endTime (tt_end_time old)) d = inr ((), d') →
      update_outcome fault d timetableId new_day startTime endTime
        (TimetableUpdated timetableId (new_day (tt_day_of_week old))
           (js_or_field startTime (tt_start_time old))
           (js_or_field endTime (tt_end_time old))) d'.

(** *** The schedule invariant *)

Definition enrolled (d : db) (studentId courseId : Z) : Prop :=
  (studentId, courseId) ∈ student_courses d.

Global Instance enrolled_dec (d : db) (studentId courseId : Z) :
  Decision (enrolled d studentId courseId).
Proof. unfold enrolled. apply _. Defined.

Definition rows_overlap (t1 t2 : timetable_row) : bool :=
  timeSlotsOverlap (tt_start_time t1) (tt_end_time t1)
                   (tt_start_time t2) (tt_end_time t2).

(** No two slots of the courses a student is enrolled in lie on the same
    weekday with overlapping intervals. *)
Definition schedule_ok (d : db) (studentId : Z) : Prop :=
  ∀ (id1 id2 : Z) (t1 t2 : timetable_row),
    id1 ≠ id2 →
    timetables d !! id1 = Some t1 → timetables d !! id2 = Some t2 →
    enrolled d studentId (tt_course_id t1) →
    enrolled d studentId (tt_course_id t2) →
    tt_day_of_week t1 = tt_day_of_week t2 →
    rows_overlap t1 t2 = false.

(** The same for two slots of two different courses. *)
Definition cross_course_ok (d : db) (studentId : Z) : Prop :=
  ∀ (id1 id2 : Z) (t1 t2 : timetable_row),
    tt_course_id t1 ≠ tt_course_id t2 →
    timetables d !! id1 = Some t1 → timetables d !! id2 = Some t2 →
    enrolled d studentId (tt_course_id t1) →
    enrolled d studentId (tt_course_id t2) →
    tt_day_of_week t1 = tt_day_of_week t2 →
    rows_overlap t1 t2 = false.

(** The foreign keys of [student_courses]. *)
Definition referential (d : db) : Prop :=
  ∀ studentId courseId,
    enrolled d studentId courseId →
    is_Some (students d !! studentId) ∧ is_Some (courses d !! courseId).

(** Times as the TIME columns render them: HH:MM:SS strings. On these the
    comparisons of JavaScript and of SQL are the comparison of the times,
    and MySQL stores them as they are given. *)
Definition time_well_formed (s : string) : Prop := is_Some (time_of_string s).

Global Instance time_well_formed_dec (s : string) :
  Decision (time_well_formed s).
Proof. unfold time_well_formed. apply _. Defined.

Definition row_times_well_formed (t : timetable_row) : Prop :=
  time_well_formed (tt_start_time t) ∧ time_well_formed (tt_end_time t).

Global Instance row_times_well_formed_dec (t : timetable_row) :
  Decision (row_times_well_formed t).
Proof. unfold row_times_well_formed. apply _. Defined.

Definition times_well_formed (d : db) : Prop :=
  map_Forall (λ _ t, row_times_well_formed t) (timetables d).

Global Instance times_well_formed_dec (d : db) :
  Decision (times_well_formed d).
Proof. unfold times_well_formed. apply _. Defined.

(** A field of [updates] that is absent, empty (and so replaced by the
    stored value) or an HH:MM:SS string. *)
Definition field_well_formed (field : option string) : Prop :=
  match field with
  | Some s => s = "" ∨ time_well_formed s
  | None => True
  end.

(** *** The operations that write *)

Inductive operation :=
  | OpEnroll (studentId courseIds : js_value)
  | OpDropCourse (studentId courseId : Z)
  | OpAddTimetable (courseId : Z) (dayOfWeek startTime endTime : string)
  | OpUpdateTimetable (timetableId : Z) (updates : timetable_updates)
  | OpDeleteTimetable (timetableId : Z)
  | OpAddCourse (courseCode courseName : string) (collegeId credits : Z).

(** The times an operation supplies are HH:MM:SS strings. *)
Definition operation_times_well_formed (op : operation) : Prop :=
  match op with
  | OpAddTimetable _ _ startTime endTime =>
      time_well_formed startTime ∧ time_well_formed endTime
  | OpUpdateTimetable _ updates =>
      field_well_formed (upd_startTime updates)
      ∧ field_well_formed (upd_endTime updates)
  | _ => True
  end.

Definition is_add_timetable (op : operation) : bool :=
  match op with OpAddTimetable _ _ _ _ => true | _ => false end.

(** The tables an operation leaves. *)
Definition run_operation (fault : nat → option sql_error) (op : operation)
    (d : db) : db :=
  match op with
  | OpEnroll studentId courseIds =>
      (saveStudentCourses fault studentId courseIds d).1.2
  | OpDropCourse studentId courseId => (dropCourse fault studentId courseId d).1.2
  | OpAddTimetable courseId dayOfWeek startTime endTime =>
      (addTimetable fault courseId dayOfWeek startTime endTime d).1.2
  | OpUpdateTimetable timetableId updates =>
      (updateTimetable fault timetableId updates d).1.2
  | OpDeleteTimetable timetableId => (deleteTimetable fault timetableId d).1.2
  | OpAddCourse courseCode courseName collegeId credits =>
      (addCourse fault courseCode courseName collegeId credits d).1.2
  end.

(** A history: operations run one after the other, each with the storage
    failures it meets. *)
Fixpoint run_history (steps : list ((nat → option sql_error) * operation))
    (d : db) : db :=
  match steps with
  | [] => d
  | (fault, op) :: rest => run_history rest (run_operation fault op d)
  end.

(** Executable forms of the invariants, for concrete tables. *)
Definition pairwise_okb (cross_only : bool) (d : db) (studentId : Z) : bool :=
  let rows := map_to_list (timetables d) in
  forallb (λ r1 : Z * timetable_row,
    forallb (λ r2 : Z * timetable_row,
      negb ((if cross_only
             then bool_decide (tt_course_id r1.2 ≠ tt_course_id r2.2)
             else bool_decide (r1.1 ≠ r2.1))
            && bool_decide (enrolled d studentId (tt_course_id r1.2))
            && bool_decide (enrolled d studentId (tt_course_id r2.2))
            && bool_decide (tt_day_of_week r1.2 = tt_day_of_week r2.2))
      || negb (rows_overlap r1.2 r2.2)) rows) rows.

Definition all_schedules_okb (cross_only : bool) (d : db) : bool :=
  forallb (λ sc : Z * Z, pairwise_okb cross_only d sc.1) (student_courses d).

Definition referentialb (d : db) : bool :=
  forallb (λ sc : Z * Z,
             bool_decide (is_Some (students d !! sc.1))
             && bool_decide (is_Some (courses d !! sc.2)))
          (student_courses d).

(** ** Sample data

    The rows dbSchema.sql inserts, and a few variations of them. *)

Definition sample_db : db :=
  Db (list_to_map
        [(1, "Massachusetts Institute of Technology");
         (2, "Stanford University"); (3, "Harvard University")])
     (list_to_map
        [(1, StudentRow "John Doe" 1); (2, StudentRow "Jane Smith" 1);
         (3, StudentRow "Bob Johnson" 2); (4, StudentRow "Alice Williams" 1)])
     (list_to_map
        [(1, CourseRow "CS101" "Introduction to Computer Science" 1 4);
         (2, CourseRow "MA204" "Linear Algebra" 1 3);
         (3, CourseRow "AP105" "Physics I" 1 4);
         (4, CourseRow "CS201" "Data Structures" 1 4);
         (5, CourseRow "CS102" "Programming Fundamentals" 2 3)])
     (list_to_map
        [(1, TimetableRow 1 Monday "09:00:00" "10:00:00");
         (2, TimetableRow 1 Tuesday "10:00:00" "11:00:00");
         (3, TimetableRow 2 Monday "10:00:00" "11:00:00");
         (4, TimetableRow 2 Wednesday "09:00:00" "10:00:00");
         (5, TimetableRow 3 Tuesday "10:00:00" "11:00:00");
         (6, TimetableRow 3 Thursday "15:00:00" "18:00:00");
         (7, TimetableRow 4 Wednesday "10:00:00" "12:00:00");
         (8, TimetableRow 4 Friday "14:00:00" "16:00:00");
         (9, TimetableRow 5 Monday "09:00:00" "11:00:00")])
     [].

(** Rows 1, 3, 2 and 5 of the sample timetables, joined with their course
    codes. *)
Definition monday_nine_to_ten : slot :=
  Slot 1 1 Monday "09:00:00" "10:00:00" "CS101".
Definition monday_ten_to_eleven : slot :=
  Slot 3 2 Monday "10:00:00" "11:00:00" "MA204".
Definition tuesday_ten_cs101 : slot :=
  Slot 2 1 Tuesday "10:00:00" "11:00:00" "CS101".
Definition tuesday_ten_ap105 : slot :=
  Slot 5 3 Tuesday "10:00:00" "11:00:00" "AP105".

(** A slot of another course with the interval of the first one. *)
Definition monday_nine_to_ten_again : slot :=
  Slot 10 5 Monday "09:00:00" "10:00:00" "CS102".

(** Student 1 enrolled in CS101 and CS201. *)
Definition enrolled_db : db := set_student_courses sample_db [(1, 1); (1, 4)].

(** The sample data with a seminar that has no timetable yet, student 1
    enrolled in CS101 and in the seminar. *)
Definition seminar_db : db :=
  set_student_courses
    (set_courses sample_db
       (<[6 := CourseRow "HS100" "Seminar" 1 1]> (courses sample_db)))
    [(1, 1); (1, 6)].

(** Tables in which an enrollment outlived its course row: student 1 is
    enrolled in a course 99 that has a Monday slot but no row in [courses]. *)
Definition orphan_db : db :=
  set_student_courses
    (set_timetables sample_db
       (<[20 := TimetableRow 99 Monday "09:00:00" "10:00:00"]>
          (timetables sample_db)))
    [(1, 99)].

(** ** The constraints of dbSchema.sql as properties of the tables *)

(** Trigger [check_student_course_college_before_insert]: an enrollment
    joins a student and a course of one college. *)
Definition same_college (d : db) : Prop :=
  ∀ studentId courseId s c,
    enrolled d studentId courseId →
    students d !! studentId = Some s → courses d !! courseId = Some c →
    st_college_id s = co_college_id c.

(** [UNIQUE KEY unique_student_course (student_id, course_id)] *)
Definition unique_enrollments (d : db) : Prop := NoDup (student_courses d).

(** [UNIQUE KEY unique_course_college (course_code, college_id)] and the
    foreign key of [courses]. *)
Definition courses_well_formed (d : db) : Prop :=
  (∀ id1 id2 c1 c2,
     courses d !! id1 = Some c1 → courses d !! id2 = Some c2 →
     co_code c1 = co_code c2 → co_college_id c1 = co_college_id c2 →
     id1 = id2)
  ∧ (∀ id c, courses d !! id = Some c →
             is_Some (colleges d !! co_college_id c)).

(** [CHECK (end_time > start_time)] and the foreign key of [timetables]. *)
Definition timetables_well_formed (d : db) : Prop :=
  ∀ id t, timetables d !! id = Some t →
    sql_time_lt (tt_start_time t) (tt_end_time t) = true
    ∧ is_Some (courses d !! tt_course_id t).

(** ** The read-only methods

    [try { const [rows] = await db.query(...);
           return { success: true, data: rows } }
     catch (error) { return { success: false, error: 'Failed to fetch ...' } }]
    on the pool. *)

Inductive listing (A : Type) :=
  | ListingFailed             (* { success: false, error: 'Failed to fetch ...' } *)
  | Listing (data : list A).  (* { success: true, data: rows } *)

Arguments ListingFailed {A}.
Arguments Listing {A} data.

Definition pool_select {A} (fault : nat → option sql_error)
    (rows : db → list A) (d : db) : listing A :=
  match fault 0%nat with
  | Some _ => ListingFailed
  | None => Listing (rows d)
  end.

(** [FIELD(str, str1, str2, ...)]: the position of [str] among the others,
    counted from 1, and 0 when it is none of them. *)
Fixpoint sql_field (str : string) (strs : list string) : nat :=
  match strs with
  | [] => 0
  | str1 :: rest =>
      if String.eqb str str1 then 1
      else match sql_field str rest with 0 => 0 | S n => S (S n) end
  end%nat.

(** A row of [SELECT t.*, c.course_code, c.course_name]: the slot and the
    name of its course. *)
Definition join_course_name (d : db) (row : Z * timetable_row)
  : option (slot * string) :=
  let '(tid, t) := row in
  c ← courses d !! tt_course_id t;
  Some (Slot tid (tt_course_id t) (tt_day_of_week t) (tt_start_time t)
             (tt_end_time t) (co_code c), co_name c).

(** [ORDER BY FIELD(t.day_of_week, 'Monday', 'Tuesday', 'Wednesday',
               'Thursday', 'Friday', 'Saturday', 'Sunday'), t.start_time];
    rows that tie in both come in the order of the primary key. *)
Definition listed_le (a b : slot * string) : Prop :=
  let position (row : slot * string) :=
    sql_field (weekday_name (day_of_week row.1))
      ["Monday"; "Tuesday"; "Wednesday"; "Thursday"; "Friday"; "Saturday";
       "Sunday"] in
  (position a < position b)%nat
  ∨ (position a = position b
     ∧ (sql_time_lt (start_time a.1) (start_time b.1) = true
        ∨ (sql_time_lt (start_time b.1) (start_time a.1) = false
           ∧ timetable_id a.1 ≤ timetable_id b.1))).

Global Instance listed_le_dec : RelDecision listed_le.
Proof. intros a b. unfold listed_le. apply _. Defined.

(** [SELECT t.*, c.course_code, c.course_name FROM timetables t
     JOIN courses c ON t.course_id = c.course_id WHERE t.course_id = ?
     ORDER BY FIELD(...), t.start_time] *)
Definition select_course_timetables (courseId : Z) (d : db)
  : list (slot * string) :=
  merge_sort listed_le
    (omap (join_course_name d)
          (filter (λ row, tt_course_id row.2 = courseId)
                  (table_rows (timetables d)))).

Definition getCourseTimetables (fault : nat → option sql_error) (courseId : Z)
    (d : db) : listing (slot * string) :=
  pool_select fault (select_course_timetables courseId) d.

(** A row of the query of [getAvailableCoursesForStudent]; [timetable] is
    NULL for a course without slots. *)
Record available_course := AvailableCourse {
  av_course_id : Z;
  av_course_code : string;
  av_course_name : string;
  av_credits : Z;
  av_timetable : option string
}.

(** [ORDER BY t.day_of_week, t.start_time] on rows of [timetables]; rows
    that tie in both come in the order of the primary key. *)
Definition timetable_row_le (a b : Z * timetable_row) : Prop :=
  (weekday_index (tt_day_of_week a.2) < weekday_index (tt_day_of_week b.2))%nat
  ∨ (weekday_index (tt_day_of_week a.2) = weekday_index (tt_day_of_week b.2)
     ∧ (sql_time_lt (tt_start_time a.2) (tt_start_time b.2) = true
        ∨ (sql_time_lt (tt_start_time b.2) (tt_start_time a.2) = false
           ∧ a.1 ≤ b.1))).

Global Instance timetable_row_le_dec : RelDecision timetable_row_le.
Proof. intros a b. unfold timetable_row_le. apply _. Defined.

Section Listings.
(** The server variable that bounds the length of a GROUP_CONCAT result. *)
Variable group_concat_max_len : nat.

(** [GROUP_CONCAT(CONCAT(t.day_of_week, ' ', t.start_time, '-', t.end_time)
      ORDER BY t.day_of_week, t.start_time SEPARATOR '; ')] over the slots
    that [LEFT JOIN timetables t ON c.course_id = t.course_id] finds for a
    course. *)
Definition group_concat_timetable (courseId : Z) (d : db) : option string :=
  match merge_sort timetable_row_le
          (filter (λ row, tt_course_id row.2 = courseId)
                  (table_rows (timetables d))) with
  | [] => None
  | rows =>
      Some (String.substring 0 group_concat_max_len
              (String.concat "; "
                 ((λ row : Z * timetable_row,
                     weekday_name (tt_day_of_week row.2) +:+ " "
                     +:+ tt_start_time row.2 +:+ "-" +:+ tt_end_time row.2)
                    <$> rows)))
  end.

(** [SELECT c.course_id, c.course_code, c.course_name, c.credits,
            GROUP_CONCAT(...) as timetable
     FROM students s JOIN courses c ON s.college_id = c.college_id
     LEFT JOIN timetables t ON c.course_id = t.course_id
     WHERE s.student_id = ? GROUP BY c.course_id, ...];
    the query asks for no order of the groups. *)
Definition select_available_courses (studentId : Z) (d : db)
  : list available_course :=
  match students d !! studentId with
  | None => []
  | Some s =>
      (λ c : Z * course_row,
         AvailableCourse c.1 (co_code c.2) (co_name c.2) (co_credits c.2)
           (group_concat_timetable c.1 d))
      <$> filter (λ c, co_college_id c.2 = st_college_id s)
                 (table_rows (courses d))
  end.

Definition getAvailableCoursesForStudent (fault : nat → option sql_error)
    (studentId : Z) (d : db) : listing available_course :=
  pool_select fault (select_available_courses studentId) d.
End Listings.
(** ** The rows of a table *)

Global Instance key_le_total {A} : Total (@key_le A).
Proof. intros a b. unfold key_le. lia. Qed.

Global Instance key_le_trans {A} : Transitive (@key_le A).
Proof. intros a b c. unfold key_le. lia. Qed.

Lemma table_rows_Permutation {A} (m : gmap Z A) :
  table_rows m ≡ₚ map_to_list m.
Proof. apply merge_sort_Permutation. Qed.

Lemma elem_of_table_rows {A} (m : gmap Z A) (k : Z) (v : A) :
  (k, v) ∈ table_rows m ↔ m !! k = Some v.
Proof. by rewrite table_rows_Permutation, elem_of_map_to_list. Qed.

Lemma NoDup_table_rows {A} (m : gmap Z A) : NoDup (table_rows m).
Proof. rewrite table_rows_Permutation. apply NoDup_map_to_list. Qed.

Lemma NoDup_fst_table_rows {A} (m : gmap Z A) : NoDup (table_rows m).*1.
Proof. rewrite table_rows_Permutation. apply NoDup_fst_map_to_list. Qed.

(** The rows come by ascending key. *)
Lemma table_rows_sorted {A} (m : gmap Z A) :
  StronglySorted key_le (table_rows m).
Proof. apply StronglySorted_merge_sort; apply _. Qed.

(** * Properties *)

(** ** The order on strings *)

Lemma ascii_compare_refl (c : ascii) : Ascii.compare c c = Eq.
Proof. unfold Ascii.compare. apply N.compare_refl. Qed.

Lemma string_compare_refl (s : string) : String.compare s s = Eq.
Proof.
  induction s as [|c s IH]; simpl; [done|].
  by rewrite ascii_compare_refl.
Qed.

Lemma js_lt_irrefl (s : string) : js_lt s s = false.
Proof. unfold js_lt, String.ltb. by rewrite string_compare_refl. Qed.

Lemma js_lt_asym (a b : string) : js_lt a b = true → js_lt b a = false.
Proof.
  unfold js_lt, String.ltb. rewrite (String.compare_antisym a b).
  by destruct (String.compare b a).
Qed.

(** ** The overlap test *)

Lemma timeSlotsOverlap_sym (s1 e1 s2 e2 : string) :
  timeSlotsOverlap s1 e1 s2 e2 = timeSlotsOverlap s2 e2 s1 e1.
Proof. unfold timeSlotsOverlap, js_lt, js_gt. apply andb_comm. Qed.

Lemma slots_overlap_sym (a b : slot) : slots_overlap a b = slots_overlap b a.
Proof. apply timeSlotsOverlap_sym. Qed.

Lemma timeSlotsOverlap_self (s e : string) :
  js_lt s e = true → timeSlotsOverlap s e s e = true.
Proof. intros H. unfold timeSlotsOverlap, js_gt. fold (js_lt s e). by rewrite H. Qed.

Lemma timeSlotsOverlap_adjacent (s m e : string) :
  timeSlotsOverlap s m m e = false ∧ timeSlotsOverlap m e s m = false.
Proof.
  unfold timeSlotsOverlap, js_gt. fold (js_lt m m).
  rewrite js_lt_irrefl. split; [apply andb_false_r | apply andb_false_l].
Qed.

(** ** The clash scan *)

Lemma bucket_empty (day : weekday) : bucket ∅ day = [].
Proof. unfold bucket. by rewrite lookup_empty. Qed.

Lemma bucket_insert (m : gmap weekday (list slot)) (d d' : weekday) b :
  bucket (<[d := b]> m) d' = if decide (d = d') then b else bucket m d'.
Proof.
  unfold bucket. case_decide as Hd.
  - subst. by rewrite lookup_insert_eq.
  - by rewrite lookup_insert_ne.
Qed.

Lemma scan_bucket_None (day : weekday) (s : slot) (l : list slot) :
  scan_bucket day s l = None ↔ Forall (λ a, slots_overlap s a = false) l.
Proof.
  induction l as [|a l IH]; simpl.
  - split; [constructor | done].
  - fold (slots_overlap s a). rewrite Forall_cons.
    destruct (slots_overlap s a); [|tauto].
    split; [done | by intros [? _]].
Qed.

Lemma scan_bucket_Some (day : weekday) (s : slot) (l : list slot) r :
  scan_bucket day s l = Some r →
  ∃ pre existing post,
    l = pre ++ existing :: post
    ∧ Forall (λ a, slots_overlap s a = false) pre
    ∧ slots_overlap s existing = true
    ∧ r = ClashReport day s existing.
Proof.
  induction l as [|a l IH]; simpl; [done|].
  fold (slots_overlap s a). destruct (slots_overlap s a) eqn:Ha.
  - intros [= <-]. by exists [], a, l.
  - intros (pre & ex & post & -> & Hpre & Hex & ->)%IH.
    exists (a :: pre), ex, post. by repeat split; [constructor|..].
Qed.

Lemma buckets_hold_empty : buckets_hold ∅ [].
Proof. intros d. by rewrite bucket_empty. Qed.

Lemma buckets_hold_push m seen s :
  buckets_hold m seen →
  buckets_hold (<[day_of_week s := bucket m (day_of_week s) ++ [s]]> m)
               (seen ++ [s]).
Proof.
  intros Hm d. rewrite bucket_insert, filter_app, !Hm.
  case_decide as Hd.
  - subst d. by rewrite (filter_cons_True _ s []).
  - rewrite (filter_cons_False _ s []) by done. by rewrite app_nil_r.
Qed.

(** What the scan has established when it stops, whichever way it stops. *)
Lemma check_loop_spec (ts : list slot) :
  ∀ m seen, buckets_hold m seen →
    match check_loop ts m with
    | ClashFree =>
        ∀ j s, ts !! j = Some s →
          scan_bucket (day_of_week s) s
            (filter (same_day s) (seen ++ take j ts)) = None
    | ClashFound r =>
        ∃ j s, ts !! j = Some s
          ∧ (∀ j' s', (j' < j)%nat → ts !! j' = Some s' →
               scan_bucket (day_of_week s') s'
                 (filter (same_day s') (seen ++ take j' ts)) = None)
          ∧ scan_bucket (day_of_week s) s
              (filter (same_day s) (seen ++ take j ts)) = Some r
    end.
Proof.
  induction ts as [|s ts IH]; intros m seen Hm; simpl.
  - intros j s. by rewrite lookup_nil.
  - destruct (scan_bucket _ s (bucket m _)) as [r|] eqn:Hscan.
    + exists 0%nat, s. split; [done|]. split; [intros; lia|].
      simpl. rewrite app_nil_r. unfold same_day. by rewrite <- Hm.
    + specialize (IH _ _ (buckets_hold_push m seen s Hm)).
      assert (Hhead : scan_bucket (day_of_week s) s
                        (filter (same_day s) (seen ++ take 0 (s :: ts))) = None).
      { simpl. rewrite app_nil_r. unfold same_day. by rewrite <- Hm. }
      destruct (check_loop ts _) as [|r].
      * intros [|j] s' Hj; simplify_eq/=; [done|].
        rewrite (cons_middle s), app_assoc. by apply IH.
      * destruct IH as (j & s' & Hj & Hbefore & Hr).
        exists (S j), s'. split; [done|]. split.
        -- intros [|j'] s'' Hlt Hj'; simplify_eq/=; [done|].
           rewrite (cons_middle s), app_assoc. apply Hbefore; [lia|done].
        -- simpl. by rewrite (cons_middle s), app_assoc.
Qed.

Lemma filter_split_index {A} (P : A → Prop) `{∀ x, Decision (P x)}
    (l pre post : list A) (x : A) :
  filter P l = pre ++ x :: post →
  ∃ i : nat, l !! i = Some x ∧ P x ∧ filter P (take i l) = pre.
Proof.
  revert pre. induction l as [|y l IH]; intros pre Hf.
  - rewrite filter_nil in Hf. by destruct pre.
  - rewrite filter_cons in Hf. destruct (decide (P y)) as [Hy|Hy].
    + destruct pre as [|p pre]; simplify_eq/=.
      * by exists 0%nat.
      * destruct (IH _ H1) as (i & Hi & HP & Htake).
        exists (S i). simpl. rewrite filter_cons_True by done.
        by rewrite Htake.
    + destruct (IH _ Hf) as (i & Hi & HP & Htake).
      exists (S i). simpl. by rewrite filter_cons_False.
Qed.

Lemma check_clash_free_scan (ts : list slot) :
  checkTimetableClashes ts = ClashFree →
  ∀ i j a b, (i < j)%nat → ts !! i = Some a → ts !! j = Some b →
    day_of_week a = day_of_week b → slots_overlap b a = false.
Proof.
  intros Hc i j a b Hij Ha Hb Hday.
  pose proof (check_loop_spec ts ∅ [] buckets_hold_empty) as Hspec.
  unfold checkTimetableClashes in Hc. rewrite Hc in Hspec.
  specialize (Hspec j b Hb). simpl in Hspec.
  rewrite scan_bucket_None, Forall_forall in Hspec. apply Hspec.
  apply list_elem_of_filter. split; [done|].
  apply elem_of_take. eauto.
Qed.

Lemma check_clash_found_scan (ts : list slot) (r : clash_report) :
  checkTimetableClashes ts = ClashFound r →
  ∃ i j : nat,
    (i < j)%nat
    ∧ ts !! j = Some (clash_slot r)
    ∧ ts !! i = Some (clash_existing r)
    ∧ clash_day r = day_of_week (clash_slot r)
    ∧ day_of_week (clash_existing r) = day_of_week (clash_slot r)
    ∧ slots_overlap (clash_slot r) (clash_existing r) = true
    ∧ scan_bucket (day_of_week (clash_slot r)) (clash_slot r)
        (filter (same_day (clash_slot r)) (take j ts)) = Some r
    ∧ (∀ i' a, (i' < i)%nat → ts !! i' = Some a →
         day_of_week a = day_of_week (clash_slot r) →
         slots_overlap (clash_slot r) a = false)
    ∧ checkTimetableClashes (take j ts) = ClashFree.
Proof.
  intros Hc.
  pose proof (check_loop_spec ts ∅ [] buckets_hold_empty) as Hspec.
  unfold checkTimetableClashes in Hc. rewrite Hc in Hspec.
  destruct Hspec as (j & s & Hj & Hbefore & Hr). simpl in Hr, Hbefore.
  destruct (scan_bucket_Some _ _ _ _ Hr) as (pre & ex & post & Hl & Hpre & Hex & ->).
  destruct (filter_split_index _ _ _ _ _ Hl) as (i & Hi & Hday & Hpre').
  apply lookup_take_Some in Hi as [Hi Hlt].
  exists i, j. simpl. repeat split; try done.
  - intros i' a Hi' Ha Hda. rewrite Forall_forall in Hpre. apply Hpre.
    rewrite <- Hpre'. apply list_elem_of_filter. split; [done|].
    apply elem_of_take. exists i'. split; [|done].
    rewrite lookup_take_lt by lia. done.
  - pose proof (check_loop_spec (take j ts) ∅ [] buckets_hold_empty) as Hp.
    unfold checkTimetableClashes.
    destruct (check_loop (take j ts) ∅) as [|r']; [done|exfalso].
    destruct Hp as (j' & s' & Hj' & _ & Hr'). simpl in Hr'.
    apply lookup_take_Some in Hj' as [Hj' Hlt'].
    rewrite take_take, Nat.min_l in Hr' by lia.
    by rewrite (Hbefore j' s' Hlt' Hj') in Hr'.
Qed.

Lemma check_success_iff (ts : list slot) :
  clash_success (checkTimetableClashes ts) = true ↔ no_two_overlap ts.
Proof.
  split.
  - intros Hs. assert (Hc : checkTimetableClashes ts = ClashFree)
      by (by destruct (checkTimetableClashes ts)).
    intros i j a b Hne Ha Hb Hday.
    destruct (decide (i < j)%nat).
    + rewrite timeSlotsOverlap_sym.
      by apply (check_clash_free_scan ts Hc i j a b).
    + apply (check_clash_free_scan ts Hc j i b a); [lia|done..].
  - intros Hno. destruct (checkTimetableClashes ts) as [|r] eqn:Hc; [done|].
    destruct (check_clash_found_scan ts r Hc)
      as (i & j & Hij & Hj & Hi & _ & Hday & Hov & _).
    unfold slots_overlap in Hov.
    rewrite (Hno j i _ _ ltac:(lia) Hj Hi (eq_sym Hday)) in Hov. done.
Qed.

Lemma two_same_day_in_filter (ts : list slot) (i j : nat) (a b : slot) :
  (i < j)%nat → ts !! i = Some a → ts !! j = Some b →
  day_of_week a = day_of_week b →
  (2 ≤ length (filter (λ s, day_of_week s = day_of_week b) ts))%nat.
Proof.
  intros Hij Ha Hb Hday.
  rewrite <- (take_drop_middle ts j b Hb), filter_app, length_app.
  rewrite filter_cons_True by done. simpl.
  assert (Ha' : take j ts !! i = Some a) by (by rewrite lookup_take_lt).
  rewrite <- (take_drop_middle _ i a Ha'), filter_app, length_app.
  rewrite filter_cons_True by done. simpl. lia.
Qed.

Lemma sparse_days_no_overlap (ts : list slot) :
  (∀ d, (length (filter (λ s, day_of_week s = d) ts) ≤ 1)%nat) →
  no_two_overlap ts.
Proof.
  intros Hsparse i j a b Hne Ha Hb Hday. exfalso.
  destruct (decide (i < j)%nat).
  - pose proof (two_same_day_in_filter ts i j a b ltac:(lia) Ha Hb Hday) as H2.
    apply (Nat.lt_irrefl 1), (Nat.lt_le_trans _ _ _ H2), Hsparse.
  - pose proof (two_same_day_in_filter ts j i b a ltac:(lia) Hb Ha (eq_sym Hday))
      as H2.
    apply (Nat.lt_irrefl 1), (Nat.lt_le_trans _ _ _ H2), Hsparse.
Qed.

Lemma pair_lookup {A} (x y : A) (i : nat) (a : A) :
  [x; y] !! i = Some a → (i = 0%nat ∧ a = x) ∨ (i = 1%nat ∧ a = y).
Proof. destruct i as [|[|i]]; simpl; intros [= <-]; auto. Qed.

Lemma pair_no_two_overlap (a b : slot) :
  no_two_overlap [a; b] ↔
  (day_of_week a = day_of_week b → slots_overlap a b = false).
Proof.
  split.
  - intros Hno Hday. by apply (Hno 0%nat 1%nat).
  - intros Hab i j x y Hne [[-> ->]|[-> ->]]%pair_lookup
      [[-> ->]|[-> ->]]%pair_lookup Hday; try done.
    + by apply Hab.
    + rewrite timeSlotsOverlap_sym. by apply Hab.
Qed.

(** C1. [checkTimetableClashes] succeeds exactly when no two slots of the
    sequence lie on the same weekday with overlapping intervals under the
    half-open test. In particular it succeeds when every weekday carries at
    most one slot, it succeeds on two back-to-back slots of one weekday in
    either order, and it fails on two slots of one weekday with the same
    well-formed interval. *)
Theorem checkTimetableClashes_success_iff_no_overlap :
  (∀ ts : list slot,
     clash_success (checkTimetableClashes ts) = true ↔ no_two_overlap ts)
  ∧ (∀ ts : list slot,
       (∀ d, (length (filter (λ s, day_of_week s = d) ts) ≤ 1)%nat) →
       checkTimetableClashes ts = ClashFree)
  ∧ (∀ a b : slot,
       day_of_week a = day_of_week b → end_time a = start_time b →
       checkTimetableClashes [a; b] = ClashFree
       ∧ checkTimetableClashes [b; a] = ClashFree)
  ∧ (∀ a b : slot,
       day_of_week a = day_of_week b →
       start_time a = start_time b → end_time a = end_time b →
       js_lt (start_time a) (end_time a) = true →
       clash_success (checkTimetableClashes [a; b]) = false).
Proof.
  assert (Hfree : ∀ ts, no_two_overlap ts → checkTimetableClashes ts = ClashFree).
  { intros ts Hno%check_success_iff. by destruct (checkTimetableClashes ts). }
  split; [exact check_success_iff|]. split; [|split].
  - intros ts Hsparse. by apply Hfree, sparse_days_no_overlap.
  - intros a b Hday Hadj.
    split; apply Hfree, pair_no_two_overlap; intros _; unfold slots_overlap;
      rewrite Hadj; apply timeSlotsOverlap_adjacent.
  - intros a b Hday Hs He Hwf.
    destruct (clash_success (checkTimetableClashes [a; b])) eqn:Hc; [|done].
    apply check_success_iff, pair_no_two_overlap in Hc; [|done].
    unfold slots_overlap in Hc.
    rewrite <- Hs, <- He, timeSlotsOverlap_self in Hc; done.
Qed.

Lemma checkTimetableClashes_success_iff_no_overlap_witness :
  (checkTimetableClashes [monday_nine_to_ten; monday_ten_to_eleven] = ClashFree
   ∧ checkTimetableClashes [monday_ten_to_eleven; monday_nine_to_ten] = ClashFree)
  ∧ clash_success
      (checkTimetableClashes [monday_nine_to_ten; monday_nine_to_ten_again])
    = false.
Proof.
  destruct checkTimetableClashes_success_iff_no_overlap
    as (_ & _ & Hadjacent & Hidentical).
  split.
  - apply Hadjacent; reflexivity.
  - apply Hidentical; reflexivity.
Defined.

(** C7. A failed [checkTimetableClashes] reports the first conflicting pair
    in scan order: the reported slot sits at a position [j], the slot it
    collides with at an earlier position [i], both on the reported weekday;
    the report is what scanning the earlier slots of that weekday, in input
    order, yields for slot [j]; no earlier slot of that weekday before [i]
    overlaps slot [j]; and the slots before [j] are free of clashes. The
    error message carries the weekday, both course codes and both
    intervals. *)
Theorem checkTimetableClashes_reports_first_clash
    (ts : list slot) (r : clash_report) :
  checkTimetableClashes ts = ClashFound r →
  ∃ i j : nat,
    (i < j)%nat
    ∧ ts !! j = Some (clash_slot r)
    ∧ ts !! i = Some (clash_existing r)
    ∧ clash_day r = day_of_week (clash_slot r)
    ∧ day_of_week (clash_existing r) = day_of_week (clash_slot r)
    ∧ slots_overlap (clash_slot r) (clash_existing r) = true
    ∧ scan_bucket (day_of_week (clash_slot r)) (clash_slot r)
        (filter (same_day (clash_slot r)) (take j ts)) = Some r
    ∧ (∀ i' a, (i' < i)%nat → ts !! i' = Some a →
         day_of_week a = day_of_week (clash_slot r) →
         slots_overlap (clash_slot r) a = false)
    ∧ checkTimetableClashes (take j ts) = ClashFree
    ∧ clash_error r =
        "Timetable clash detected on " +:+ weekday_name (clash_day r) +:+ ": "
        +:+ js_or_str (course_code (clash_slot r)) "Course"
        +:+ " (" +:+ start_time (clash_slot r) +:+ "-"
        +:+ end_time (clash_slot r) +:+ ") overlaps with "
        +:+ js_or_str (course_code (clash_existing r)) "Course"
        +:+ " (" +:+ start_time (clash_existing r) +:+ "-"
        +:+ end_time (clash_existing r) +:+ ")".
Proof.
  intros Hc.
  destruct (check_clash_found_scan ts r Hc) as (i & j & H).
  exists i, j. destruct H as (? & ? & ? & ? & ? & ? & ? & ? & ?).
  by repeat split.
Qed.

Lemma checkTimetableClashes_reports_first_clash_witness :
  ∃ i j : nat,
    (i < j)%nat
    ∧ [monday_nine_to_ten; tuesday_ten_cs101; tuesday_ten_ap105] !! j
      = Some tuesday_ten_ap105
    ∧ [monday_nine_to_ten; tuesday_ten_cs101; tuesday_ten_ap105] !! i
      = Some tuesday_ten_cs101.
Proof.
  destruct (checkTimetableClashes_reports_first_clash
              [monday_nine_to_ten; tuesday_ten_cs101; tuesday_ten_ap105]
              (ClashReport Tuesday tuesday_ten_ap105 tuesday_ten_cs101))
    as (i & j & Hij & Hj & Hi & _); [reflexivity|].
  exists i, j. auto.
Defined.

(** C8. The overlap test is symmetric in its two intervals, and an interval
    with start before end overlaps itself. *)
Theorem timeSlotsOverlap_symmetric_reflexive :
  (∀ a b : slot,
     timeSlotsOverlap (start_time a) (end_time a) (start_time b) (end_time b)
     = timeSlotsOverlap (start_time b) (end_time b) (start_time a) (end_time a))
  ∧ (∀ s e : string, js_lt s e = true → timeSlotsOverlap s e s e = true).
Proof.
  split.
  - intros a b. apply timeSlotsOverlap_sym.
  - apply timeSlotsOverlap_self.
Qed.

Lemma timeSlotsOverlap_symmetric_reflexive_witness :
  timeSlotsOverlap "09:00:00" "10:00:00" "09:00:00" "10:00:00" = true.
Proof.
  apply (proj2 timeSlotsOverlap_symmetric_reflexive). reflexivity.
Defined.

(** ** Times as strings and times as numbers *)

Lemma is_digit_value (c : ascii) :
  is_digit c = true →
  N_of_ascii c = (48 + digit_value c)%N ∧ (digit_value c ≤ 9)%N.
Proof.
  unfold is_digit, digit_value. rewrite andb_true_iff, !N.leb_le. lia.
Qed.

Lemma is_colon_eq (c : ascii) : is_colon c = true → N_of_ascii c = 58%N.
Proof. unfold is_colon. by rewrite N.eqb_eq. Qed.

Ltac compare_next x y :=
  unfold Ascii.compare at 1;
  destruct (N.compare_spec (N_of_ascii x) (N_of_ascii y)).

(** On two well-formed renderings the lexicographic comparison of the
    strings is the comparison of the times. *)
Lemma hhmmss_compare (a b : string) (ta tb : N) :
  time_of_string a = Some ta → time_of_string b = Some tb →
  String.compare a b = (ta ?= tb)%N.
Proof.
  unfold time_of_string.
  destruct a as [|h1 [|h0 [|c1 [|m1 [|m0 [|c2 [|s1 [|s0 [|]]]]]]]]]; try done.
  destruct b as [|h1' [|h0' [|c1' [|m1' [|m0' [|c2' [|s1' [|s0' [|]]]]]]]]];
    try (by intros; case_match).
  intros Ha Hb.
  match type of Ha with (if ?c then _ else _) = _ =>
    destruct c eqn:Ea; [injection Ha as <-|done] end.
  match type of Hb with (if ?c then _ else _) = _ =>
    destruct c eqn:Eb; [injection Hb as <-|done] end.
  repeat match goal with
         | H : _ && _ = true |- _ => apply andb_true_iff in H as [? ?]
         | H : is_digit _ = true |- _ => apply is_digit_value in H as [? ?]
         | H : is_colon _ = true |- _ => apply is_colon_eq in H
         | H : (_ <? _)%N = true |- _ => apply N.ltb_lt in H
         end.
  unfold two_digits in *.
  simpl String.compare.
  compare_next h1 h1'; [|symmetry; apply N.compare_lt_iff; lia
                        |symmetry; apply N.compare_gt_iff; lia].
  compare_next h0 h0'; [|symmetry; apply N.compare_lt_iff; lia
                        |symmetry; apply N.compare_gt_iff; lia].
  compare_next c1 c1'; [|lia|lia].
  compare_next m1 m1'; [|symmetry; apply N.compare_lt_iff; lia
                        |symmetry; apply N.compare_gt_iff; lia].
  compare_next m0 m0'; [|symmetry; apply N.compare_lt_iff; lia
                        |symmetry; apply N.compare_gt_iff; lia].
  compare_next c2 c2'; [|lia|lia].
  compare_next s1 s1'; [|symmetry; apply N.compare_lt_iff; lia
                        |symmetry; apply N.compare_gt_iff; lia].
  compare_next s0 s0'; [|symmetry; apply N.compare_lt_iff; lia
                        |symmetry; apply N.compare_gt_iff; lia].
  symmetry. apply N.compare_eq_iff. lia.
Qed.

Lemma hhmmss_js_lt (a b : string) (ta tb : N) :
  time_of_string a = Some ta → time_of_string b = Some tb →
  js_lt a b = (ta <? tb)%N.
Proof.
  intros Ha Hb. unfold js_lt, String.ltb, N.ltb.
  by rewrite (hhmmss_compare a b ta tb).
Qed.

Lemma hhmmss_js_ge (a b : string) (ta tb : N) :
  time_of_string a = Some ta → time_of_string b = Some tb →
  js_ge a b = (tb <=? ta)%N.
Proof.
  intros Ha Hb. unfold js_ge. fold (js_lt a b).
  rewrite (hhmmss_js_lt a b ta tb) by done.
  rewrite N.ltb_antisym. by rewrite negb_involutive.
Qed.

(** C10. Times of day are compared as strings: on zero-padded fixed-width
    HH:MM:SS strings the comparisons of [timeSlotsOverlap] and the
    start-not-before-end test of [addTimetable] give what the same
    comparisons give on the encoded times; a rendering outside that format
    (nine o'clock written without its leading zero) is ordered after ten
    o'clock. *)
Theorem string_comparison_agrees_on_hhmmss :
  (∀ (a b : string) (ta tb : N),
     time_of_string a = Some ta → time_of_string b = Some tb →
     js_lt a b = (ta <? tb)%N ∧ js_gt a b = (tb <? ta)%N
     ∧ js_ge a b = (tb <=? ta)%N)
  ∧ (∀ (start1 end1 start2 end2 : string) (s1 e1 s2 e2 : N),
       time_of_string start1 = Some s1 → time_of_string end1 = Some e1 →
       time_of_string start2 = Some s2 → time_of_string end2 = Some e2 →
       timeSlotsOverlap start1 end1 start2 end2 = times_overlap s1 e1 s2 e2)
  ∧ (time_of_string "9:00:00" = None
     ∧ js_lt "9:00:00" "10:00:00" = false
     ∧ js_ge "9:00:00" "10:00:00" = true).
Proof.
  split; [|split].
  - intros a b ta tb Ha Hb. split; [|split].
    + by apply hhmmss_js_lt.
    + unfold js_gt. fold (js_lt b a). by apply hhmmss_js_lt.
    + by apply hhmmss_js_ge.
  - intros start1 end1 start2 end2 s1 e1 s2 e2 Hs1 He1 Hs2 He2.
    unfold timeSlotsOverlap, times_overlap, js_gt. fold (js_lt start2 end1).
    by rewrite (hhmmss_js_lt start1 end2 s1 e2), (hhmmss_js_lt start2 end1 s2 e1).
  - by vm_compute.
Qed.

Lemma string_comparison_agrees_on_hhmmss_witness :
  js_lt "09:30:00" "10:00:00" = (34200 <? 36000)%N
  ∧ js_gt "09:30:00" "10:00:00" = (36000 <? 34200)%N
  ∧ js_ge "09:30:00" "10:00:00" = (36000 <=? 34200)%N.
Proof.
  apply (proj1 string_comparison_agrees_on_hhmmss); reflexivity.
Defined.

(** ** Input validation of [saveStudentCourses] *)

(** C9. When [studentId] is missing or not a number, or [courseIds] is not
    an array, or [courseIds] is empty, [saveStudentCourses] returns one of
    its three input-validation failures, without any storage interaction
    and leaving every table as it was. *)
Theorem saveStudentCourses_rejects_invalid_input
    (fault : nat → option sql_error) (studentId courseIds : js_value) (d : db) :
  studentId = JsUndefined ∨ studentId = JsNull
  ∨ js_is_number studentId = false
  ∨ js_is_array courseIds = false
  ∨ courseIds = JsArray [] →
  ∃ r, saveStudentCourses fault studentId courseIds d = (r, d, [])
       ∧ enroll_success r = false
       ∧ (r = EnrollInvalidStudentId ∨ r = EnrollNotArray
          ∨ r = EnrollEmptyList).
Proof.
  intros H. unfold saveStudentCourses.
  destruct (negb (js_truthy studentId) || negb (js_is_number studentId)) eqn:Hid.
  { exists EnrollInvalidStudentId. auto. }
  apply orb_false_iff in Hid as [Htruthy Hnum].
  apply negb_false_iff in Htruthy, Hnum.
  destruct H as [->| [->| [H|H]]]; try done; [congruence|].
  destruct (negb (js_is_array courseIds)) eqn:Harr.
  { exists EnrollNotArray. auto. }
  apply negb_false_iff in Harr.
  destruct H as [H| ->]; [congruence|].
  exists EnrollEmptyList. auto.
Qed.

Lemma saveStudentCourses_rejects_invalid_input_witness :
  ∃ r, saveStudentCourses no_fault (JsString "1") (JsArray [1; 2]) sample_db
       = (r, sample_db, [])
       ∧ enroll_success r = false
       ∧ (r = EnrollInvalidStudentId ∨ r = EnrollNotArray
          ∨ r = EnrollEmptyList).
Proof.
  apply saveStudentCourses_rejects_invalid_input.
  right. right. left. reflexivity.
Defined.

(** ** Executing the enrollment transaction *)

Lemma saved_rejection (e : sql_error) (ev : event) (c : conn) :
  saved (rejection e ev c) = saved c.
Proof. by destruct e. Qed.

Lemma clock_rejection (e : sql_error) (ev : event) (c : conn) :
  clock (rejection e ev c) = S (clock c).
Proof. by destruct e. Qed.

Lemma log_rejection (e : sql_error) (ev : event) (c : conn) :
  log (rejection e ev c) = log c ++ [ev].
Proof. by destruct e. Qed.

(** A rejection other than a deadlock leaves the rows and the transaction
    as they were. *)
Lemma rejection_keeps (e : sql_error) (ev : event) (c : conn) :
  e ≠ ER_LOCK_DEADLOCK →
  live (rejection e ev c) = live c
  ∧ in_transaction (rejection e ev c) = in_transaction c.
Proof. by destruct e. Qed.

Lemma rejection_autocommit (e : sql_error) (ev : event) (c : conn) :
  in_transaction c = false → live c = saved c →
  live (rejection e ev c) = saved c
  ∧ in_transaction (rejection e ev c) = false.
Proof. intros Ht Hl. destruct e; simpl; auto. Qed.

Lemma stmt_spec {A} (fault : nat → option sql_error) (q : statement)
    (run : db → sql_error + (A * db)) (c : conn) :
  clock (stmt fault q run c).2 = S (clock c)
  ∧ log (stmt fault q run c).2 = log c ++ [EvQuery q]
  ∧ match (stmt fault q run c).1 with
    | inl e =>
        (stmt fault q run c).2 = rejection e (EvQuery q) c
        ∧ (fault (clock c) = Some e
           ∨ (fault (clock c) = None ∧ run (live c) = inl e))
    | inr a =>
        fault (clock c) = None
        ∧ run (live c) = inr (a, live (stmt fault q run c).2)
        ∧ saved (stmt fault q run c).2
          = (if in_transaction c then saved c
             else live (stmt fault q run c).2)
        ∧ in_transaction (stmt fault q run c).2 = in_transaction c
    end.
Proof.
  unfold stmt. destruct (fault (clock c)) as [e|]; simpl.
  { rewrite clock_rejection, log_rejection. by auto 10. }
  destruct (run (live c)) as [e|[a d']]; simpl; [|by auto 10].
  rewrite clock_rejection, log_rejection. by auto 10.
Qed.

Lemma insert_all_cons (fault : nat → option sql_error) (studentId id : Z)
    (ids : list Z) (c : conn) :
  insert_all fault studentId (id :: ids) c =
  let r1 := stmt fault (InsertEnrollment id)
                 (insert_enrollment studentId id) c in
  let r2 := insert_all fault studentId ids r1.2 in
  (match r1.1 with inl e => inl e | inr _ => r2.1 end, r2.2).
Proof.
  simpl. destruct (stmt _ _ _ c) as [r c1]. simpl.
  by destruct (insert_all _ _ _ c1).
Qed.

Lemma insert_enrollment_inr (studentId courseId : Z) (d d' : db) u :
  insert_enrollment studentId courseId d = inr (u, d') →
  d' = set_student_courses d (student_courses d ++ [(studentId, courseId)]).
Proof. unfold insert_enrollment. repeat case_match; congruence. Qed.

Lemma set_student_courses_nil (d : db) (studentId : Z) :
  set_student_courses d (student_courses d ++ enrollment_rows studentId [])
  = d.
Proof.
  unfold enrollment_rows. simpl. rewrite app_nil_r. by destruct d.
Qed.

Lemma insert_enrollment_no_deadlock (studentId courseId : Z) (d : db) e :
  insert_enrollment studentId courseId d = inl e → e ≠ ER_LOCK_DEADLOCK.
Proof. unfold insert_enrollment. repeat case_match; congruence. Qed.

Lemma enroll_db_nil (d : db) (studentId : Z) : enroll_db d studentId [] = d.
Proof. apply set_student_courses_nil. Qed.

Lemma enroll_db_cons (d : db) (studentId id : Z) (ids : list Z) :
  enroll_db (enroll_db d studentId [id]) studentId ids
  = enroll_db d studentId (id :: ids).
Proof.
  unfold enroll_db, set_student_courses, enrollment_rows. simpl.
  by rewrite <- app_assoc.
Qed.

(** The INSERTs of a connection on which no transaction is open: each one
    that goes through is committed. *)
Lemma insert_all_autocommit (fault : nat → option sql_error) (studentId : Z)
    (ids : list Z) (c : conn) :
  in_transaction c = false → live c = saved c →
  in_transaction (insert_all fault studentId ids c).2 = false
  ∧ live (insert_all fault studentId ids c).2
    = saved (insert_all fault studentId ids c).2
  ∧ ∃ committed,
      sublist committed ids
      ∧ saved (insert_all fault studentId ids c).2
        = enroll_db (saved c) studentId committed.
Proof.
  revert c. induction ids as [|id ids IH]; intros c Ht Hl.
  - simpl. split; [done|]. split; [done|]. exists [].
    split; [done|]. by rewrite enroll_db_nil.
  - rewrite insert_all_cons. cbv zeta.
    pose proof (stmt_spec fault (InsertEnrollment id)
                  (insert_enrollment studentId id) c) as (_ & _ & H1).
    set (r1 := stmt _ _ _ c) in *. simpl.
    destruct r1.1 as [e|[]].
    + destruct H1 as [Hc1 _].
      destruct (rejection_autocommit e (EvQuery (InsertEnrollment id)) c Ht Hl)
        as [Hl1 Ht1].
      rewrite <- Hc1 in Hl1, Ht1.
      assert (Hs1 : saved r1.2 = saved c) by (by rewrite Hc1, saved_rejection).
      destruct (IH r1.2 Ht1) as (Ht2 & Hl2 & committed & Hsub & Hsaved);
        [congruence|].
      split; [done|]. split; [done|]. exists committed.
      split; [by apply sublist_cons|]. by rewrite Hsaved, Hs1.
    + destruct H1 as (_ & Hrun & Hs1 & Ht1). rewrite Ht in Hs1, Ht1.
      apply insert_enrollment_inr in Hrun.
      destruct (IH r1.2 Ht1) as (Ht2 & Hl2 & committed & Hsub & Hsaved);
        [done|].
      split; [done|]. split; [done|]. exists (id :: committed).
      split; [by apply sublist_skip|].
      change (set_student_courses (live c) _)
        with (enroll_db (live c) studentId [id]) in Hrun.
      rewrite Hsaved, Hs1, Hrun, Hl. apply enroll_db_cons.
Qed.

(** The INSERTs inside the transaction. Either the transaction is still
    open at the end, and nothing is committed; or one of the INSERTs was
    rejected with a deadlock, and some of those behind it are committed. *)
Lemma insert_all_spec (fault : nat → option sql_error) (studentId : Z)
    (ids : list Z) (c : conn) :
  in_transaction c = true →
  (in_transaction (insert_all fault studentId ids c).2 = true
   ∧ saved (insert_all fault studentId ids c).2 = saved c
   ∧ match (insert_all fault studentId ids c).1 with
     | inr _ =>
         live (insert_all fault studentId ids c).2
         = enroll_db (live c) studentId ids
     | inl e =>
         (∃ n, fault n = Some e)
         ∨ (∃ inserted courseId rest,
              ids = inserted ++ courseId :: rest
              ∧ insert_enrollment studentId courseId
                  (enroll_db (live c) studentId inserted) = inl e)
     end)
  ∨ ((∃ e, (insert_all fault studentId ids c).1 = inl e)
     ∧ (∃ n, fault n = Some ER_LOCK_DEADLOCK)
     ∧ ∃ committed,
         sublist committed ids
         ∧ saved (insert_all fault studentId ids c).2
           = enroll_db (saved c) studentId committed).
Proof.
  revert c. induction ids as [|id ids IH]; intros c Ht.
  - left. simpl. split; [done|]. split; [done|].
    by rewrite enroll_db_nil.
  - rewrite insert_all_cons. cbv zeta.
    pose proof (stmt_spec fault (InsertEnrollment id)
                  (insert_enrollment studentId id) c) as (_ & _ & H1).
    set (r1 := stmt _ _ _ c) in *. simpl.
    destruct r1.1 as [e|[]].
    + destruct H1 as [Hc1 Hwhy].
      destruct (decide (e = ER_LOCK_DEADLOCK)) as [->|Hne].
      * (* the transaction is over: the rest commits on its own *)
        right. split; [by eauto|].
        assert (Hfault : ∃ n, fault n = Some ER_LOCK_DEADLOCK).
        { destruct Hwhy as [?|[_ Hrun]]; [by eauto|].
          by apply insert_enrollment_no_deadlock in Hrun. }
        split; [done|].
        destruct (insert_all_autocommit fault studentId ids r1.2)
          as (_ & _ & committed & Hsub & Hsaved);
          [by rewrite Hc1..|].
        exists committed. split; [by apply sublist_cons|].
        rewrite Hsaved. by rewrite Hc1.
      * destruct (rejection_keeps e (EvQuery (InsertEnrollment id)) c Hne)
          as [Hl1 Ht1].
        rewrite <- Hc1 in Hl1, Ht1.
        assert (Hs1 : saved r1.2 = saved c) by (by rewrite Hc1, saved_rejection).
        destruct (IH r1.2) as [(Ht2 & Hs2 & _)|(_ & Hdead & committed & Hsub & Hs2)];
          [congruence| |].
        -- left. split; [done|]. split; [congruence|].
           destruct Hwhy as [?|[_ Hrun]]; [left; eauto|].
           right. exists [], id, ids. split; [done|].
           by rewrite enroll_db_nil.
        -- right. split; [by eauto|]. split; [done|]. exists committed.
           split; [by apply sublist_cons|]. by rewrite Hs2, Hs1.
    + destruct H1 as (_ & Hrun & Hs1 & Ht1). rewrite Ht in Hs1, Ht1.
      apply insert_enrollment_inr in Hrun.
      destruct (IH r1.2 Ht1)
        as [(Ht2 & Hs2 & Hr)|(Hfail & Hdead & committed & Hsub & Hs2)].
      * left. split; [done|]. split; [congruence|].
        change (set_student_courses (live c) _)
          with (enroll_db (live c) studentId [id]) in Hrun.
        rewrite Hrun in Hr.
        destruct (insert_all fault studentId ids r1.2).1 as [e|[]].
        -- destruct Hr as [?|(inserted & x & rest & -> & Hx)]; [by left|].
           right. exists (id :: inserted), x, rest. split; [done|].
           by rewrite <- enroll_db_cons.
        -- by rewrite Hr, enroll_db_cons.
      * right. split; [done|]. split; [done|]. exists committed.
        split; [by apply sublist_cons|]. by rewrite Hs2, Hs1.
Qed.

(** Stepping through a [try] block, one awaited call at a time. *)
Section Steps.
Context {A B : Type} (fault : nat → option sql_error).
Implicit Types (k : A → M B) (c : conn) (Q : (sql_error + B) * conn → Prop).

Lemma step_bind (m : M A) k c Q :
  (∀ e, (m c).1 = inl e → Q (inl e, (m c).2)) →
  (∀ a, (m c).1 = inr a → Q (k a (m c).2)) →
  Q ((m ≫= k) c).
Proof.
  intros He Ha. unfold mbind, M_bind.
  destruct (m c) as [[e|a] c']; simpl in *; auto.
Qed.

Lemma step_select q (rows : db → A) k c Q :
  (∀ e c', fault (clock c) = Some e → saved c' = saved c →
           Q (inl e, c')) →
  (fault (clock c) = None →
   Q (k (rows (live c))
        (Conn (live c) (if in_transaction c then saved c else live c)
              (log c ++ [EvQuery q]) (S (clock c)) (in_transaction c)))) →
  Q ((select fault q rows ≫= k) c).
Proof.
  intros He Ha. unfold mbind, M_bind, select, stmt.
  destruct (fault (clock c)); simpl; auto using saved_rejection.
Qed.
End Steps.

Section StepsUnit.
Context {B : Type} (fault : nat → option sql_error).
Implicit Types (k : unit → M B) (c : conn) (Q : (sql_error + B) * conn → Prop).

Lemma step_begin k c Q :
  (∀ e c', fault (clock c) = Some e → saved c' = saved c →
           Q (inl e, c')) →
  (fault (clock c) = None →
   Q (k () (Conn (live c) (live c) (log c ++ [EvBegin]) (S (clock c))
                 true))) →
  Q ((beginTransaction fault ≫= k) c).
Proof.
  intros He Ha. unfold mbind, M_bind, beginTransaction.
  destruct (fault (clock c)); simpl; auto using saved_rejection.
Qed.

Lemma step_commit k c Q :
  (∀ e c', fault (clock c) = Some e → saved c' = saved c →
           Q (inl e, c')) →
  (fault (clock c) = None →
   Q (k () (Conn (live c) (live c) (log c ++ [EvCommit]) (S (clock c))
                 false))) →
  Q ((commit fault ≫= k) c).
Proof.
  intros He Ha. unfold mbind, M_bind, commit.
  destruct (fault (clock c)); simpl; auto using saved_rejection.
Qed.

Lemma step_rollback k c Q :
  Q (k () (Conn (saved c) (saved c) (log c ++ [EvRollback]) (clock c)
                false)) →
  Q ((rollback ≫= k) c).
Proof. done. Qed.
End StepsUnit.

Lemma length_pos_nonempty {A} (l : list A) :
  (0 <? length l)%nat = true ↔ l ≠ [].
Proof. destruct l; simpl; split; done. Qed.

Lemma length_pos_empty {A} (l : list A) :
  (0 <? length l)%nat = false ↔ l = [].
Proof. destruct l; simpl; split; done. Qed.

Lemma enroll_transaction_outcome (fault : nat → option sql_error)
    (studentId : Z) (ids : list Z) (d : db) :
  enroll_outcome fault d studentId ids
    (with_connection (enroll_transaction fault studentId ids)
                     enroll_handler d).1.1
    (with_connection (enroll_transaction fault studentId ids)
                     enroll_handler d).1.2.
Proof.
  unfold with_connection.
  pattern (enroll_transaction fault studentId ids
             (Conn d d [EvGetConnection] 0%nat false)).
  set (Q := λ p : (sql_error + enroll_result) * conn, _).
  assert (Hthrow : ∀ n e c, fault n = Some e → saved c = d → Q (inl e, c)).
  { intros n e c Hf Hc. subst Q. simpl. rewrite Hc. by eapply outcome_fault. }
  assert (Hret : ∀ r c, live c = d → enroll_outcome fault d studentId ids r d →
                        Q (inr r, c)).
  { intros r c Hc Hr. subst Q. simpl. by rewrite Hc. }
  unfold enroll_transaction.
  apply step_begin; simpl; [by eauto|intros Hf0].
  apply step_select; simpl; [by eauto|intros Hf1].
  unfold select_student at 1.
  destruct (students d !! studentId) as [s|] eqn:Hs; simpl.
  2: { apply step_rollback, Hret; [done|]. by apply outcome_student_not_found. }
  apply step_select; simpl; [by eauto|intros Hf2].
  destruct (length (select_courses ids d) =? length ids)%nat eqn:Hlen; simpl.
  2: { apply Nat.eqb_neq in Hlen.
       apply step_rollback, Hret; [done|]. by eapply outcome_courses_not_found. }
  apply Nat.eqb_eq in Hlen.
  fold (foreign_courses d (st_college_id s) ids).
  destruct (0 <? length (foreign_courses d (st_college_id s) ids))%nat
    eqn:Hforeign.
  { apply length_pos_nonempty in Hforeign.
    apply step_rollback, Hret; [done|]. by apply outcome_wrong_college. }
  apply length_pos_empty in Hforeign.
  apply step_select; simpl; [by eauto|intros Hf3].
  destruct (checkTimetableClashes (select_timetables ids d)) as [|r] eqn:Hint.
  2: { apply step_rollback, Hret; [done|]. by eapply outcome_internal_clash. }
  apply step_select; simpl; [by eauto|intros Hf4].
  assert (Hcomb :
    (if (0 <? length (select_existing_enrollments studentId d))%nat
     then checkTimetableClashes
            (select_existing_enrollments studentId d ++ select_timetables ids d)
     else ClashFree)
    = checkTimetableClashes
        (select_existing_enrollments studentId d ++ select_timetables ids d)).
  { destruct (0 <? length _)%nat eqn:Hex; [done|].
    apply length_pos_empty in Hex. by rewrite Hex. }
  rewrite Hcomb. clear Hcomb.
  destruct (checkTimetableClashes (_ ++ _)) as [|r] eqn:Hext.
  2: { apply step_rollback, Hret; [done|]. by eapply outcome_existing_clash. }
  apply step_select; simpl; [by eauto|intros Hf5].
  destruct (0 <? length (select_already_enrolled studentId ids d))%nat
    eqn:Halready.
  { apply length_pos_nonempty in Halready.
    apply step_rollback, Hret; [done|]. by eapply outcome_already_enrolled. }
  apply length_pos_empty in Halready.
  assert (Hpass : guards_pass d studentId ids s) by done.
  set (c6 := Conn d d [EvGetConnection; EvBegin; EvQuery SelectStudent;
                       EvQuery SelectCourses; EvQuery SelectTimetables;
                       EvQuery SelectExistingEnrollments;
                       EvQuery SelectAlreadyEnrolled] 6%nat true).
  destruct (insert_all_spec fault studentId ids c6 eq_refl)
    as [(_ & Hsaved & Hr)|((e' & Hfail) & [n Hn] & committed & Hsub & Hsaved)].
  - (* the transaction is still open after the INSERTs *)
    apply step_bind.
    + intros e He. rewrite He in Hr.
      destruct Hr as [[n Hn]|(inserted & x & rest & Hx & Hins)]; [by eauto|].
      subst Q. simpl. rewrite Hsaved. by eapply outcome_insert_rejected.
    + intros [] Ha. rewrite Ha in Hr.
      apply step_commit; simpl.
      { intros e c' He Hc'. eapply Hthrow; [done|]. by rewrite Hc', Hsaved. }
      intros Hfc. subst Q. simpl. rewrite Hr. by eapply outcome_enrolled.
  - (* a deadlock ended it *)
    apply step_bind; [|intros a Ha; congruence].
    intros e He. subst Q. simpl. rewrite Hsaved.
    by eapply outcome_partly_committed.
Qed.

(** ** Deduplication and the course lookup *)

Lemma elem_of_distinct {A} `{EqDecision A} (l : list A) (x : A) :
  x ∈ distinct l ↔ x ∈ l.
Proof.
  induction l as [|y l IH]; simpl; [done|].
  rewrite !elem_of_cons, list_elem_of_filter, IH.
  destruct (decide (x = y)); tauto.
Qed.

Lemma NoDup_distinct {A} `{EqDecision A} (l : list A) : NoDup (distinct l).
Proof.
  induction l as [|y l IH]; simpl; [constructor|].
  apply NoDup_cons. split; [|by apply NoDup_filter].
  rewrite list_elem_of_filter. by intros [? _].
Qed.

Lemma distinct_nil_inv {A} `{EqDecision A} (l : list A) :
  distinct l = [] → l = [].
Proof. by destruct l. Qed.

Lemma filter_ext_in {A} (P1 P2 : A → Prop)
    `{!∀ x, Decision (P1 x), !∀ x, Decision (P2 x)} (l : list A) :
  (∀ x, x ∈ l → P1 x ↔ P2 x) → filter P1 l = filter P2 l.
Proof.
  induction l as [|a l IH]; intros Hiff; [done|].
  rewrite !filter_cons, IH by (intros; apply Hiff; by right).
  destruct (decide (P1 a)), (decide (P2 a)); try done;
    exfalso; specialize (Hiff a ltac:(left)); tauto.
Qed.

Lemma filter_length_complement {A} (P : A → Prop) `{!∀ x, Decision (P x)}
    (l : list A) :
  (length (filter P l) + length (filter (λ x, ¬ P x) l) = length l)%nat.
Proof. by rewrite <- length_app, filter_app_complement. Qed.

Lemma elem_of_select_courses (ids : list Z) (d : db) (id : Z) (c : course_row) :
  (id, c) ∈ select_courses ids d ↔ id ∈ ids ∧ courses d !! id = Some c.
Proof.
  unfold select_courses.
  rewrite list_elem_of_filter, elem_of_table_rows. done.
Qed.

Lemma elem_of_select_courses_ids (ids : list Z) (d : db) (id : Z) :
  id ∈ (select_courses ids d).*1 ↔ id ∈ ids ∧ is_Some (courses d !! id).
Proof.
  rewrite list_elem_of_fmap. split.
  - intros ([id' c] & -> & [? ?]%elem_of_select_courses). eauto.
  - intros [Hid [c Hc]]. exists (id, c). split; [done|].
    by apply elem_of_select_courses.
Qed.

Lemma NoDup_select_courses_ids (ids : list Z) (d : db) :
  NoDup (select_courses ids d).*1.
Proof.
  apply NoDup_fmap_fst.
  - intros id c1 c2 [_ H1]%elem_of_select_courses [_ H2]%elem_of_select_courses.
    congruence.
  - apply NoDup_filter, NoDup_table_rows.
Qed.

Lemma select_courses_length (ids : list Z) (d : db) :
  NoDup ids →
  length (select_courses ids d)
  = length (filter (λ id, is_Some (courses d !! id)) ids).
Proof.
  intros Hnd. rewrite <- (length_fmap fst). apply Permutation_length.
  apply NoDup_Permutation.
  - apply NoDup_select_courses_ids.
  - by apply NoDup_filter.
  - intros id. rewrite elem_of_select_courses_ids, list_elem_of_filter. tauto.
Qed.

(** The length test of the service holds exactly when a requested
    identifier names no course. *)
Lemma select_courses_all_found (ids : list Z) (d : db) :
  NoDup ids →
  length (select_courses ids d) = length ids ↔ missing_courses d ids = [].
Proof.
  intros Hnd. rewrite select_courses_length by done.
  pose proof (filter_length_complement
                (λ id, is_Some (courses d !! id)) ids) as Hsum.
  cbv beta in Hsum.
  rewrite (list_filter_iff (λ id, ¬ is_Some (courses d !! id))
                           (λ id, courses d !! id = None)) in Hsum
    by (intros id; symmetry; apply eq_None_not_Some).
  fold (missing_courses d ids) in Hsum. split.
  - intros Hlen. apply nil_length_inv. lia.
  - intros Hnil. rewrite Hnil in Hsum. simpl in Hsum. lia.
Qed.

(** [missingIds] as the service computes it names exactly the requested
    identifiers without a course row. *)
Lemma missing_ids_eq (ids : list Z) (d : db) :
  filter (λ id, id ∉ (select_courses ids d).*1) ids = missing_courses d ids.
Proof.
  apply filter_ext_in. intros id Hid.
  rewrite elem_of_select_courses_ids, eq_None_not_Some. tauto.
Qed.

Lemma elem_of_missing_courses (ids : list Z) (d : db) (id : Z) :
  id ∈ missing_courses d ids ↔ id ∈ ids ∧ courses d !! id = None.
Proof. unfold missing_courses. rewrite list_elem_of_filter. tauto. Qed.

Lemma elem_of_foreign_courses (d : db) (college : Z) (ids : list Z)
    (id : Z) (c : course_row) :
  (id, c) ∈ foreign_courses d college ids
  ↔ id ∈ ids ∧ courses d !! id = Some c ∧ co_college_id c ≠ college.
Proof.
  unfold foreign_courses.
  rewrite list_elem_of_filter, elem_of_select_courses. simpl. tauto.
Qed.

(** *** Result sets of the enrollment queries *)

Lemma join_course_Some (d : db) (id : Z) (t : timetable_row) (s : slot) :
  join_course d (id, t) = Some s
  ↔ ∃ c, courses d !! tt_course_id t = Some c ∧ s = slot_of id t c.
Proof.
  unfold join_course, slot_of. simpl.
  destruct (courses d !! tt_course_id t) as [c|]; simpl.
  - split; [intros [= <-]; eauto | intros (c' & [= <-] & ->); done].
  - split; [done | by intros (c' & ? & _)].
Qed.

Lemma elem_of_select_timetables (ids : list Z) (d : db) (s : slot) :
  s ∈ select_timetables ids d
  ↔ ∃ id t c, timetables d !! id = Some t ∧ tt_course_id t ∈ ids
              ∧ courses d !! tt_course_id t = Some c ∧ s = slot_of id t c.
Proof.
  unfold select_timetables. rewrite merge_sort_Permutation, list_elem_of_omap.
  split.
  - intros ([id t] & [Hin Hrow%elem_of_table_rows]%list_elem_of_filter
            & (c & Hc & ->)%join_course_Some).
    by exists id, t, c.
  - intros (id & t & c & Ht & Hin & Hc & ->). exists (id, t). split.
    + apply list_elem_of_filter. split; [done|]. by apply elem_of_table_rows.
    + apply join_course_Some. eauto.
Qed.

Lemma elem_of_course_slots (d : db) (courseId : Z) (s : slot) :
  s ∈ course_slots d courseId
  ↔ ∃ id t c, timetables d !! id = Some t ∧ tt_course_id t = courseId
              ∧ courses d !! courseId = Some c ∧ s = slot_of id t c.
Proof.
  unfold course_slots. rewrite list_elem_of_omap. split.
  - intros ([id t] & [Hin Hrow%elem_of_table_rows]%list_elem_of_filter
            & (c & Hc & ->)%join_course_Some).
    simpl in Hin. subst courseId. by exists id, t, c.
  - intros (id & t & c & Ht & <- & Hc & ->). exists (id, t). split.
    + apply list_elem_of_filter. split; [done|]. by apply elem_of_table_rows.
    + apply join_course_Some. eauto.
Qed.

Lemma elem_of_select_existing (studentId : Z) (d : db) (s : slot) :
  s ∈ select_existing_enrollments studentId d
  ↔ ∃ id t c, timetables d !! id = Some t
              ∧ enrolled d studentId (tt_course_id t)
              ∧ courses d !! tt_course_id t = Some c ∧ s = slot_of id t c.
Proof.
  unfold select_existing_enrollments. rewrite list_elem_of_bind. split.
  - intros ([sid cid] & Hs & Hsc). simpl in Hs.
    destruct (decide (sid = studentId)) as [->|]; [|by apply not_elem_of_nil in Hs].
    apply elem_of_course_slots in Hs as (id & t & c & Ht & <- & Hc & ->).
    by exists id, t, c.
  - intros (id & t & c & Ht & Hen & Hc & ->).
    exists (studentId, tt_course_id t). split; [|done]. simpl.
    rewrite decide_True by done. apply elem_of_course_slots.
    by exists id, t, c.
Qed.

(** The outcome of an accepted request. *)
Lemma saveStudentCourses_outcome (fault : nat → option sql_error)
    (studentId : Z) (ids : list Z) (d : db) :
  studentId ≠ 0 → ids ≠ [] →
  enroll_outcome fault d studentId (distinct ids)
    (saveStudentCourses fault (JsNumber studentId) (JsArray ids) d).1.1
    (saveStudentCourses fault (JsNumber studentId) (JsArray ids) d).1.2.
Proof.
  intros Hsid Hids. unfold saveStudentCourses. simpl.
  destruct (studentId =? 0) eqn:H0; [lia|]. simpl.
  destruct ids as [|id ids]; [done|].
  apply enroll_transaction_outcome.
Qed.

(** ** The guards of [saveStudentCourses] *)

Ltac invert_outcome H :=
  inversion H; subst; clear H; unfold guards_pass in *;
  rewrite ?missing_ids_eq in *;
  try discriminate; try tauto; try (intuition congruence).

(** ** All or nothing *)

Lemma enroll_handler_fails (e : sql_error) :
  enroll_success (enroll_handler e) = false.
Proof. by destruct e. Qed.

(** As long as no statement is rejected with a deadlock,
    [saveStudentCourses] either succeeds and leaves the tables with exactly
    one new enrollment row per distinct requested course and nothing else
    changed, or fails and leaves every table as it was. *)
Lemma saveStudentCourses_all_or_nothing_unless_deadlock
    (fault : nat → option sql_error) (studentId courseIds : js_value) (d : db) :
  (∀ n, fault n ≠ Some ER_LOCK_DEADLOCK) →
  let unique := distinct (js_elements courseIds) in
  let run := saveStudentCourses fault studentId courseIds d in
  (enroll_success run.1.1 = true
   ∧ NoDup unique
   ∧ (∀ id, id ∈ unique ↔ id ∈ js_elements courseIds)
   ∧ student_courses run.1.2
     = student_courses d
       ++ ((λ courseId, (js_number_value studentId, courseId)) <$> unique)
   ∧ colleges run.1.2 = colleges d ∧ students run.1.2 = students d
   ∧ courses run.1.2 = courses d ∧ timetables run.1.2 = timetables d)
  ∨ (enroll_success run.1.1 = false ∧ run.1.2 = d).
Proof.
  intros Hfree unique run. subst unique run.
  destruct (negb (js_truthy studentId) || negb (js_is_number studentId)
            || negb (js_is_array courseIds)
            || (length (js_elements courseIds) =? 0)%nat) eqn:Hvalid.
  - right. unfold saveStudentCourses.
    destruct (negb (js_truthy studentId) || negb (js_is_number studentId));
      [done|].
    destruct (negb (js_is_array courseIds)); [done|].
    simpl in Hvalid. by rewrite Hvalid.
  - repeat (apply orb_false_iff in Hvalid as [Hvalid ?]).
    destruct studentId as [| | | sid | | | |]; try done.
    destruct courseIds as [| | | | | |ids|]; try done.
    destruct ids as [|id ids]; [done|]. simpl in Hvalid.
    assert (Hsid : sid ≠ 0) by (by destruct (Z.eqb_spec sid 0)).
    pose proof (saveStudentCourses_outcome fault sid (id :: ids) d Hsid
                  ltac:(done)) as Hout.
    simpl js_elements. simpl js_number_value.
    destruct (saveStudentCourses fault (JsNumber sid) (JsArray (id :: ids)) d)
      as [[res after] trace]. simpl in Hout |- *.
    inversion Hout; subst; clear Hout;
      try (right; split; [done|done]).
    + right. split; [apply enroll_handler_fails|done].
    + right. split; [apply enroll_handler_fails|done].
    + by destruct (Hfree n).
    + left. split; [done|]. split; [apply (NoDup_distinct (id :: ids))|].
      split; [intros x; apply (elem_of_distinct (id :: ids))|]. done.
Qed.

(** C3. [saveStudentCourses] is not all-or-nothing when a deadlock hits
    its batch of INSERTs. The INSERTs of a request are all queued on the
    connection before the first of them is answered. When InnoDB
    rejects the first one as the victim of a deadlock it rolls the
    transaction back and ends it; the INSERT queued behind it then runs
    outside any transaction and is committed, and the ROLLBACK of the
    [catch] block has nothing left to undo. The request for the courses 1
    and 4 fails with 'An error occurred while processing enrollment' and
    leaves the student enrolled in course 4 alone. *)
Theorem saveStudentCourses_deadlock_leaves_partial_rows :
  saveStudentCourses
    (λ n, if decide (n = 6%nat) then Some ER_LOCK_DEADLOCK else None)
    (JsNumber 1) (JsArray [1; 4]) sample_db
  = (EnrollError, set_student_courses sample_db [(1, 4)],
     [EvGetConnection; EvBegin; EvQuery SelectStudent; EvQuery SelectCourses;
      EvQuery SelectTimetables; EvQuery SelectExistingEnrollments;
      EvQuery SelectAlreadyEnrolled; EvQuery (InsertEnrollment 1);
      EvQuery (InsertEnrollment 4); EvRollback; EvRelease]).
Proof. unfold saveStudentCourses. simpl. reflexivity. Qed.

(** Storage rejecting the second of two INSERTs for another reason leaves
    nothing behind. *)
Example saveStudentCourses_insert_fails_midway :
  (saveStudentCourses (λ n, if decide (n = 7%nat) then Some ER_OTHER else None)
     (JsNumber 1) (JsArray [1; 4]) sample_db)
  = (EnrollError, sample_db,
     [EvGetConnection; EvBegin; EvQuery SelectStudent; EvQuery SelectCourses;
      EvQuery SelectTimetables; EvQuery SelectExistingEnrollments;
      EvQuery SelectAlreadyEnrolled; EvQuery (InsertEnrollment 1);
      EvQuery (InsertEnrollment 4); EvRollback; EvRelease]).
Proof. reflexivity. Qed.

Example saveStudentCourses_enrolls_each_course :
  student_courses
    (saveStudentCourses no_fault (JsNumber 1) (JsArray [1; 4; 1]) sample_db).1.2
  = [(1, 1); (1, 4)].
Proof. reflexivity. Qed.

(** ** Enrolling again *)

Lemma already_enrolled_named (d : db) (studentId courseId : Z) (ids : list Z)
    (c : course_row) :
  (studentId, courseId) ∈ student_courses d → courseId ∈ ids →
  courses d !! courseId = Some c →
  co_code c ∈ select_already_enrolled studentId ids d.
Proof.
  intros Hsc Hid Hc. unfold select_already_enrolled.
  apply list_elem_of_omap. exists (studentId, courseId). split; [done|].
  simpl. rewrite decide_True by done. by rewrite Hc.
Qed.

Lemma found_course (d : db) (ids : list Z) (courseId : Z) :
  NoDup ids → length (select_courses ids d) = length ids → courseId ∈ ids →
  is_Some (courses d !! courseId).
Proof.
  intros Hnd Hlen Hid. apply select_courses_all_found in Hlen; [|done].
  apply not_eq_None_Some. intros Hnone.
  assert (courseId ∈ missing_courses d ids) as Hin
    by (by apply elem_of_missing_courses).
  rewrite Hlen in Hin. by apply not_elem_of_nil in Hin.
Qed.

(** For a student already enrolled in a course X, enrolling again with a
    request containing X never succeeds and leaves every table as it was, so
    there is no second row for the pair; when storage answers every
    statement and the five earlier guards pass, the failure is the
    already-enrolled one and names the code of X. *)
Lemma reenroll_fails_without_second_row
    (fault : nat → option sql_error) (studentId courseX : Z) (ids : list Z)
    (d : db) :
  studentId ≠ 0 →
  (studentId, courseX) ∈ student_courses d →
  courseX ∈ ids →
  let unique := distinct ids in
  let requested := select_timetables unique d in
  let existing := select_existing_enrollments studentId d in
  let run := saveStudentCourses fault (JsNumber studentId) (JsArray ids) d in
  enroll_success run.1.1 = false
  ∧ run.1.2 = d
  ∧ ((∀ n, fault n = None) →
     ∀ s, students d !! studentId = Some s →
          missing_courses d unique = [] →
          foreign_courses d (st_college_id s) unique = [] →
          checkTimetableClashes requested = ClashFree →
          checkTimetableClashes (existing ++ requested) = ClashFree →
          ∃ c, courses d !! courseX = Some c
               ∧ co_code c ∈ select_already_enrolled studentId unique d
               ∧ run.1.1 = EnrollAlreadyEnrolled
                             (select_already_enrolled studentId unique d)).
Proof.
  intros Hsid Hsc Hx unique requested existing run.
  subst unique requested existing.
  assert (Hids : ids ≠ []) by (intros ->; by apply not_elem_of_nil in Hx).
  pose proof (saveStudentCourses_outcome fault studentId ids d Hsid Hids)
    as Hout.
  pose proof (select_courses_all_found (distinct ids) d (NoDup_distinct ids))
    as Hfound.
  assert (Hx' : courseX ∈ distinct ids) by (by apply elem_of_distinct).
  assert (Hnamed : ∀ s, guards_pass d studentId (distinct ids) s → False).
  { intros s (_ & Hlen & _ & _ & _ & Hnone).
    destruct (found_course d (distinct ids) courseX (NoDup_distinct ids)
                Hlen Hx') as [c Hc].
    pose proof (already_enrolled_named d studentId courseX (distinct ids) c
                  Hsc Hx' Hc) as Hin.
    rewrite Hnone in Hin. by apply not_elem_of_nil in Hin. }
  fold run in Hout. clearbody run. destruct run as [[res after] trace].
  simpl in *. split; [|split].
  - inversion Hout; subst; try done; try apply enroll_handler_fails;
      exfalso; eauto.
  - inversion Hout; subst; try done; exfalso; eauto.
  - intros Hnofault s Hs Hmiss Hforeign Hint Hext.
    apply Hfound in Hmiss.
    destruct (found_course d (distinct ids) courseX (NoDup_distinct ids)
                Hmiss Hx') as [c Hc].
    exists c. split; [done|].
    split; [by apply (already_enrolled_named d studentId courseX)|].
    inversion Hout; subst; try done; try congruence;
      try match goal with
          | H : fault _ = Some _ |- _ => by rewrite Hnofault in H
          end;
      exfalso; eauto.
Qed.

(** The fifth guard lets a course without slots through, and the sixth
    names it. *)
Example reenroll_in_course_without_slots :
  (saveStudentCourses no_fault (JsNumber 1) (JsArray [6; 2]) seminar_db).1
  = (EnrollAlreadyEnrolled ["HS100"], seminar_db).
Proof. reflexivity. Qed.

(** The fifth guard puts the timetables of the requested courses after
    those of the courses the student is enrolled in, so a requested course
    the student is enrolled in meets its own slots there: whenever such a
    course has a slot whose start is before its end, the request is
    answered by a clash report, of the fourth guard or of the fifth, and
    the sixth guard is not reached. *)
Lemma reenroll_with_slot_reports_clash (studentId courseX : Z) (ids : list Z)
    (d : db) (s : student_row) (tid : Z) (t : timetable_row) :
  studentId ≠ 0 →
  enrolled d studentId courseX → courseX ∈ ids →
  students d !! studentId = Some s →
  missing_courses d (distinct ids) = [] →
  foreign_courses d (st_college_id s) (distinct ids) = [] →
  timetables d !! tid = Some t → tt_course_id t = courseX →
  js_lt (tt_start_time t) (tt_end_time t) = true →
  ∃ r, (saveStudentCourses no_fault (JsNumber studentId) (JsArray ids) d).1
       = (EnrollClash r, d).
Proof.
  intros Hsid Hen Hx Hs Hmiss Hforeign Ht Hcourse Hlt.
  assert (Hids : ids ≠ []) by (intros ->; by apply not_elem_of_nil in Hx).
  pose proof (saveStudentCourses_outcome no_fault studentId ids d Hsid Hids)
    as Hout.
  pose proof (select_courses_all_found (distinct ids) d (NoDup_distinct ids))
    as Hfound.
  assert (Hx' : courseX ∈ distinct ids) by (by apply elem_of_distinct).
  assert (Hlen := proj2 Hfound Hmiss).
  destruct (found_course d (distinct ids) courseX (NoDup_distinct ids)
              Hlen Hx') as [c Hc].
  assert (Hclash : checkTimetableClashes
                     (select_existing_enrollments studentId d
                      ++ select_timetables (distinct ids) d) ≠ ClashFree).
  { intros Hfree.
    assert (Hno : no_two_overlap
                    (select_existing_enrollments studentId d
                     ++ select_timetables (distinct ids) d))
      by (apply check_success_iff; by rewrite Hfree).
    assert (Hin1 : slot_of tid t c ∈ select_existing_enrollments studentId d).
    { apply elem_of_select_existing. exists tid, t, c.
      by rewrite Hcourse. }
    assert (Hin2 : slot_of tid t c ∈ select_timetables (distinct ids) d).
    { apply elem_of_select_timetables. exists tid, t, c.
      by rewrite Hcourse. }
    apply list_elem_of_lookup in Hin1 as [i Hi].
    apply list_elem_of_lookup in Hin2 as [j Hj].
    pose proof (lookup_lt_Some _ _ _ Hi) as Hlti.
    specialize (Hno i (length (select_existing_enrollments studentId d) + j)%nat
                    (slot_of tid t c) (slot_of tid t c)).
    rewrite lookup_app_l, lookup_app_r, Nat.add_comm, Nat.add_sub in Hno
      by lia.
    specialize (Hno ltac:(lia) Hi Hj eq_refl). simpl in Hno.
    by rewrite timeSlotsOverlap_self in Hno. }
  destruct (saveStudentCourses no_fault (JsNumber studentId) (JsArray ids) d)
    as [[res after] trace]. simpl in *.
  invert_outcome Hout; eauto.
  all: by destruct Hclash.
Qed.

(** C4. Student 1 is enrolled in CS101 and asks for CS101 again: the
    request is refused and no row is added, but the failure is the clash of
    the fifth guard, CS101 against itself, and not the already-enrolled
    failure that the sixth guard is there to give. *)
Theorem reenroll_reports_clash_with_itself :
  let run := saveStudentCourses no_fault (JsNumber 1) (JsArray [1]) enrolled_db in
  enrolled enrolled_db 1 1
  ∧ run.1 = (EnrollClash
               (ClashReport Monday monday_nine_to_ten monday_nine_to_ten),
             enrolled_db)
  ∧ (∀ codes, run.1.1 ≠ EnrollAlreadyEnrolled codes)
  ∧ clash_error (ClashReport Monday monday_nine_to_ten monday_nine_to_ten)
    = "Timetable clash detected on Monday: CS101 (09:00:00-10:00:00) "
      +:+ "overlaps with CS101 (09:00:00-10:00:00)".
Proof.
  split; [by left|]. split; [reflexivity|]. split; [|reflexivity].
  intros codes. vm_compute. discriminate.
Qed.

(** ** Executing the timetable mutations *)

Lemma bind_assoc {A B C} (m : M A) (f : A → M B) (g : B → M C) (c : conn) :
  ((m ≫= f) ≫= g) c = (m ≫= (λ x, f x ≫= g)) c.
Proof.
  unfold mbind, M_bind. by destruct (m c) as [[e|a] c'].
Qed.

Lemma ret_bind {A B} (a : A) (k : A → M B) (c : conn) :
  (mret a ≫= k) c = k a c.
Proof. done. Qed.

Lemma step_stmt {A B} (fault : nat → option sql_error) (q : statement)
    (run : db → sql_error + (A * db)) (k : A → M B) (c : conn)
    (Q : (sql_error + B) * conn → Prop) :
  (∀ e c', fault (clock c) = Some e → saved c' = saved c →
           Q (inl e, c')) →
  (∀ e c', fault (clock c) = None → run (live c) = inl e →
           saved c' = saved c → Q (inl e, c')) →
  (∀ a d', fault (clock c) = None → run (live c) = inr (a, d') →
           Q (k a (Conn d' (if in_transaction c then saved c else d')
                        (log c ++ [EvQuery q]) (S (clock c))
                        (in_transaction c)))) →
  Q ((stmt fault q run ≫= k) c).
Proof.
  intros Hf He Ha. unfold mbind, M_bind, stmt.
  destruct (fault (clock c)); simpl; [by auto using saved_rejection|].
  destruct (run (live c)) as [e|[a d']]; simpl; auto using saved_rejection.
Qed.

Lemma add_transaction_outcome (fault : nat → option sql_error) (courseId : Z)
    (day : weekday) (startTime endTime : string) (d : db) :
  add_outcome fault d courseId day startTime endTime
    (with_connection (add_transaction fault courseId day startTime endTime)
                     (λ _, AdminFailed) d).1.1
    (with_connection (add_transaction fault courseId day startTime endTime)
                     (λ _, AdminFailed) d).1.2.
Proof.
  unfold with_connection.
  pattern (add_transaction fault courseId day startTime endTime
             (Conn d d [EvGetConnection] 0%nat false)).
  set (Q := λ p : (sql_error + admin_result) * conn, _).
  assert (Hthrow : ∀ n e c, fault n = Some e → saved c = d → Q (inl e, c)).
  { intros n e c Hf Hc. subst Q. simpl. rewrite Hc. by eapply add_fault. }
  assert (Hret : ∀ r c, live c = d →
                        add_outcome fault d courseId day startTime endTime r d →
                        Q (inr r, c)).
  { intros r c Hc Hr. subst Q. simpl. by rewrite Hc. }
  unfold add_transaction.
  apply step_begin; simpl; [by eauto|intros Hf0].
  apply step_select; simpl; [by eauto|intros Hf1].
  unfold select_course at 1.
  destruct (courses d !! courseId) as [course|] eqn:Hcourse; simpl.
  2: { apply step_rollback, Hret; [done|]. by apply add_course_not_found. }
  apply step_select; simpl; [by eauto|intros Hf2].
  fold (add_conflicts d courseId day startTime endTime).
  assert (Hinsert : ∀ c,
    live c = d → saved c = d → in_transaction c = true →
    select_enrolled_students courseId d = []
    ∨ add_conflicts d courseId day startTime endTime = [] →
    Q ((insertId ← stmt fault InsertTimetable
                      (insert_timetable courseId day startTime endTime);
        commit fault;;
        mret (TimetableAdded insertId courseId day startTime endTime)) c)).
  { intros c Hlive Hsaved Htrans Hno.
    apply step_stmt; simpl.
    - intros e c' He Hc'. eapply Hthrow; [done|congruence].
    - intros e c' _ He Hc'. rewrite Hlive in He. subst Q. simpl.
      rewrite Hc', Hsaved. by eapply add_insert_failed.
    - intros insertId d' _ Hins. rewrite Hlive in Hins. rewrite Htrans.
      apply step_commit; simpl.
      { intros e c' He Hc'. eapply Hthrow; [done|congruence]. }
      intros _. subst Q. simpl. by eapply add_inserted. }
  destruct (0 <? length (select_enrolled_students courseId d))%nat eqn:Hen.
  - apply length_pos_nonempty in Hen.
    rewrite bind_assoc. apply step_select; simpl; [by eauto|intros Hf3].
    fold (add_conflicts d courseId day startTime endTime).
    destruct (0 <? length (add_conflicts d courseId day startTime endTime))%nat
      eqn:Hconf.
    + apply length_pos_nonempty in Hconf.
      rewrite bind_assoc. apply step_rollback. rewrite ret_bind.
      apply Hret; [done|]. by apply add_rejected.
    + apply length_pos_empty in Hconf. rewrite ret_bind.
      apply Hinsert; auto.
  - apply length_pos_empty in Hen. rewrite ret_bind. apply Hinsert; auto.
Qed.

Lemma addTimetable_outcome (fault : nat → option sql_error) (courseId : Z)
    (dayOfWeek startTime endTime : string) (day : weekday) (d : db) :
  weekday_of_name dayOfWeek = Some day →
  js_ge startTime endTime = false →
  add_outcome fault d courseId day startTime endTime
    (addTimetable fault courseId dayOfWeek startTime endTime d).1.1
    (addTimetable fault courseId dayOfWeek startTime endTime d).1.2.
Proof.
  intros Hday Hwf. unfold addTimetable. rewrite Hday, Hwf.
  apply add_transaction_outcome.
Qed.

Lemma update_transaction_outcome (fault : nat → option sql_error)
    (timetableId : Z) (new_day : weekday → weekday)
    (startTime endTime : option string) (d : db) :
  update_outcome fault d timetableId new_day startTime endTime
    (with_connection
       (update_transaction fault timetableId new_day startTime endTime)
       (λ _, AdminFailed) d).1.1
    (with_connection
       (update_transaction fault timetableId new_day startTime endTime)
       (λ _, AdminFailed) d).1.2.
Proof.
  unfold with_connection.
  pattern (update_transaction fault timetableId new_day startTime endTime
             (Conn d d [EvGetConnection] 0%nat false)).
  set (Q := λ p : (sql_error + admin_result) * conn, _).
  assert (Hthrow : ∀ n e c, fault n = Some e → saved c = d → Q (inl e, c)).
  { intros n e c Hf Hc. subst Q. simpl. rewrite Hc. by eapply update_fault. }
  assert (Hret : ∀ r c, live c = d →
                        update_outcome fault d timetableId new_day startTime
                                       endTime r d →
                        Q (inr r, c)).
  { intros r c Hc Hr. subst Q. simpl. by rewrite Hc. }
  unfold update_transaction.
  apply step_begin; simpl; [by eauto|intros Hf0].
  apply step_select; simpl; [by eauto|intros Hf1].
  unfold select_timetable at 1.
  destruct (timetables d !! timetableId) as [old|] eqn:Hold; simpl.
  2: { apply step_rollback, Hret; [done|]. by apply update_not_found. }
  destruct (js_ge _ _) eqn:Hwf.
  { apply step_rollback, Hret; [done|]. by eapply update_invalid. }
  apply step_select; simpl; [by eauto|intros Hf2].
  match goal with
  | |- context [select_conflicts ?c ?dy ?s ?e _ d] =>
      fold (update_conflicts d timetableId c dy s e)
  end.
  destruct (0 <? length (update_conflicts _ _ _ _ _ _))%nat eqn:Hconf.
  { apply length_pos_nonempty in Hconf.
    apply step_rollback, Hret; [done|]. by eapply update_rejected. }
  apply length_pos_empty in Hconf.
  apply step_stmt; simpl.
  - intros e c' He Hc'. by eapply Hthrow.
  - intros e c' _ He Hc'. subst Q. simpl. rewrite Hc'.
    by eapply update_failed.
  - intros [] d' _ Hupd.
    apply step_commit; simpl; [intros e c' He Hc'; by eapply Hthrow|intros _].
    subst Q. simpl. by eapply update_done.
Qed.

Lemma updateTimetable_outcome (fault : nat → option sql_error)
    (timetableId : Z) (updates : timetable_updates)
    (new_day : weekday → weekday) (d : db) :
  update_day (upd_dayOfWeek updates) = Some new_day →
  update_outcome fault d timetableId new_day (upd_startTime updates)
    (upd_endTime updates)
    (updateTimetable fault timetableId updates d).1.1
    (updateTimetable fault timetableId updates d).1.2.
Proof.
  intros Hday. unfold updateTimetable. rewrite Hday.
  apply update_transaction_outcome.
Qed.

(** ** Malformed intervals *)

Lemma weekday_of_name_None (s : string) :
  weekday_of_name s = None ↔ s ∉ validDays.
Proof.
  unfold weekday_of_name, validDays.
  repeat match goal with
         | |- context [String.eqb s ?name] =>
             destruct (String.eqb_spec s name) as [->|?];
             [split; [done | intros H; exfalso; apply H;
                             rewrite !elem_of_cons; tauto]|]
         end.
  split; [|done]. intros _ Hin.
  rewrite !elem_of_cons in Hin. pose proof (not_elem_of_nil s). tauto.
Qed.

(** C6 (as amended). [addTimetable] rejects an interval whose start is not
    before its end as invalid input without any storage interaction.
    [updateTimetable] rejects the merged interval once it has looked up the
    existing row, which the merge needs: inside the transaction, right after
    that one lookup and before the conflict query, rolling back. When the
    row does not exist the same lookup ends the call with the not-found
    result. *)
Theorem malformed_interval_rejected_before_conflict_check
    (fault : nat → option sql_error) (d : db) :
  (∀ (courseId : Z) (dayOfWeek startTime endTime : string),
     js_ge startTime endTime = true →
     ∃ r, addTimetable fault courseId dayOfWeek startTime endTime d = (r, d, [])
          ∧ admin_success r = false
          ∧ (r = InvalidDay ∨ r = InvalidInterval)
          ∧ (dayOfWeek ∈ validDays → r = InvalidInterval))
  ∧ (∀ (timetableId : Z) (updates : timetable_updates)
       (new_day : weekday → weekday) (old : timetable_row),
       update_day (upd_dayOfWeek updates) = Some new_day →
       timetables d !! timetableId = Some old →
       js_ge (js_or_field (upd_startTime updates) (tt_start_time old))
             (js_or_field (upd_endTime updates) (tt_end_time old)) = true →
       fault 0%nat = None → fault 1%nat = None →
       updateTimetable fault timetableId updates d
       = (InvalidInterval, d,
          [EvGetConnection; EvBegin; EvQuery SelectTimetable; EvRollback;
           EvRelease]))
  ∧ (∀ (timetableId : Z) (updates : timetable_updates)
       (new_day : weekday → weekday),
       update_day (upd_dayOfWeek updates) = Some new_day →
       timetables d !! timetableId = None →
       fault 0%nat = None → fault 1%nat = None →
       updateTimetable fault timetableId updates d
       = (TimetableNotFound, d,
          [EvGetConnection; EvBegin; EvQuery SelectTimetable; EvRollback;
           EvRelease])).
Proof.
  split; [|split].
  - intros courseId dayOfWeek startTime endTime Hge. unfold addTimetable.
    destruct (weekday_of_name dayOfWeek) as [day|] eqn:Hday.
    + rewrite Hge. exists InvalidInterval. auto.
    + exists InvalidDay. split; [done|]. split; [done|]. split; [by left|].
      intros Hin. by apply weekday_of_name_None in Hday.
  - intros timetableId updates new_day old Hday Hold Hge Hf0 Hf1.
    unfold updateTimetable. rewrite Hday. unfold with_connection.
    pattern (update_transaction fault timetableId new_day
               (upd_startTime updates) (upd_endTime updates)
               (Conn d d [EvGetConnection] 0%nat false)).
    unfold update_transaction.
    apply step_begin; simpl; [intros e He; congruence|intros _].
    apply step_select; simpl; [intros e He; congruence|intros _].
    unfold select_timetable. rewrite Hold. simpl. rewrite Hge.
    by apply step_rollback.
  - intros timetableId updates new_day Hday Hnone Hf0 Hf1.
    unfold updateTimetable. rewrite Hday. unfold with_connection.
    pattern (update_transaction fault timetableId new_day
               (upd_startTime updates) (upd_endTime updates)
               (Conn d d [EvGetConnection] 0%nat false)).
    unfold update_transaction.
    apply step_begin; simpl; [intros e He; congruence|intros _].
    apply step_select; simpl; [intros e He; congruence|intros _].
    unfold select_timetable. rewrite Hnone. reflexivity.
Qed.

Lemma malformed_interval_rejected_before_conflict_check_witness :
  (∃ r, addTimetable no_fault 1 "Monday" "10:00:00" "09:00:00" sample_db
        = (r, sample_db, [])
        ∧ admin_success r = false
        ∧ (r = InvalidDay ∨ r = InvalidInterval)
        ∧ ("Monday" ∈ validDays → r = InvalidInterval))
  ∧ updateTimetable no_fault 1 (Updates None (Some "11:00:00") None) sample_db
    = (InvalidInterval, sample_db,
       [EvGetConnection; EvBegin; EvQuery SelectTimetable; EvRollback;
        EvRelease]).
Proof.
  destruct (malformed_interval_rejected_before_conflict_check no_fault sample_db)
    as (Hadd & Hupdate & _).
  split.
  - apply Hadd. reflexivity.
  - apply (Hupdate 1 (Updates None (Some "11:00:00") None) (λ day, day)
             (TimetableRow 1 Monday "09:00:00" "10:00:00"));
      reflexivity.
Defined.

(** C6 as the specification words it does not hold for [updateTimetable]:
    the malformed interval is rejected only after a storage lookup, and when
    the row is absent the result is the not-found one although start and end
    were both supplied. *)
Lemma updateTimetable_looks_up_before_rejecting :
  updateTimetable no_fault 1 (Updates None (Some "11:00:00") None) sample_db
  = (InvalidInterval, sample_db,
     [EvGetConnection; EvBegin; EvQuery SelectTimetable; EvRollback;
      EvRelease])
  ∧ updateTimetable no_fault 99
      (Updates None (Some "11:00:00") (Some "10:00:00")) sample_db
    = (TimetableNotFound, sample_db,
       [EvGetConnection; EvBegin; EvQuery SelectTimetable; EvRollback;
        EvRelease]).
Proof. split; reflexivity. Qed.

(** ** The schedule invariant *)

Lemma rows_overlap_sym (t1 t2 : timetable_row) :
  rows_overlap t1 t2 = rows_overlap t2 t1.
Proof. apply timeSlotsOverlap_sym. Qed.

Lemma schedule_ok_cross (d : db) (studentId : Z) :
  schedule_ok d studentId → cross_course_ok d studentId.
Proof.
  intros Hok id1 id2 t1 t2 Hne H1 H2. apply (Hok id1 id2); [|done..].
  intros ->. congruence.
Qed.

(** Fewer rows and fewer enrollments keep a schedule free of overlaps. *)
Lemma schedule_ok_shrink (d d' : db) (studentId : Z) :
  (∀ id t, timetables d' !! id = Some t → timetables d !! id = Some t) →
  (∀ c, enrolled d' studentId c → enrolled d studentId c) →
  schedule_ok d studentId → schedule_ok d' studentId.
Proof.
  intros Hrows Hen Hok id1 id2 t1 t2 Hne H1 H2 He1 He2.
  apply (Hok id1 id2); auto.
Qed.

Lemma cross_course_ok_shrink (d d' : db) (studentId : Z) :
  (∀ id t, timetables d' !! id = Some t → timetables d !! id = Some t) →
  (∀ c, enrolled d' studentId c → enrolled d studentId c) →
  cross_course_ok d studentId → cross_course_ok d' studentId.
Proof.
  intros Hrows Hen Hok id1 id2 t1 t2 Hne H1 H2 He1 He2.
  apply (Hok id1 id2); auto.
Qed.

(** *** The checkers are sound *)

Lemma pairwise_okb_sound (cross_only : bool) (d : db) (studentId : Z) :
  pairwise_okb cross_only d studentId = true →
  if cross_only then cross_course_ok d studentId else schedule_ok d studentId.
Proof.
  unfold pairwise_okb. rewrite forallb_forall. intros Hall.
  assert (Hpair : ∀ id1 id2 t1 t2,
    timetables d !! id1 = Some t1 → timetables d !! id2 = Some t2 →
    negb ((if cross_only
           then bool_decide (tt_course_id t1 ≠ tt_course_id t2)
           else bool_decide (id1 ≠ id2))
          && bool_decide (enrolled d studentId (tt_course_id t1))
          && bool_decide (enrolled d studentId (tt_course_id t2))
          && bool_decide (tt_day_of_week t1 = tt_day_of_week t2))
    || negb (rows_overlap t1 t2) = true).
  { intros id1 id2 t1 t2 H1 H2.
    specialize (Hall (id1, t1)). rewrite forallb_forall in Hall.
    apply (Hall ltac:(by apply list_elem_of_In, elem_of_map_to_list) (id2, t2)).
    by apply list_elem_of_In, elem_of_map_to_list. }
  destruct cross_only; intros id1 id2 t1 t2 Hne H1 H2 He1 He2 Hday;
    specialize (Hpair id1 id2 t1 t2 H1 H2);
    rewrite !bool_decide_eq_true_2 in Hpair by done; simpl in Hpair;
    by apply negb_true_iff in Hpair.
Qed.

Lemma all_schedules_okb_sound (cross_only : bool) (d : db) :
  all_schedules_okb cross_only d = true →
  ∀ studentId,
    if cross_only then cross_course_ok d studentId
    else schedule_ok d studentId.
Proof.
  unfold all_schedules_okb. rewrite forallb_forall. intros Hall studentId.
  assert (Hsound : ∀ c, enrolled d studentId c →
            if cross_only then cross_course_ok d studentId
            else schedule_ok d studentId).
  { intros c Hc. apply pairwise_okb_sound.
    apply (Hall (studentId, c)). by apply list_elem_of_In. }
  destruct cross_only; intros id1 id2 t1 t2 Hne H1 H2 He1;
    by apply (Hsound _ He1 id1 id2).
Qed.

Lemma referentialb_sound (d : db) : referentialb d = true → referential d.
Proof.
  unfold referentialb. rewrite forallb_forall.
  intros Hall studentId courseId Hen.
  specialize (Hall (studentId, courseId) ltac:(by apply list_elem_of_In)).
  apply andb_true_iff in Hall as [H1 H2].
  by apply bool_decide_eq_true in H1, H2.
Qed.

Lemma no_two_overlap_elem_of (ts : list slot) (a b : slot) :
  no_two_overlap ts → a ∈ ts → b ∈ ts → a ≠ b →
  day_of_week a = day_of_week b → slots_overlap a b = false.
Proof.
  intros Hno [i Hi]%list_elem_of_lookup [j Hj]%list_elem_of_lookup Hne Hday.
  apply (Hno i j); [|done..]. intros ->. congruence.
Qed.

(** *** Enrolling *)

Lemma enrolled_enroll_db (d : db) (studentId : Z) (ids : list Z) (sid c : Z) :
  enrolled (enroll_db d studentId ids) sid c
  ↔ enrolled d sid c ∨ (sid = studentId ∧ c ∈ ids).
Proof.
  unfold enrolled, enroll_db, enrollment_rows. simpl.
  rewrite elem_of_app, list_elem_of_fmap. split.
  - intros [?|(x & [= -> ->] & ?)]; auto.
  - intros [?|[-> ?]]; [by left|]. right. eauto.
Qed.

Lemma elem_of_sublist {A} (l k : list A) (x : A) :
  sublist l k → x ∈ l → x ∈ k.
Proof.
  intros Hsub Hin. eapply elem_of_submseteq; [done|].
  by apply sublist_submseteq.
Qed.

(** The rows that a request cut short by a deadlock leaves are among those
    the whole request would have left. *)
Lemma enrolled_enroll_db_sublist (d : db) (studentId : Z)
    (committed ids : list Z) (sid c : Z) :
  sublist committed ids →
  enrolled (enroll_db d studentId committed) sid c →
  enrolled (enroll_db d studentId ids) sid c.
Proof.
  intros Hsub. rewrite !enrolled_enroll_db.
  intros [?|[-> Hin]]; [by left|]. right. split; [done|].
  by apply (elem_of_sublist committed).
Qed.

(** After a successful enrollment the student's whole schedule is free of
    overlaps: every slot of an old or a new course went through the combined
    clash check. *)
Lemma enroll_schedule_ok (d : db) (studentId : Z) (ids : list Z)
    (s : student_row) :
  referential d → NoDup ids → guards_pass d studentId ids s →
  schedule_ok (enroll_db d studentId ids) studentId.
Proof.
  intros Href Hnd (Hs & Hlen & _ & _ & Hcombined & _).
  assert (Hno : no_two_overlap
                  (select_existing_enrollments studentId d
                   ++ select_timetables ids d)).
  { apply check_success_iff. by rewrite Hcombined. }
  assert (Hslot : ∀ id t,
    timetables d !! id = Some t →
    enrolled (enroll_db d studentId ids) studentId (tt_course_id t) →
    ∃ c, slot_of id t c ∈ select_existing_enrollments studentId d
                          ++ select_timetables ids d).
  { intros id t Ht [Hen|[_ Hin]]%enrolled_enroll_db.
    - destruct (Href _ _ Hen) as [_ [c Hc]]. exists c.
      apply elem_of_app. left. apply elem_of_select_existing.
      by exists id, t, c.
    - destruct (found_course d ids _ Hnd Hlen Hin) as [c Hc]. exists c.
      apply elem_of_app. right. apply elem_of_select_timetables.
      by exists id, t, c. }
  intros id1 id2 t1 t2 Hne H1 H2 He1 He2 Hday. simpl in H1, H2.
  destruct (Hslot id1 t1 H1 He1) as [c1 Hin1].
  destruct (Hslot id2 t2 H2 He2) as [c2 Hin2].
  apply (no_two_overlap_elem_of _ _ _ Hno Hin1 Hin2); [|done].
  unfold slot_of. congruence.
Qed.

Lemma enroll_referential (d : db) (studentId : Z) (ids : list Z)
    (s : student_row) :
  referential d → NoDup ids → guards_pass d studentId ids s →
  referential (enroll_db d studentId ids).
Proof.
  intros Href Hnd (Hs & Hlen & _) sid c [Hen|[-> Hin]]%enrolled_enroll_db.
  - by apply Href.
  - simpl. split; [by rewrite Hs|]. by apply (found_course d ids).
Qed.

Lemma enroll_other_student (d : db) (studentId : Z) (ids : list Z) (sid : Z) :
  sid ≠ studentId →
  ∀ c, enrolled (enroll_db d studentId ids) sid c → enrolled d sid c.
Proof. intros Hne c [?|[? _]]%enrolled_enroll_db; done. Qed.
(** ** The order of the guards *)

Lemma elem_of_select_already_enrolled (studentId : Z) (ids : list Z) (d : db)
    (code : string) :
  code ∈ select_already_enrolled studentId ids d
  ↔ ∃ courseId c, enrolled d studentId courseId ∧ courseId ∈ ids
                  ∧ courses d !! courseId = Some c ∧ code = co_code c.
Proof.
  unfold select_already_enrolled, enrolled. rewrite list_elem_of_omap. split.
  - intros ([sid cid] & Hin & Hcode). simpl in Hcode.
    destruct (decide (sid = studentId ∧ cid ∈ ids)) as [[-> Hid]|]; [|done].
    destruct (courses d !! cid) as [c|] eqn:Hc; [|done].
    injection Hcode as <-. by exists cid, c.
  - intros (cid & c & Hen & Hid & Hc & ->). exists (studentId, cid).
    split; [done|]. simpl. rewrite decide_True by done. by rewrite Hc.
Qed.

(** C2. With its input accepted and storage answering every statement,
    [saveStudentCourses] applies its guards in this order, and the first one
    that fails fixes the result and leaves every table as it was: the student
    exists; every deduplicated requested course exists, the failure naming
    exactly the identifiers without a course; every requested course belongs
    to the student's college, the failure naming the codes of those that do
    not; the timetables of the requested courses (every slot of a requested
    course, and no other) do not clash among themselves; they do not clash
    when put after the timetables of the courses the student is enrolled in
    (every slot of such a course, and no other); no requested course is
    already enrolled, the failure naming the codes of exactly the requested
    courses the student is enrolled in. *)
Theorem saveStudentCourses_guard_order (studentId : Z) (ids : list Z) (d : db) :
  studentId ≠ 0 → ids ≠ [] →
  let unique := distinct ids in
  let requested := select_timetables unique d in
  let existing := select_existing_enrollments studentId d in
  let already := select_already_enrolled studentId unique d in
  let run := saveStudentCourses no_fault (JsNumber studentId) (JsArray ids) d in
  (∀ id, id ∈ missing_courses d unique ↔ id ∈ ids ∧ courses d !! id = None)
  ∧ (∀ college id c,
       (id, c) ∈ foreign_courses d college unique
       ↔ id ∈ ids ∧ courses d !! id = Some c ∧ co_college_id c ≠ college)
  ∧ (∀ s, s ∈ requested
          ↔ ∃ id t c, timetables d !! id = Some t ∧ tt_course_id t ∈ ids
                      ∧ courses d !! tt_course_id t = Some c
                      ∧ s = slot_of id t c)
  ∧ (∀ s, s ∈ existing
          ↔ ∃ id t c, timetables d !! id = Some t
                      ∧ enrolled d studentId (tt_course_id t)
                      ∧ courses d !! tt_course_id t = Some c
                      ∧ s = slot_of id t c)
  ∧ (∀ code, code ∈ already
             ↔ ∃ courseId c, enrolled d studentId courseId ∧ courseId ∈ ids
                             ∧ courses d !! courseId = Some c
                             ∧ code = co_code c)
  ∧ (students d !! studentId = None → run.1 = (EnrollStudentNotFound, d))
  ∧ (∀ s, students d !! studentId = Some s →
       (missing_courses d unique ≠ [] →
        run.1 = (EnrollCoursesNotFound (missing_courses d unique), d))
       ∧ (missing_courses d unique = [] →
          (foreign_courses d (st_college_id s) unique ≠ [] →
           run.1 = (EnrollWrongCollege
                      ((λ c, co_code c.2)
                         <$> foreign_courses d (st_college_id s) unique), d))
          ∧ (foreign_courses d (st_college_id s) unique = [] →
             (∀ r, checkTimetableClashes requested = ClashFound r →
                   run.1 = (EnrollClash r, d))
             ∧ (checkTimetableClashes requested = ClashFree →
                (∀ r, checkTimetableClashes (existing ++ requested)
                      = ClashFound r →
                      run.1 = (EnrollClash r, d))
                ∧ (checkTimetableClashes (existing ++ requested) = ClashFree →
                   already ≠ [] →
                   run.1 = (EnrollAlreadyEnrolled already, d)))))).
Proof.
  intros Hsid Hids unique requested existing already run.
  subst unique requested existing already.
  pose proof (saveStudentCourses_outcome no_fault studentId ids d Hsid Hids)
    as Hout.
  pose proof (select_courses_all_found (distinct ids) d (NoDup_distinct ids))
    as Hfound.
  fold run in Hout. clearbody run. destruct run as [[res after] trace].
  simpl in *.
  split. { intros id. by rewrite elem_of_missing_courses, elem_of_distinct. }
  split. { intros college id c.
           by rewrite elem_of_foreign_courses, elem_of_distinct. }
  split. { intros s. rewrite elem_of_select_timetables.
           by setoid_rewrite elem_of_distinct. }
  split. { intros s. apply elem_of_select_existing. }
  split. { intros code. rewrite elem_of_select_already_enrolled.
           by setoid_rewrite elem_of_distinct. }
  split. { intros Hnone. invert_outcome Hout. }
  intros s Hs. split.
  { intros Hmiss. invert_outcome Hout. }
  intros Hmiss. split.
  { intros Hforeign. invert_outcome Hout. }
  intros Hforeign. split.
  { intros r Hclash. invert_outcome Hout. }
  intros Hint. split.
  { intros r Hclash. invert_outcome Hout. }
  intros Hext Halready. invert_outcome Hout.
Qed.

Lemma saveStudentCourses_guard_order_witness :
  (saveStudentCourses no_fault (JsNumber 1) (JsArray [3; 3]) enrolled_db).1
  = (EnrollClash (ClashReport Tuesday tuesday_ten_ap105 tuesday_ten_cs101),
     enrolled_db).
Proof.
  destruct (saveStudentCourses_guard_order 1 [3; 3] enrolled_db)
    as (_ & _ & _ & _ & _ & _ & Hguards); [lia | done |].
  destruct (Hguards (StudentRow "John Doe" 1)) as [_ Hfound]; [reflexivity|].
  destruct Hfound as [_ Hcollege]; [reflexivity|].
  destruct Hcollege as [_ Hexisting]; [reflexivity|].
  destruct Hexisting as [Hclash _]; [reflexivity|].
  apply Hclash. reflexivity.
Defined.

(** The Tuesday slots of CS101 and AP105 tie in the ORDER BY of the fourth
    guard's query; read in the order of their keys, the slot of CS101 is
    placed first and the one of AP105 is reported against it. *)
Example saveStudentCourses_requested_courses_clash :
  (saveStudentCourses no_fault (JsNumber 1) (JsArray [1; 3; 1]) sample_db).1
  = (EnrollClash (ClashReport Tuesday tuesday_ten_ap105 tuesday_ten_cs101),
     sample_db).
Proof. reflexivity. Qed.

(** *** The conflict query *)

Lemma elem_of_select_conflicts (courseId : Z) (day : weekday)
    (startTime endTime : string) (keep : Z → Z → bool) (d : db)
    (row : conflict_row) :
  row ∈ select_conflicts courseId day startTime endTime keep d
  ↔ ∃ sid st id t c,
      enrolled d sid courseId
      ∧ students d !! sid = Some st
      ∧ enrolled d sid (tt_course_id t)
      ∧ timetables d !! id = Some t
      ∧ courses d !! tt_course_id t = Some c
      ∧ tt_day_of_week t = day
      ∧ sql_time_lt (tt_start_time t) endTime = true
      ∧ sql_time_lt startTime (tt_end_time t) = true
      ∧ keep (tt_course_id t) id = true
      ∧ row = ConflictRow sid (st_name st) (co_code c) (tt_day_of_week t)
                (tt_start_time t) (tt_end_time t).
Proof.
  unfold select_conflicts. rewrite elem_of_distinct, list_elem_of_bind. split.
  - intros ([sid1 c1] & Hrow & Hsc1). simpl in Hrow.
    destruct (decide (c1 = courseId)) as [->|];
      [|by apply not_elem_of_nil in Hrow].
    destruct (students d !! sid1) as [st|] eqn:Hst;
      [|by apply not_elem_of_nil in Hrow].
    apply list_elem_of_bind in Hrow as ([sid2 c2] & Hrow & Hsc2).
    simpl in Hrow.
    destruct (decide (sid2 = sid1)) as [->|];
      [|by apply not_elem_of_nil in Hrow].
    apply list_elem_of_bind in Hrow as ([id t] & Hrow & Ht).
    apply list_elem_of_filter in Ht as [Hcourse Ht%elem_of_table_rows].
    simpl in Hcourse, Hrow. subst c2.
    destruct (courses d !! tt_course_id t) as [c|] eqn:Hc;
      [|by apply not_elem_of_nil in Hrow].
    destruct (_ && _) eqn:Hcond; [|by apply not_elem_of_nil in Hrow].
    apply list_elem_of_singleton in Hrow as ->.
    repeat (apply andb_true_iff in Hcond as [Hcond ?]).
    apply bool_decide_eq_true in Hcond.
    exists sid1, st, id, t, c. by repeat split.
  - intros (sid & st & id & t & c & Hen1 & Hst & Hen2 & Ht & Hc & Hday & Hlt1
            & Hlt2 & Hkeep & ->).
    exists (sid, courseId). split; [|done]. simpl.
    rewrite decide_True by done. rewrite Hst.
    apply list_elem_of_bind. exists (sid, tt_course_id t). split; [|done].
    simpl. rewrite decide_True by done.
    apply list_elem_of_bind. exists (id, t). split.
    + simpl. rewrite Hc, Hlt1, Hlt2, Hkeep.
      rewrite bool_decide_eq_true_2 by done. simpl. by left.
    + apply list_elem_of_filter. split; [done|]. by apply elem_of_table_rows.
Qed.

Lemma elem_of_select_enrolled_students (courseId : Z) (d : db) (sid : Z)
    (st : student_row) :
  enrolled d sid courseId → students d !! sid = Some st →
  (sid, st_name st) ∈ select_enrolled_students courseId d.
Proof.
  intros Hen Hst. unfold select_enrolled_students.
  apply elem_of_distinct, list_elem_of_omap. exists (sid, courseId).
  split; [done|]. simpl. rewrite decide_True by done. by rewrite Hst.
Qed.

(** An empty conflict query means that no slot it would have selected
    overlaps the candidate. *)
Lemma no_conflicts_no_overlap (courseId : Z) (day : weekday)
    (startTime endTime : string) (keep : Z → Z → bool) (d : db)
    (sid id : Z) (t : timetable_row) :
  referential d →
  select_conflicts courseId day startTime endTime keep d = [] →
  enrolled d sid courseId → enrolled d sid (tt_course_id t) →
  timetables d !! id = Some t → tt_day_of_week t = day →
  keep (tt_course_id t) id = true →
  timeSlotsOverlap (tt_start_time t) (tt_end_time t) startTime endTime = false.
Proof.
  intros Href Hnil Hen1 Hen2 Ht Hday Hkeep.
  destruct (Href _ _ Hen1) as [[st Hst] _].
  destruct (Href _ _ Hen2) as [_ [c Hc]].
  destruct (timeSlotsOverlap _ _ _ _) eqn:Hov; [exfalso|done].
  apply andb_true_iff in Hov as [Hlt1 Hlt2].
  assert (ConflictRow sid (st_name st) (co_code c) (tt_day_of_week t)
            (tt_start_time t) (tt_end_time t)
          ∈ select_conflicts courseId day startTime endTime keep d) as Hin.
  { apply elem_of_select_conflicts. exists sid, st, id, t, c.
    by repeat split. }
  rewrite Hnil in Hin. by apply not_elem_of_nil in Hin.
Qed.

(** *** Fresh keys *)

Lemma foldr_max_ge (l : list Z) (x : Z) : x ∈ l → x ≤ foldr Z.max 0 l.
Proof.
  induction l as [|y l IH]; simpl; [by intros ?%not_elem_of_nil|].
  intros [->|Hin%IH]%elem_of_cons; lia.
Qed.

Lemma next_id_fresh {A} (m : gmap Z A) : m !! next_id m = None.
Proof.
  destruct (m !! next_id m) as [a|] eqn:Hm; [exfalso|done].
  apply elem_of_map_to_list in Hm.
  assert (next_id m ∈ (map_to_list m).*1) as Hin.
  { apply list_elem_of_fmap. by exists (next_id m, a). }
  apply foldr_max_ge in Hin. unfold next_id in Hin. lia.
Qed.

(** *** Adding a slot *)

Lemma insert_timetable_inr (courseId : Z) (day : weekday)
    (startTime endTime : string) (d d' : db) (id : Z) :
  insert_timetable courseId day startTime endTime d = inr (id, d') →
  timetables d !! id = None
  ∧ d' = set_timetables d
           (<[id := TimetableRow courseId day startTime endTime]>
              (timetables d)).
Proof.
  unfold insert_timetable. repeat case_match; try done.
  intros [= <- <-]. split; [apply next_id_fresh|done].
Qed.

Lemma add_cross_course_ok (d : db) (courseId : Z) (day : weekday)
    (startTime endTime : string) (id sid : Z) :
  referential d →
  timetables d !! id = None →
  select_enrolled_students courseId d = []
  ∨ add_conflicts d courseId day startTime endTime = [] →
  cross_course_ok d sid →
  cross_course_ok
    (set_timetables d
       (<[id := TimetableRow courseId day startTime endTime]> (timetables d)))
    sid.
Proof.
  intros Href Hfresh Hno Hok.
  assert (Hnew : ∀ id2 t2,
    timetables d !! id2 = Some t2 → tt_course_id t2 ≠ courseId →
    enrolled d sid courseId → enrolled d sid (tt_course_id t2) →
    tt_day_of_week t2 = day →
    timeSlotsOverlap (tt_start_time t2) (tt_end_time t2) startTime endTime
    = false).
  { intros id2 t2 H2 Hne Hen1 Hen2 Hday.
    destruct Hno as [Hnone|Hnil].
    - destruct (Href _ _ Hen1) as [[st Hst] _].
      pose proof (elem_of_select_enrolled_students courseId d sid st Hen1 Hst)
        as Hin.
      rewrite Hnone in Hin. by apply not_elem_of_nil in Hin.
    - apply (no_conflicts_no_overlap courseId day startTime endTime
               (λ course _, bool_decide (course ≠ courseId)) d sid id2);
        try done.
      by apply bool_decide_eq_true_2. }
  intros id1 id2 t1 t2 Hne H1 H2 He1 He2 Hday. simpl in *.
  unfold enrolled in He1, He2. simpl in He1, He2.
  destruct (decide (id1 = id)) as [->|Hid1],
           (decide (id2 = id)) as [->|Hid2].
  - rewrite lookup_insert_eq in H1, H2. congruence.
  - rewrite lookup_insert_eq in H1. rewrite lookup_insert_ne in H2 by done.
    injection H1 as <-. simpl in *.
    rewrite rows_overlap_sym. by apply (Hnew id2).
  - rewrite lookup_insert_eq in H2. rewrite lookup_insert_ne in H1 by done.
    injection H2 as <-. simpl in *. by apply (Hnew id1).
  - rewrite lookup_insert_ne in H1, H2 by done. by apply (Hok id1 id2).
Qed.

(** *** Changing a slot *)

Lemma update_timetable_inr (timetableId : Z) (day : weekday)
    (startTime endTime : string) (d d' : db) (old : timetable_row) u :
  timetables d !! timetableId = Some old →
  update_timetable timetableId day startTime endTime d = inr (u, d') →
  d' = set_timetables d
         (<[timetableId :=
              TimetableRow (tt_course_id old) day startTime endTime]>
            (timetables d)).
Proof.
  unfold update_timetable. intros ->. case_match; [done|]. by intros [= <-].
Qed.

Lemma update_schedule_ok (cross_only : bool) (d : db) (timetableId : Z)
    (old : timetable_row) (day : weekday) (startTime endTime : string)
    (sid : Z) :
  referential d →
  timetables d !! timetableId = Some old →
  update_conflicts d timetableId (tt_course_id old) day startTime endTime = [] →
  (if cross_only then cross_course_ok d sid else schedule_ok d sid) →
  let d' := set_timetables d
              (<[timetableId :=
                   TimetableRow (tt_course_id old) day startTime endTime]>
                 (timetables d)) in
  if cross_only then cross_course_ok d' sid else schedule_ok d' sid.
Proof.
  intros Href Hold Hnil Hok d'.
  assert (Hnew : ∀ id2 t2,
    timetables d !! id2 = Some t2 → id2 ≠ timetableId →
    enrolled d sid (tt_course_id old) → enrolled d sid (tt_course_id t2) →
    tt_day_of_week t2 = day →
    timeSlotsOverlap (tt_start_time t2) (tt_end_time t2) startTime endTime
    = false).
  { intros id2 t2 H2 Hne Hen1 Hen2 Hday.
    apply (no_conflicts_no_overlap (tt_course_id old) day startTime endTime
             (λ _ tid, bool_decide (tid ≠ timetableId)) d sid id2); try done.
    by apply bool_decide_eq_true_2. }
  assert (Hpair : ∀ id1 id2 t1 t2,
    id1 ≠ id2 →
    timetables d' !! id1 = Some t1 → timetables d' !! id2 = Some t2 →
    enrolled d sid (tt_course_id t1) → enrolled d sid (tt_course_id t2) →
    tt_day_of_week t1 = tt_day_of_week t2 →
    (∀ o1 o2, timetables d !! id1 = Some o1 → timetables d !! id2 = Some o2 →
              tt_course_id o1 = tt_course_id t1 →
              tt_course_id o2 = tt_course_id t2 →
              t1 = o1 → t2 = o2 → rows_overlap t1 t2 = false) →
    rows_overlap t1 t2 = false).
  { intros id1 id2 t1 t2 Hne H1 H2 He1 He2 Hday Hunchanged.
    subst d'. simpl in H1, H2.
    destruct (decide (id1 = timetableId)) as [->|Hid1],
             (decide (id2 = timetableId)) as [->|Hid2]; [done|..].
    - rewrite lookup_insert_eq in H1. rewrite lookup_insert_ne in H2 by done.
      injection H1 as <-. simpl in *.
      rewrite rows_overlap_sym. by apply (Hnew id2).
    - rewrite lookup_insert_eq in H2. rewrite lookup_insert_ne in H1 by done.
      injection H2 as <-. simpl in *. by apply (Hnew id1).
    - rewrite lookup_insert_ne in H1, H2 by done.
      by apply (Hunchanged t1 t2). }
  destruct cross_only; intros id1 id2 t1 t2 Hne H1 H2 He1 He2 Hday.
  - apply (Hpair id1 id2); try done.
    + intros ->. congruence.
    + intros o1 o2 Ho1 Ho2 _ _ -> ->. by apply (Hok id1 id2).
  - apply (Hpair id1 id2); try done.
    intros o1 o2 Ho1 Ho2 _ _ -> ->. by apply (Hok id1 id2).
Qed.

(** *** What each operation leaves behind *)

Lemma saveStudentCourses_db (fault : nat → option sql_error)
    (studentId courseIds : js_value) (d : db) :
  (saveStudentCourses fault studentId courseIds d).1.2 = d
  ∨ ∃ s committed,
      guards_pass d (js_number_value studentId)
                  (distinct (js_elements courseIds)) s
      ∧ sublist committed (distinct (js_elements courseIds))
      ∧ (saveStudentCourses fault studentId courseIds d).1.2
        = enroll_db d (js_number_value studentId) committed.
Proof.
  destruct (negb (js_truthy studentId) || negb (js_is_number studentId)
            || negb (js_is_array courseIds)
            || (length (js_elements courseIds) =? 0)%nat) eqn:Hvalid.
  - left. unfold saveStudentCourses.
    destruct (negb (js_truthy studentId) || negb (js_is_number studentId));
      [done|].
    destruct (negb (js_is_array courseIds)); [done|].
    simpl in Hvalid. by rewrite Hvalid.
  - repeat (apply orb_false_iff in Hvalid as [Hvalid ?]).
    destruct studentId as [| | | sid | | | |]; try done.
    destruct courseIds as [| | | | | |ids|]; try done.
    destruct ids as [|id ids]; [done|]. simpl in Hvalid.
    assert (Hsid : sid ≠ 0) by (by destruct (Z.eqb_spec sid 0)).
    pose proof (saveStudentCourses_outcome fault sid (id :: ids) d Hsid
                  ltac:(done)) as Hout.
    simpl js_elements. simpl js_number_value.
    destruct (saveStudentCourses fault (JsNumber sid) (JsArray (id :: ids)) d)
      as [[res after] trace]. simpl in Hout |- *.
    inversion Hout; subst; eauto 10.
Qed.

Lemma with_pool_db {A R} (fault : nat → option sql_error) (q : statement)
    (run : db → sql_error + (A * db)) (k : A → R) (h : sql_error → R) (d : db) :
  (with_pool fault q run k h d).1.2 = d
  ∨ ∃ a, run d = inr (a, (with_pool fault q run k h d).1.2).
Proof.
  unfold with_pool. destruct (fault 0%nat); [by left|].
  destruct (run d) as [e|[a d']] eqn:Hrun; [by left|]. right. by exists a.
Qed.

Lemma dropCourse_db (fault : nat → option sql_error) (studentId courseId : Z)
    (d : db) :
  (dropCourse fault studentId courseId d).1.2 = d
  ∨ (dropCourse fault studentId courseId d).1.2
    = set_student_courses d
        (filter (λ sc, sc ≠ (studentId, courseId)) (student_courses d)).
Proof.
  unfold dropCourse.
  destruct (with_pool_db fault DeleteEnrollment
              (delete_enrollment studentId courseId)
              (λ n, if (n =? 0)%nat then DropNotFound else DropSuccess)
              (λ _, DropFailed) d) as [H|[a H]]; [by left|].
  right. by injection H as _ <-.
Qed.

Lemma deleteTimetable_db (fault : nat → option sql_error) (timetableId : Z)
    (d : db) :
  (deleteTimetable fault timetableId d).1.2 = d
  ∨ (deleteTimetable fault timetableId d).1.2
    = set_timetables d (delete timetableId (timetables d)).
Proof.
  unfold deleteTimetable.
  destruct (with_pool_db fault DeleteTimetable (delete_timetable timetableId)
              (λ n, if (n =? 0)%nat then TimetableNotFound
                    else TimetableDeleted)
              (λ _, AdminFailed) d) as [H|[a H]]; [by left|].
  unfold delete_timetable in H at 1.
  destruct (timetables d !! timetableId); injection H as _ <-; auto.
Qed.

Lemma addCourse_db (fault : nat → option sql_error)
    (courseCode courseName : string) (collegeId credits : Z) (d : db) :
  (addCourse fault courseCode courseName collegeId credits d).1.2 = d
  ∨ ∃ id row,
      (addCourse fault courseCode courseName collegeId credits d).1.2
      = set_courses d (<[id := row]> (courses d)).
Proof.
  unfold addCourse.
  destruct (with_pool_db fault InsertCourse
              (insert_course courseCode courseName collegeId credits)
              CourseAdded
              (λ e, match e with ER_DUP_ENTRY => CourseCodeExists
                            | _ => AdminFailed end) d) as [H|[a H]];
    [by left|].
  unfold insert_course in H at 1. repeat case_match; try done.
  injection H as _ <-. eauto.
Qed.

Lemma addTimetable_db (fault : nat → option sql_error) (courseId : Z)
    (dayOfWeek startTime endTime : string) (d : db) :
  (addTimetable fault courseId dayOfWeek startTime endTime d).1.2 = d
  ∨ ∃ day id,
      timetables d !! id = None
      ∧ (select_enrolled_students courseId d = []
         ∨ add_conflicts d courseId day startTime endTime = [])
      ∧ (addTimetable fault courseId dayOfWeek startTime endTime d).1.2
        = set_timetables d
            (<[id := TimetableRow courseId day startTime endTime]>
               (timetables d)).
Proof.
  destruct (weekday_of_name dayOfWeek) as [day|] eqn:Hday.
  2: { left. unfold addTimetable. by rewrite Hday. }
  destruct (js_ge startTime endTime) eqn:Hwf.
  { left. unfold addTimetable. by rewrite Hday, Hwf. }
  pose proof (addTimetable_outcome fault courseId dayOfWeek startTime endTime
                day d Hday Hwf) as Hout.
  destruct (addTimetable fault courseId dayOfWeek startTime endTime d)
    as [[res after] trace]. simpl in Hout |- *.
  inversion Hout; subst; auto.
  right. exists day, insertId.
  match goal with
  | H : insert_timetable _ _ _ _ _ = inr _ |- _ =>
      apply insert_timetable_inr in H as [? ->]
  end.
  auto.
Qed.

Lemma updateTimetable_db (fault : nat → option sql_error) (timetableId : Z)
    (updates : timetable_updates) (d : db) :
  (updateTimetable fault timetableId updates d).1.2 = d
  ∨ ∃ old day startTime endTime,
      timetables d !! timetableId = Some old
      ∧ update_conflicts d timetableId (tt_course_id old) day startTime endTime
        = []
      ∧ (updateTimetable fault timetableId updates d).1.2
        = set_timetables d
            (<[timetableId :=
                 TimetableRow (tt_course_id old) day startTime endTime]>
               (timetables d)).
Proof.
  destruct (update_day (upd_dayOfWeek updates)) as [new_day|] eqn:Hday.
  2: { left. unfold updateTimetable. by rewrite Hday. }
  pose proof (updateTimetable_outcome fault timetableId updates new_day d Hday)
    as Hout.
  destruct (updateTimetable fault timetableId updates d)
    as [[res after] trace]. simpl in Hout |- *.
  inversion Hout; subst; auto.
  right.
  match goal with
  | H : update_timetable _ _ _ _ _ = inr _ |- _ =>
      eapply update_timetable_inr in H; [|done]; subst
  end.
  eauto 10.
Qed.

(** *** Every operation *)

Lemma operation_referential (fault : nat → option sql_error) (op : operation)
    (d : db) :
  referential d → referential (run_operation fault op d).
Proof.
  intros Href. destruct op; unfold run_operation.
  - destruct (saveStudentCourses_db fault studentId courseIds d)
      as [->|(s & committed & Hpass & Hsub & ->)]; [done|].
    pose proof (enroll_referential d _ _ s Href (NoDup_distinct _) Hpass)
      as Hfull.
    intros sid c Hen.
    apply (enrolled_enroll_db_sublist _ _ _ _ _ _ Hsub) in Hen.
    exact (Hfull sid c Hen).
  - destruct (dropCourse_db fault studentId courseId d) as [->| ->]; [done|].
    intros sid c Hen. apply Href.
    unfold enrolled in *. simpl in Hen.
    by apply list_elem_of_filter in Hen as [_ ?].
  - destruct (addTimetable_db fault courseId dayOfWeek startTime endTime d)
      as [->|(day & id & _ & _ & ->)]; done.
  - destruct (updateTimetable_db fault timetableId updates d)
      as [->|(old & day & s & e & _ & _ & ->)]; done.
  - destruct (deleteTimetable_db fault timetableId d) as [->| ->]; done.
  - destruct (addCourse_db fault courseCode courseName collegeId credits d)
      as [->|(id & row & ->)]; [done|].
    intros sid c Hen.
    destruct (Href sid c Hen) as [Hst [co Hco]]. split; [done|]. simpl.
    destruct (decide (id = c)) as [<-|Hne].
    + rewrite lookup_insert_eq. eauto.
    + rewrite lookup_insert_ne by done. eauto.
Qed.

Lemma operation_keeps_schedules (cross_only : bool)
    (fault : nat → option sql_error) (op : operation) (d : db) :
  referential d →
  (cross_only = false → is_add_timetable op = false) →
  (∀ sid, if cross_only then cross_course_ok d sid else schedule_ok d sid) →
  ∀ sid, if cross_only then cross_course_ok (run_operation fault op d) sid
         else schedule_ok (run_operation fault op d) sid.
Proof.
  intros Href Hadd Hok sid.
  assert (Hshrink : ∀ d',
    (∀ id t, timetables d' !! id = Some t → timetables d !! id = Some t) →
    (∀ c, enrolled d' sid c → enrolled d sid c) →
    if cross_only then cross_course_ok d' sid else schedule_ok d' sid).
  { intros d' Hrows Hen. specialize (Hok sid). destruct cross_only.
    - by apply (cross_course_ok_shrink d d').
    - by apply (schedule_ok_shrink d d'). }
  destruct op; unfold run_operation.
  - destruct (saveStudentCourses_db fault studentId courseIds d)
      as [->|(s & committed & Hpass & Hsub & ->)]; [by apply Hok|].
    destruct (decide (sid = js_number_value studentId)) as [->|Hne].
    + pose proof (enroll_schedule_ok d _ _ s Href
                    (NoDup_distinct (js_elements courseIds)) Hpass) as Hnew.
      pose proof (λ c, enrolled_enroll_db_sublist d (js_number_value studentId)
                         committed _ (js_number_value studentId) c Hsub)
        as Hless.
      destruct cross_only.
      * apply schedule_ok_cross in Hnew.
        by eapply cross_course_ok_shrink; [|exact Hless|exact Hnew].
      * by eapply schedule_ok_shrink; [|exact Hless|exact Hnew].
    + apply Hshrink; [done|]. by apply enroll_other_student.
  - destruct (dropCourse_db fault studentId courseId d) as [->| ->];
      [by apply Hok|].
    apply Hshrink; [done|].
    intros c Hen. unfold enrolled in *. simpl in Hen.
    by apply list_elem_of_filter in Hen as [_ ?].
  - destruct cross_only; [|by specialize (Hadd eq_refl)].
    destruct (addTimetable_db fault courseId dayOfWeek startTime endTime d)
      as [->|(day & id & Hfresh & Hno & ->)]; [by apply Hok|].
    apply add_cross_course_ok; try done.
  - destruct (updateTimetable_db fault timetableId updates d)
      as [->|(old & day & s & e & Hold & Hnil & ->)]; [by apply Hok|].
    apply (update_schedule_ok cross_only d timetableId old day s e sid);
      try done. apply Hok.
  - destruct (deleteTimetable_db fault timetableId d) as [->| ->];
      [by apply Hok|].
    apply Hshrink; [|done]. simpl. intros id t.
    by intros [_ ?]%lookup_delete_Some.
  - destruct (addCourse_db fault courseCode courseName collegeId credits d)
      as [->|(id & row & ->)]; [by apply Hok|].
    by apply Hshrink.
Qed.

(** *** The inserts go through once the guards have passed *)

Lemma trigger_clash_count_zero (d : db) (studentId : Z) (ids : list Z)
    (s : student_row) (inserted : list Z) (courseId : Z) (rest : list Z) :
  referential d → NoDup ids → guards_pass d studentId ids s →
  ids = inserted ++ courseId :: rest →
  trigger_clash_count (enroll_db d studentId inserted) studentId courseId
  = 0%nat.
Proof.
  intros Href Hnd Hpass Hids.
  pose proof Hpass as (Hs & Hlen & _ & _ & Hcombined & Halready).
  assert (Hno : no_two_overlap
                  (select_existing_enrollments studentId d
                   ++ select_timetables ids d)).
  { apply check_success_iff. by rewrite Hcombined. }
  assert (Hin : courseId ∈ ids).
  { rewrite Hids. apply elem_of_app. right. left. }
  destruct (found_course d ids courseId Hnd Hlen Hin) as [c Hc].
  unfold trigger_clash_count.
  match goal with |- length ?l = _ => assert (l = []) as ->; [|done] end.
  apply elem_of_nil_inv. intros [[id1 t1] [id2 t2]] Hx.
  apply list_elem_of_bind in Hx as ([sid c1] & Hx & Hsc). simpl in Hx.
  destruct (decide (sid = studentId)) as [->|];
    [|by apply not_elem_of_nil in Hx].
  apply list_elem_of_bind in Hx as ([id1' t1'] & Hx & H1).
  apply list_elem_of_bind in Hx as ([id2' t2'] & Hx & H2).
  destruct (_ && _) eqn:Hcond; [|by apply not_elem_of_nil in Hx].
  apply list_elem_of_singleton in Hx. injection Hx as -> -> -> ->.
  apply andb_true_iff in Hcond as [Hday%bool_decide_eq_true Hov].
  apply list_elem_of_filter in H1 as [Hc1 H1%elem_of_map_to_list].
  apply list_elem_of_filter in H2 as [Hc2 H2%elem_of_map_to_list].
  simpl in Hc1, Hc2, H1, H2, Hday, Hov.
  apply (enrolled_enroll_db d studentId inserted studentId c1) in Hsc.
  assert (Hinserted : c1 ∈ inserted → c1 ∈ ids).
  { intros ?. rewrite Hids. apply elem_of_app. by left. }
  assert (∃ co, slot_of id1' t1' co
                ∈ select_existing_enrollments studentId d
                  ++ select_timetables ids d) as [co1 Hslot1].
  { destruct Hsc as [Hen|[_ Hin1]].
    - destruct (Href _ _ Hen) as [_ [co Hco]]. exists co.
      apply elem_of_app. left. apply elem_of_select_existing.
      exists id1', t1', co. rewrite Hc1. done.
    - destruct (found_course d ids c1 Hnd Hlen (Hinserted Hin1)) as [co Hco].
      exists co. apply elem_of_app. right. apply elem_of_select_timetables.
      exists id1', t1', co. rewrite Hc1. auto. }
  assert (slot_of id2' t2' c
          ∈ select_existing_enrollments studentId d ++ select_timetables ids d)
    as Hslot2.
  { apply elem_of_app. right. apply elem_of_select_timetables.
    exists id2', t2', c. rewrite Hc2. auto. }
  assert (Hne : id1' ≠ id2').
  { intros ->. assert (t1' = t2') as -> by congruence.
    rewrite Hc2 in Hc1. subst c1.
    destruct Hsc as [Hen|[_ Hin1]].
    - pose proof (already_enrolled_named d studentId courseId ids c Hen Hin Hc)
        as Hnamed.
      rewrite Halready in Hnamed. by apply not_elem_of_nil in Hnamed.
    - rewrite Hids in Hnd. apply NoDup_app in Hnd as (_ & Hdisjoint & _).
      apply (Hdisjoint courseId Hin1). left. }
  assert (slots_overlap (slot_of id1' t1' co1) (slot_of id2' t2' c) = false)
    as Hfree.
  { apply (no_two_overlap_elem_of _ _ _ Hno Hslot1 Hslot2); [|done].
    unfold slot_of. congruence. }
  unfold slots_overlap, slot_of in Hfree. simpl in Hfree.
  unfold sql_overlap, sql_time_lt in Hov.
  unfold timeSlotsOverlap, js_lt, js_gt in Hfree. congruence.
Qed.

Lemma insert_enrollment_succeeds (d : db) (studentId : Z) (ids : list Z)
    (s : student_row) (inserted : list Z) (courseId : Z) (rest : list Z) :
  referential d → NoDup ids → guards_pass d studentId ids s →
  ids = inserted ++ courseId :: rest →
  insert_enrollment studentId courseId (enroll_db d studentId inserted)
  = inr ((), enroll_db d studentId (inserted ++ [courseId])).
Proof.
  intros Href Hnd Hpass Hids.
  pose proof (trigger_clash_count_zero d studentId ids s inserted courseId rest
                Href Hnd Hpass Hids) as Htrigger.
  destruct Hpass as (Hs & Hlen & Hforeign & _ & _ & Halready).
  assert (Hin : courseId ∈ ids).
  { rewrite Hids. apply elem_of_app. right. left. }
  destruct (found_course d ids courseId Hnd Hlen Hin) as [c Hc].
  unfold insert_enrollment. rewrite Htrigger. simpl. rewrite Hs, Hc.
  rewrite bool_decide_eq_false_2.
  2: { intros Hcollege.
       assert ((courseId, c) ∈ foreign_courses d (st_college_id s) ids) as Hf
         by (apply elem_of_foreign_courses; auto).
       rewrite Hforeign in Hf. by apply not_elem_of_nil in Hf. }
  rewrite bool_decide_eq_false_2 by (by intros [?|?]).
  rewrite bool_decide_eq_false_2.
  2: { intros [Hen|Hdup]%elem_of_app.
       - pose proof (already_enrolled_named d studentId courseId ids c Hen Hin
                       Hc) as Hnamed.
         rewrite Halready in Hnamed. by apply not_elem_of_nil in Hnamed.
       - apply list_elem_of_fmap in Hdup as (x & [= <-] & Hx).
         rewrite Hids in Hnd. apply NoDup_app in Hnd as (_ & Hdisjoint & _).
         apply (Hdisjoint courseId Hx). left. }
  unfold enroll_db, set_student_courses, enrollment_rows. simpl.
  by rewrite fmap_app, app_assoc.
Qed.

(** With storage answering every statement and the enrollments referring to
    existing rows, a request that passes the six guards is carried out. *)
Lemma saveStudentCourses_enrolls_when_guards_pass (studentId : Z)
    (ids : list Z) (d : db) (s : student_row) :
  studentId ≠ 0 → ids ≠ [] → referential d →
  guards_pass d studentId (distinct ids) s →
  (saveStudentCourses no_fault (JsNumber studentId) (JsArray ids) d).1
  = (EnrollSuccess studentId
       ((λ c, (c.1, co_code c.2, co_name c.2))
          <$> select_courses (distinct ids) d),
     enroll_db d studentId (distinct ids)).
Proof.
  intros Hsid Hids Href Hpass.
  pose proof (saveStudentCourses_outcome no_fault studentId ids d Hsid Hids)
    as Hout.
  destruct (saveStudentCourses no_fault (JsNumber studentId) (JsArray ids) d)
    as [[res after] trace]. simpl in *.
  pose proof Hpass as (Hs & Hlen & Hforeign & Hint & Hext & Halready).
  inversion Hout; subst; try done; try congruence.
  match goal with
  | H : insert_enrollment _ _ _ = inl _, Heq : distinct ids = _ |- _ =>
      rewrite (insert_enrollment_succeeds _ studentId (distinct ids) s _ _ _
                 Href (NoDup_distinct ids) Hpass Heq) in H
  end.
  done.
Qed.

(** *** Rejections name the student and the slot *)

Lemma conflict_row_selected (courseId : Z) (day : weekday)
    (startTime endTime : string) (keep : Z → Z → bool) (d : db)
    (sid id : Z) (t : timetable_row) :
  referential d →
  enrolled d sid courseId → enrolled d sid (tt_course_id t) →
  timetables d !! id = Some t → tt_day_of_week t = day →
  keep (tt_course_id t) id = true →
  timeSlotsOverlap (tt_start_time t) (tt_end_time t) startTime endTime = true →
  ∃ st c,
    students d !! sid = Some st ∧ courses d !! tt_course_id t = Some c
    ∧ ConflictRow sid (st_name st) (co_code c) (tt_day_of_week t)
        (tt_start_time t) (tt_end_time t)
      ∈ select_conflicts courseId day startTime endTime keep d.
Proof.
  intros Href Hen1 Hen2 Ht Hday Hkeep Hov.
  destruct (Href _ _ Hen1) as [[st Hst] _].
  destruct (Href _ _ Hen2) as [_ [c Hc]].
  apply andb_true_iff in Hov as [Hlt1 Hlt2].
  exists st, c. split; [done|]. split; [done|].
  apply elem_of_select_conflicts. exists sid, st, id, t, c. by repeat split.
Qed.

Lemma addTimetable_rejects (fault : nat → option sql_error) (d : db)
    (courseId : Z) (dayOfWeek startTime endTime : string) (day : weekday)
    (sid id : Z) (t : timetable_row) :
  referential d → (∀ n, fault n = None) →
  weekday_of_name dayOfWeek = Some day → js_ge startTime endTime = false →
  enrolled d sid courseId → enrolled d sid (tt_course_id t) →
  tt_course_id t ≠ courseId →
  timetables d !! id = Some t → tt_day_of_week t = day →
  timeSlotsOverlap (tt_start_time t) (tt_end_time t) startTime endTime = true →
  ∃ st c,
    students d !! sid = Some st ∧ courses d !! tt_course_id t = Some c
    ∧ ConflictRow sid (st_name st) (co_code c) (tt_day_of_week t)
        (tt_start_time t) (tt_end_time t)
      ∈ add_conflicts d courseId day startTime endTime
    ∧ (addTimetable fault courseId dayOfWeek startTime endTime d).1
      = (Conflicts (add_conflicts d courseId day startTime endTime), d).
Proof.
  intros Href Hnofault Hday Hwf Hen1 Hen2 Hne Ht Htday Hov.
  destruct (conflict_row_selected courseId day startTime endTime
              (λ course _, bool_decide (course ≠ courseId)) d sid id t)
    as (st & c & Hst & Hc & Hrow); try done.
  { by apply bool_decide_eq_true_2. }
  exists st, c. split; [done|]. split; [done|]. split; [done|].
  pose proof (elem_of_select_enrolled_students courseId d sid st Hen1 Hst)
    as Hstudent.
  pose proof (addTimetable_outcome fault courseId dayOfWeek startTime endTime
                day d Hday Hwf) as Hout.
  destruct (addTimetable fault courseId dayOfWeek startTime endTime d)
    as [[res after] trace]. simpl in Hout |- *.
  assert (Hsome : add_conflicts d courseId day startTime endTime ≠ []).
  { intros Hnil. unfold add_conflicts in Hnil. rewrite Hnil in Hrow.
    by apply not_elem_of_nil in Hrow. }
  assert (Hsome' : select_enrolled_students courseId d ≠ []).
  { intros Hnil. rewrite Hnil in Hstudent. by apply not_elem_of_nil in Hstudent. }
  destruct (Href _ _ Hen1) as [_ [course Hcourse]].
  inversion Hout; subst; try done; try tauto; congruence.
Qed.

Lemma updateTimetable_rejects (fault : nat → option sql_error) (d : db)
    (timetableId : Z) (updates : timetable_updates)
    (new_day : weekday → weekday) (old : timetable_row)
    (sid id : Z) (t : timetable_row) :
  let day := new_day (tt_day_of_week old) in
  let startTime := js_or_field (upd_startTime updates) (tt_start_time old) in
  let endTime := js_or_field (upd_endTime updates) (tt_end_time old) in
  referential d → (∀ n, fault n = None) →
  update_day (upd_dayOfWeek updates) = Some new_day →
  timetables d !! timetableId = Some old →
  js_ge startTime endTime = false →
  enrolled d sid (tt_course_id old) → enrolled d sid (tt_course_id t) →
  id ≠ timetableId →
  timetables d !! id = Some t → tt_day_of_week t = day →
  timeSlotsOverlap (tt_start_time t) (tt_end_time t) startTime endTime = true →
  ∃ st c,
    students d !! sid = Some st ∧ courses d !! tt_course_id t = Some c
    ∧ ConflictRow sid (st_name st) (co_code c) (tt_day_of_week t)
        (tt_start_time t) (tt_end_time t)
      ∈ update_conflicts d timetableId (tt_course_id old) day startTime endTime
    ∧ (updateTimetable fault timetableId updates d).1
      = (Conflicts (update_conflicts d timetableId (tt_course_id old) day
                      startTime endTime), d).
Proof.
  intros day startTime endTime Href Hnofault Hday Hold Hwf Hen1 Hen2 Hne Ht
    Htday Hov.
  destruct (conflict_row_selected (tt_course_id old) day startTime endTime
              (λ _ tid, bool_decide (tid ≠ timetableId)) d sid id t)
    as (st & c & Hst & Hc & Hrow); try done.
  { by apply bool_decide_eq_true_2. }
  exists st, c. split; [done|]. split; [done|]. split; [done|].
  pose proof (updateTimetable_outcome fault timetableId updates new_day d Hday)
    as Hout.
  destruct (updateTimetable fault timetableId updates d)
    as [[res after] trace]. simpl in Hout |- *.
  assert (Hsome : update_conflicts d timetableId (tt_course_id old) day
                    startTime endTime ≠ []).
  { intros Hnil. unfold update_conflicts in Hnil. rewrite Hnil in Hrow.
    by apply not_elem_of_nil in Hrow. }
  subst day startTime endTime.
  inversion Hout; subst; simplify_eq; try done; congruence.
Qed.

(** *** Times stay HH:MM:SS strings *)

Lemma js_or_field_well_formed (field : option string) (existing : string) :
  field_well_formed field → time_well_formed existing →
  time_well_formed (js_or_field field existing).
Proof.
  destruct field as [[|a s]|]; simpl; [done| |done].
  by intros [?|?].
Qed.

Lemma times_well_formed_insert (d : db) (id : Z) (t : timetable_row) :
  times_well_formed d → row_times_well_formed t →
  times_well_formed (set_timetables d (<[id := t]> (timetables d))).
Proof.
  unfold times_well_formed. simpl. intros Hd Ht.
  by apply map_Forall_insert_2.
Qed.

Lemma operation_keeps_times_well_formed (fault : nat → option sql_error)
    (op : operation) (d : db) :
  operation_times_well_formed op → times_well_formed d →
  times_well_formed (run_operation fault op d).
Proof.
  intros Hop Hd. destruct op; unfold run_operation.
  - destruct (saveStudentCourses_db fault studentId courseIds d)
      as [->|(s & committed & _ & _ & ->)]; done.
  - destruct (dropCourse_db fault studentId courseId d) as [->| ->]; done.
  - destruct (addTimetable_db fault courseId dayOfWeek startTime endTime d)
      as [->|(day & id & _ & _ & ->)]; [done|].
    by apply times_well_formed_insert.
  - destruct Hop as [Hstart Hend].
    destruct (update_day (upd_dayOfWeek updates)) as [new_day|] eqn:Hday.
    2: { unfold updateTimetable. by rewrite Hday. }
    pose proof (updateTimetable_outcome fault timetableId updates new_day d
                  Hday) as Hout.
    destruct (updateTimetable fault timetableId updates d)
      as [[res after] trace]. simpl in Hout |- *.
    inversion Hout; subst; try done.
    match goal with
    | H : update_timetable _ _ _ _ _ = inr _ |- _ =>
        eapply update_timetable_inr in H; [|done]; subst
    end.
    match goal with
    | H : timetables d !! timetableId = Some ?old |- _ =>
        destruct (Hd timetableId old H) as [Hs He]
    end.
    apply times_well_formed_insert; [done|].
    split; simpl; by apply js_or_field_well_formed.
  - destruct (deleteTimetable_db fault timetableId d) as [->| ->]; [done|].
    unfold times_well_formed. simpl. by apply map_Forall_delete.
  - destruct (addCourse_db fault courseCode courseName collegeId credits d)
      as [->|(id & row & ->)]; done.
Qed.

(** C5 (as amended). Take tables whose enrollments refer to existing
    students and courses and whose slot times are HH:MM:SS strings, and
    operations whose times are HH:MM:SS strings. Every operation that
    writes keeps the tables so, whatever storage failures it meets, and
    - every operation other than [addTimetable] keeps every student's
      schedule free of two same-weekday slots with overlapping intervals;
    - every operation, [addTimetable] included, keeps every student's
      schedule free of such a pair in two different courses: [addTimetable]
      compares the candidate with the slots of the other courses of the
      enrolled students only, not with the slots of the course itself;
    - with storage answering every statement, [addTimetable] rejects a
      well-formed candidate that overlaps a same-weekday slot of another
      course of a student enrolled in the course, and [updateTimetable]
      rejects a well-formed candidate that overlaps any other same-weekday
      slot of a course of such a student; the rejection lists a row with the
      student, the course code and the slot, and the tables stay as they
      were.
    The operations that only read send no statement that writes and are not
    listed among the operations. *)
Theorem schedule_invariant_preserved
    (fault : nat → option sql_error) (d : db) :
  referential d → times_well_formed d →
  (∀ op : operation,
     operation_times_well_formed op →
     referential (run_operation fault op d)
     ∧ times_well_formed (run_operation fault op d)
     ∧ (is_add_timetable op = false →
        (∀ sid, schedule_ok d sid) →
        ∀ sid, schedule_ok (run_operation fault op d) sid)
     ∧ ((∀ sid, cross_course_ok d sid) →
        ∀ sid, cross_course_ok (run_operation fault op d) sid))
  ∧ (∀ (courseId : Z) (dayOfWeek startTime endTime : string) (day : weekday)
       (sid id : Z) (t : timetable_row),
       (∀ n, fault n = None) →
       time_well_formed startTime → time_well_formed endTime →
       weekday_of_name dayOfWeek = Some day →
       js_ge startTime endTime = false →
       enrolled d sid courseId → enrolled d sid (tt_course_id t) →
       tt_course_id t ≠ courseId →
       timetables d !! id = Some t → tt_day_of_week t = day →
       timeSlotsOverlap (tt_start_time t) (tt_end_time t) startTime endTime
       = true →
       ∃ st c,
         students d !! sid = Some st ∧ courses d !! tt_course_id t = Some c
         ∧ ConflictRow sid (st_name st) (co_code c) (tt_day_of_week t)
             (tt_start_time t) (tt_end_time t)
           ∈ add_conflicts d courseId day startTime endTime
         ∧ (addTimetable fault courseId dayOfWeek startTime endTime d).1
           = (Conflicts (add_conflicts d courseId day startTime endTime), d))
  ∧ (∀ (timetableId : Z) (updates : timetable_updates)
       (new_day : weekday → weekday) (old : timetable_row)
       (sid id : Z) (t : timetable_row),
       let day := new_day (tt_day_of_week old) in
       let startTime :=
         js_or_field (upd_startTime updates) (tt_start_time old) in
       let endTime := js_or_field (upd_endTime updates) (tt_end_time old) in
       (∀ n, fault n = None) →
       field_well_formed (upd_startTime updates) →
       field_well_formed (upd_endTime updates) →
       update_day (upd_dayOfWeek updates) = Some new_day →
       timetables d !! timetableId = Some old →
       js_ge startTime endTime = false →
       enrolled d sid (tt_course_id old) → enrolled d sid (tt_course_id t) →
       id ≠ timetableId →
       timetables d !! id = Some t → tt_day_of_week t = day →
       timeSlotsOverlap (tt_start_time t) (tt_end_time t) startTime endTime
       = true →
       ∃ st c,
         students d !! sid = Some st ∧ courses d !! tt_course_id t = Some c
         ∧ ConflictRow sid (st_name st) (co_code c) (tt_day_of_week t)
             (tt_start_time t) (tt_end_time t)
           ∈ update_conflicts d timetableId (tt_course_id old) day startTime
               endTime
         ∧ (updateTimetable fault timetableId updates d).1
           = (Conflicts (update_conflicts d timetableId (tt_course_id old) day
                           startTime endTime), d)).
Proof.
  intros Href Htimes. split; [|split].
  - intros op Hop. split; [by apply operation_referential|].
    split; [by apply operation_keeps_times_well_formed|]. split.
    + intros Hadd Hok.
      by apply (operation_keeps_schedules false fault op d).
    + intros Hok. by apply (operation_keeps_schedules true fault op d).
  - intros. by eapply addTimetable_rejects.
  - intros. by eapply updateTimetable_rejects.
Qed.

Lemma schedule_invariant_preserved_witness :
  (∀ sid, schedule_ok
            (run_operation no_fault
               (OpEnroll (JsNumber 1) (JsArray [2])) enrolled_db) sid)
  ∧ (∀ sid, cross_course_ok
              (run_operation no_fault
                 (OpAddTimetable 1 "Monday" "09:30:00" "10:30:00")
                 enrolled_db) sid)
  ∧ times_well_formed
      (run_operation no_fault
         (OpAddTimetable 1 "Monday" "09:30:00" "10:30:00") enrolled_db)
  ∧ (addTimetable no_fault 1 "Wednesday" "09:30:00" "10:30:00" enrolled_db).1
    = (Conflicts [ConflictRow 1 "John Doe" "CS201" Wednesday "10:00:00"
                    "12:00:00"], enrolled_db).
Proof.
  destruct (schedule_invariant_preserved no_fault enrolled_db)
    as (Hops & Hadd & _).
  { apply referentialb_sound. reflexivity. }
  { apply (bool_decide_unpack _). vm_compute. reflexivity. }
  assert (Hnine : time_well_formed "09:30:00")
    by (apply (bool_decide_unpack _); reflexivity).
  assert (Hten : time_well_formed "10:30:00")
    by (apply (bool_decide_unpack _); reflexivity).
  split; [|split; [|split]].
  - apply (Hops (OpEnroll (JsNumber 1) (JsArray [2]))); [done|reflexivity|].
    apply (all_schedules_okb_sound false). reflexivity.
  - apply (Hops (OpAddTimetable 1 "Monday" "09:30:00" "10:30:00")); [done|].
    apply (all_schedules_okb_sound true). reflexivity.
  - by apply (Hops (OpAddTimetable 1 "Monday" "09:30:00" "10:30:00")).
  - destruct (Hadd 1 "Wednesday" "09:30:00" "10:30:00" Wednesday 1 7
                (TimetableRow 4 Wednesday "10:00:00" "12:00:00"))
      as (st & c & _ & _ & _ & Hres);
      [done | done | done | reflexivity | reflexivity | by left
       | by right; left | done | reflexivity | reflexivity | reflexivity |].
    exact Hres.
Defined.

(** C5 as the specification words it does not hold for [addTimetable]: a
    slot added to a course may overlap a slot the course already has, and
    then every student enrolled in the course holds two overlapping slots. *)
Lemma addTimetable_overlaps_slot_of_same_course :
  referential enrolled_db
  ∧ (∀ sid, schedule_ok enrolled_db sid)
  ∧ (addTimetable no_fault 1 "Monday" "09:30:00" "10:30:00" enrolled_db).1.1
    = TimetableAdded 10 1 Monday "09:30:00" "10:30:00"
  ∧ ¬ schedule_ok
        (run_operation no_fault
           (OpAddTimetable 1 "Monday" "09:30:00" "10:30:00") enrolled_db) 1.
Proof.
  split; [apply referentialb_sound; reflexivity|].
  split; [apply (all_schedules_okb_sound false); reflexivity|].
  split; [reflexivity|].
  intros Hok.
  specialize (Hok 1 10 (TimetableRow 1 Monday "09:00:00" "10:00:00")
                (TimetableRow 1 Monday "09:30:00" "10:30:00")).
  discriminate Hok; try reflexivity; try done; by left.
Qed.

(** The guard queries join [courses] and the clash trigger does not: on
    tables where an enrollment outlived its course row the guards pass, the
    first INSERT goes through, the trigger rejects the second, and the
    rollback leaves nothing behind. *)
Example saveStudentCourses_trigger_rejects_midway :
  saveStudentCourses no_fault (JsNumber 1) (JsArray [4; 1]) orphan_db
  = (EnrollConstraintViolation
       "Timetable clash detected with existing course enrollment",
     orphan_db,
     [EvGetConnection; EvBegin; EvQuery SelectStudent; EvQuery SelectCourses;
      EvQuery SelectTimetables; EvQuery SelectExistingEnrollments;
      EvQuery SelectAlreadyEnrolled; EvQuery (InsertEnrollment 4);
      EvQuery (InsertEnrollment 1); EvRollback; EvRelease]).
Proof. reflexivity. Qed.

(** *** Histories *)

(** Whatever is run, in whatever order and with whatever storage failures,
    enrollments keep referring to existing rows and no student ever holds
    two overlapping same-weekday slots of two different courses. *)
Lemma history_keeps_cross_course_schedules
    (steps : list ((nat → option sql_error) * operation)) (d : db) :
  referential d → (∀ sid, cross_course_ok d sid) →
  referential (run_history steps d)
  ∧ ∀ sid, cross_course_ok (run_history steps d) sid.
Proof.
  revert d. induction steps as [|[fault op] steps IH]; intros d Href Hok.
  - done.
  - simpl. apply IH.
    + by apply operation_referential.
    + by apply (operation_keeps_schedules true fault op d).
Qed.

(** Without [addTimetable] in the history, no student ever holds two
    overlapping same-weekday slots at all. *)
Lemma history_keeps_schedules
    (steps : list ((nat → option sql_error) * operation)) (d : db) :
  Forall (λ step, is_add_timetable step.2 = false) steps →
  referential d → (∀ sid, schedule_ok d sid) →
  referential (run_history steps d)
  ∧ ∀ sid, schedule_ok (run_history steps d) sid.
Proof.
  revert d. induction steps as [|[fault op] steps IH]; intros d Hsteps Href Hok.
  - done.
  - apply Forall_cons in Hsteps as [Hop Hsteps]. simpl. apply IH; [done|..].
    + by apply operation_referential.
    + by apply (operation_keeps_schedules false fault op d).
Qed.

Example sample_db_schedules :
  referential sample_db ∧ ∀ sid, schedule_ok sample_db sid.
Proof.
  split; [apply referentialb_sound; reflexivity|].
  apply (all_schedules_okb_sound false). reflexivity.
Qed.

(** ** The conflict checker on rearranged, shortened and extended inputs *)

Lemma no_two_overlap_cons (a : slot) (ts : list slot) :
  no_two_overlap (a :: ts)
  ↔ Forall (λ b, day_of_week a = day_of_week b → slots_overlap a b = false) ts
    ∧ no_two_overlap ts.
Proof.
  unfold no_two_overlap. split.
  - intros Hall. split.
    + apply Forall_forall. intros b Hb Hday.
      apply list_elem_of_lookup in Hb as [j Hj].
      exact (Hall 0%nat (S j) a b ltac:(lia) eq_refl Hj Hday).
    + intros i j x y Hij Hi Hj. exact (Hall (S i) (S j) x y ltac:(lia) Hi Hj).
  - intros [Hhead Htail] i j x y Hij Hi Hj Hday.
    rewrite Forall_forall in Hhead.
    destruct i as [|i], j as [|j]; simpl in Hi, Hj; simplify_eq.
    + apply (Hhead y); [by eapply list_elem_of_lookup_2|done].
    + fold (slots_overlap x y). rewrite slots_overlap_sym.
      apply (Hhead x); [by eapply list_elem_of_lookup_2|done].
    + apply (Htail i j); auto.
Qed.

Lemma no_two_overlap_submseteq (ts ts' : list slot) :
  ts' ⊆+ ts → no_two_overlap ts → no_two_overlap ts'.
Proof.
  induction 1 as [|x l1 l2 Hsub IH|x y l|x l1 l2 Hsub IH|l1 l2 l3 _ IH1 _ IH2].
  - done.
  - rewrite !no_two_overlap_cons. intros [Hhead Htail]. split; [|by auto].
    rewrite !Forall_forall in *. intros b Hb.
    apply Hhead. by eapply elem_of_submseteq.
  - rewrite !no_two_overlap_cons, !Forall_cons.
    intros [[Hyx Hy] [Hx Hrest]]. repeat split; try done.
    intros Hday. rewrite slots_overlap_sym. by apply Hyx.
  - rewrite no_two_overlap_cons. intros [_ Htail]. by apply IH.
  - auto.
Qed.

Lemma clash_success_true (ts : list slot) :
  clash_success (checkTimetableClashes ts) = true
  ↔ checkTimetableClashes ts = ClashFree.
Proof. destruct (checkTimetableClashes ts); simpl; split; congruence. Qed.

(** X1. Whether [checkTimetableClashes] succeeds does not depend on the
    order of its input: on two sequences holding the same slots the same
    number of times it succeeds on both or fails on both (the order only
    decides which pair a failure names). *)
Theorem checkTimetableClashes_order_irrelevant (ts ts' : list slot) :
  ts ≡ₚ ts' →
  clash_success (checkTimetableClashes ts)
  = clash_success (checkTimetableClashes ts').
Proof.
  intros Hperm. apply eq_true_iff_eq. rewrite !check_success_iff. split.
  - apply no_two_overlap_submseteq. by rewrite Hperm.
  - apply no_two_overlap_submseteq. by rewrite Hperm.
Qed.

Lemma checkTimetableClashes_order_irrelevant_witness :
  clash_success
    (checkTimetableClashes
       [monday_nine_to_ten; tuesday_ten_cs101; tuesday_ten_ap105])
  = clash_success
      (checkTimetableClashes
         [tuesday_ten_ap105; monday_nine_to_ten; tuesday_ten_cs101]).
Proof.
  apply (checkTimetableClashes_order_irrelevant
           [monday_nine_to_ten; tuesday_ten_cs101; tuesday_ten_ap105]
           [tuesday_ten_ap105; monday_nine_to_ten; tuesday_ten_cs101]).
  symmetry. apply (Permutation_cons_append [_; _]).
Defined.

(** X2. Leaving slots out never creates a clash: if [checkTimetableClashes]
    succeeds on a sequence, it succeeds on every subsequence of it. *)
Theorem checkTimetableClashes_subsequence (ts ts' : list slot) :
  sublist ts' ts →
  checkTimetableClashes ts = ClashFree →
  checkTimetableClashes ts' = ClashFree.
Proof.
  intros Hsub. rewrite <- !clash_success_true, !check_success_iff.
  apply no_two_overlap_submseteq. by apply sublist_submseteq.
Qed.

Lemma checkTimetableClashes_subsequence_witness :
  checkTimetableClashes [monday_nine_to_ten; tuesday_ten_cs101] = ClashFree.
Proof.
  apply (checkTimetableClashes_subsequence
           [monday_nine_to_ten; monday_ten_to_eleven; tuesday_ten_cs101]).
  - apply sublist_skip, sublist_cons, sublist_skip, sublist_nil.
  - reflexivity.
Defined.

Lemma check_loop_found_app (ts more : list slot) :
  ∀ m r, check_loop ts m = ClashFound r →
         check_loop (ts ++ more) m = ClashFound r.
Proof.
  induction ts as [|s ts IH]; intros m r; simpl; [done|].
  destruct (scan_bucket _ s _); [done|]. apply IH.
Qed.

Lemma check_loop_free_app (ts : list slot) :
  ∀ m seen, buckets_hold m seen → check_loop ts m = ClashFree →
    ∃ m', buckets_hold m' (seen ++ ts)
          ∧ ∀ more, check_loop (ts ++ more) m = check_loop more m'.
Proof.
  induction ts as [|s ts IH]; intros m seen Hm; simpl.
  - intros _. exists m. by rewrite app_nil_r.
  - destruct (scan_bucket _ s _); [done|]. intros Hfree.
    destruct (IH _ _ (buckets_hold_push _ _ s Hm) Hfree) as (m' & Hm' & Happ).
    exists m'. by rewrite <- app_assoc in Hm'.
Qed.

(** X3. [checkTimetableClashes] reads its input from the front and stops at
    the first clash: a clash found in a sequence is the clash reported for
    every sequence that starts with it; and when a sequence passes, one more
    slot put after it is checked against the slots of its weekday in the
    sequence, in their order, the first one it overlaps being reported. *)
Theorem checkTimetableClashes_extended (ts : list slot) :
  (∀ r more, checkTimetableClashes ts = ClashFound r →
             checkTimetableClashes (ts ++ more) = ClashFound r)
  ∧ (∀ s, checkTimetableClashes ts = ClashFree →
          checkTimetableClashes (ts ++ [s])
          = match scan_bucket (day_of_week s) s (filter (same_day s) ts) with
            | Some r => ClashFound r
            | None => ClashFree
            end).
Proof.
  split.
  - intros r more. apply check_loop_found_app.
  - intros s Hfree.
    destruct (check_loop_free_app ts ∅ [] buckets_hold_empty Hfree)
      as (m' & Hm' & Happ).
    unfold checkTimetableClashes. rewrite Happ. simpl.
    rewrite (Hm' (day_of_week s)). simpl.
    by destruct (scan_bucket _ s _).
Qed.

Lemma checkTimetableClashes_extended_witness :
  checkTimetableClashes
    ([monday_nine_to_ten; tuesday_ten_cs101; tuesday_ten_ap105]
     ++ [monday_ten_to_eleven])
  = ClashFound (ClashReport Tuesday tuesday_ten_ap105 tuesday_ten_cs101)
  ∧ checkTimetableClashes
      ([monday_nine_to_ten; tuesday_ten_cs101] ++ [monday_nine_to_ten_again])
    = ClashFound
        (ClashReport Monday monday_nine_to_ten_again monday_nine_to_ten).
Proof.
  split.
  - apply (proj1 (checkTimetableClashes_extended
                    [monday_nine_to_ten; tuesday_ten_cs101; tuesday_ten_ap105])).
    reflexivity.
  - rewrite (proj2 (checkTimetableClashes_extended
                      [monday_nine_to_ten; tuesday_ten_cs101])
                   monday_nine_to_ten_again); reflexivity.
Defined.

(** X4. On well-formed intervals of HH:MM:SS times the overlap test is the
    half-open one: [timeSlotsOverlap] holds exactly when some instant lies in
    both intervals, each taken from its start (included) to its end
    (excluded). *)
Theorem timeSlotsOverlap_iff_common_instant
    (start1 end1 start2 end2 : string) (s1 e1 s2 e2 : N) :
  time_of_string start1 = Some s1 → time_of_string end1 = Some e1 →
  time_of_string start2 = Some s2 → time_of_string end2 = Some e2 →
  (s1 < e1)%N → (s2 < e2)%N →
  timeSlotsOverlap start1 end1 start2 end2 = true
  ↔ ∃ t : N, (s1 ≤ t < e1)%N ∧ (s2 ≤ t < e2)%N.
Proof.
  intros H1 H2 H3 H4 Hwf1 Hwf2. unfold timeSlotsOverlap, js_gt.
  fold (js_lt start2 end1).
  rewrite (hhmmss_js_lt _ _ _ _ H1 H4), (hhmmss_js_lt _ _ _ _ H3 H2).
  rewrite andb_true_iff, !N.ltb_lt. split.
  - intros [Ha Hb]. exists (N.max s1 s2). lia.
  - intros (t & Ha & Hb). lia.
Qed.

Lemma timeSlotsOverlap_iff_common_instant_witness :
  timeSlotsOverlap "09:00:00" "10:00:00" "09:30:00" "10:30:00" = true
  ↔ ∃ t : N, (32400 ≤ t < 36000)%N ∧ (34200 ≤ t < 37800)%N.
Proof.
  apply (timeSlotsOverlap_iff_common_instant
           "09:00:00" "10:00:00" "09:30:00" "10:30:00");
    [reflexivity | reflexivity | reflexivity | reflexivity | lia | lia].
Defined.

(** ** Requests with repeated or reordered course identifiers *)

Lemma distinct_NoDup_id {A} `{EqDecision A} (l : list A) :
  NoDup l → distinct l = l.
Proof.
  induction 1 as [|x l Hx _ IH]; simpl; [done|]. rewrite IH. f_equal.
  clear IH. induction l as [|y l IH]; [done|].
  apply not_elem_of_cons in Hx as [Hxy Hx].
  rewrite filter_cons_True by done. by rewrite IH.
Qed.

Lemma distinct_idemp {A} `{EqDecision A} (l : list A) :
  distinct (distinct l) = distinct l.
Proof. apply distinct_NoDup_id, NoDup_distinct. Qed.

(** X5. Repeating a course identifier in the request changes nothing:
    [saveStudentCourses] gives the same result, the same tables and the same
    storage interactions as on the request with every identifier kept once,
    at its first position. *)
Theorem saveStudentCourses_ignores_duplicates
    (fault : nat → option sql_error) (studentId : js_value) (ids : list Z)
    (d : db) :
  saveStudentCourses fault studentId (JsArray ids) d
  = saveStudentCourses fault studentId (JsArray (distinct ids)) d.
Proof.
  unfold saveStudentCourses. simpl js_elements.
  rewrite (distinct_idemp ids). by destruct ids.
Qed.

(** ** When an enrollment succeeds *)

Lemma saveStudentCourses_success_guards (fault : nat → option sql_error)
    (studentId : Z) (ids : list Z) (d : db) :
  enroll_success
    (saveStudentCourses fault (JsNumber studentId) (JsArray ids) d).1.1 = true →
  studentId ≠ 0 ∧ ids ≠ []
  ∧ ∃ s, guards_pass d studentId (distinct ids) s
         ∧ (saveStudentCourses fault (JsNumber studentId) (JsArray ids) d).1
           = (EnrollSuccess studentId
                ((λ c, (c.1, co_code c.2, co_name c.2))
                   <$> select_courses (distinct ids) d),
              enroll_db d studentId (distinct ids)).
Proof.
  intros Hok.
  assert (Hsid : studentId ≠ 0).
  { intros ->. by vm_compute in Hok. }
  assert (Hids : ids ≠ []).
  { intros ->. unfold saveStudentCourses in Hok. simpl in Hok.
    by destruct (negb (negb (studentId =? 0)) || false). }
  split; [done|]. split; [done|].
  pose proof (saveStudentCourses_outcome fault studentId ids d Hsid Hids)
    as Hout.
  destruct (saveStudentCourses fault (JsNumber studentId) (JsArray ids) d)
    as [[res after] trace]. simpl in *.
  inversion Hout; subst; try done;
    try (by rewrite enroll_handler_fails in Hok).
  by eexists.
Qed.

(** X6. With storage answering every statement, the enrollments referring
    to existing students and courses and the slot times being HH:MM:SS
    strings (on which the triggers compare as the service does), an accepted
    request succeeds exactly when its six guards pass, and never ends in the
    storage-failure results: the triggers and keys of the schema reject no
    insert that the guards let through. *)
Theorem saveStudentCourses_succeeds_iff_guards_pass (studentId : Z)
    (ids : list Z) (d : db) :
  studentId ≠ 0 → ids ≠ [] → referential d → times_well_formed d →
  let run := saveStudentCourses no_fault (JsNumber studentId) (JsArray ids) d in
  (enroll_success run.1.1 = true
   ↔ ∃ s, guards_pass d studentId (distinct ids) s)
  ∧ run.1.1 ≠ EnrollError
  ∧ ∀ message, run.1.1 ≠ EnrollConstraintViolation message.
Proof.
  intros Hsid Hids Href _ run. subst run. split.
  - split.
    + intros Hok.
      destruct (saveStudentCourses_success_guards _ _ _ _ Hok)
        as (_ & _ & s & Hpass & _). by exists s.
    + intros [s Hpass].
      by rewrite (f_equal fst (saveStudentCourses_enrolls_when_guards_pass
                                 studentId ids d s Hsid Hids Href Hpass)).
  - pose proof (saveStudentCourses_outcome no_fault studentId ids d Hsid Hids)
      as Hout.
    destruct (saveStudentCourses no_fault (JsNumber studentId) (JsArray ids) d)
      as [[res after] trace]. simpl in *.
    inversion Hout; subst; try done.
    match goal with
    | H : insert_enrollment _ _ _ = inl _, Heq : distinct ids = _,
      Hpass : guards_pass _ _ _ _ |- _ =>
        rewrite (insert_enrollment_succeeds _ studentId (distinct ids) _ _ _ _
                   Href (NoDup_distinct ids) Hpass Heq) in H
    end.
    done.
Qed.

Lemma saveStudentCourses_succeeds_iff_guards_pass_witness :
  let run := saveStudentCourses no_fault (JsNumber 1) (JsArray [2; 3]) enrolled_db in
  (enroll_success run.1.1 = true
   ↔ ∃ s, guards_pass enrolled_db 1 (distinct [2; 3]) s)
  ∧ run.1.1 ≠ EnrollError
  ∧ ∀ message, run.1.1 ≠ EnrollConstraintViolation message.
Proof.
  apply (saveStudentCourses_succeeds_iff_guards_pass 1 [2; 3] enrolled_db);
    [lia | done | apply referentialb_sound; reflexivity
     | apply (bool_decide_unpack _); vm_compute; reflexivity].
Defined.

(** X7. After a successful [saveStudentCourses], whatever storage failures
    it met, no two slots of the courses the student is then enrolled in
    overlap on a weekday, provided the enrollments referred to existing
    students and courses before; they still do afterwards. *)
Theorem saveStudentCourses_leaves_schedule_free
    (fault : nat → option sql_error) (studentId : Z) (ids : list Z) (d : db) :
  referential d →
  let run := saveStudentCourses fault (JsNumber studentId) (JsArray ids) d in
  enroll_success run.1.1 = true →
  schedule_ok run.1.2 studentId ∧ referential run.1.2.
Proof.
  intros Href run Hok. subst run.
  destruct (saveStudentCourses_success_guards _ _ _ _ Hok)
    as (_ & _ & s & Hpass & Hrun).
  rewrite Hrun. simpl. split.
  - by apply (enroll_schedule_ok d studentId (distinct ids) s Href
                (NoDup_distinct ids)).
  - by apply (enroll_referential d studentId (distinct ids) s Href
                (NoDup_distinct ids)).
Qed.

Lemma saveStudentCourses_leaves_schedule_free_witness :
  schedule_ok
    (saveStudentCourses no_fault (JsNumber 1) (JsArray [2]) enrolled_db).1.2 1
  ∧ referential
      (saveStudentCourses no_fault (JsNumber 1) (JsArray [2]) enrolled_db).1.2.
Proof.
  apply (saveStudentCourses_leaves_schedule_free no_fault 1 [2] enrolled_db);
    [apply referentialb_sound; reflexivity | reflexivity].
Defined.

Lemma omap_ext_in {A B} (f g : A → option B) (l : list A) :
  (∀ x, x ∈ l → f x = g x) → omap f l = omap g l.
Proof.
  induction l as [|x l IH]; intros Hfg; [done|]. csimpl.
  rewrite (Hfg x) by left. rewrite IH; [done|].
  intros y Hy. apply Hfg. by right.
Qed.

Lemma guards_pass_same_elements (d : db) (studentId : Z) (ids ids' : list Z)
    (s : student_row) :
  (∀ id, id ∈ ids ↔ id ∈ ids') → length ids = length ids' →
  guards_pass d studentId ids s → guards_pass d studentId ids' s.
Proof.
  intros Hmem Hlen.
  assert (select_courses ids d = select_courses ids' d) as Hcourses.
  { unfold select_courses. apply filter_ext_in. intros row _. apply Hmem. }
  assert (select_timetables ids d = select_timetables ids' d) as Htimetables.
  { unfold select_timetables. f_equal. f_equal.
    apply filter_ext_in. intros row _. apply Hmem. }
  assert (select_already_enrolled studentId ids d
          = select_already_enrolled studentId ids' d) as Halready.
  { unfold select_already_enrolled. apply omap_ext_in. intros sc _.
    destruct (decide (sc.1 = studentId ∧ sc.2 ∈ ids)) as [Hin|Hout],
             (decide (sc.1 = studentId ∧ sc.2 ∈ ids')) as [Hin'|Hout'];
      try done; exfalso.
    - apply Hout'. split; [apply Hin|]. apply Hmem, Hin.
    - apply Hout. split; [apply Hin'|]. apply Hmem, Hin'. }
  unfold guards_pass, foreign_courses.
  rewrite Hcourses, Htimetables, Halready, Hlen. done.
Qed.

(** X8. The order of the identifiers in a request does not decide whether it
    is accepted: with storage answering every statement and the enrollments
    referring to existing students and courses, [saveStudentCourses]
    succeeds on a request exactly when it succeeds on any rearrangement of
    it, and the enrollment rows it leaves are the same up to their order. *)
Theorem saveStudentCourses_request_order (studentId : Z) (ids ids' : list Z)
    (d : db) :
  referential d → ids ≡ₚ ids' →
  let run := saveStudentCourses no_fault (JsNumber studentId) (JsArray ids) d in
  let run' := saveStudentCourses no_fault (JsNumber studentId) (JsArray ids') d in
  enroll_success run.1.1 = enroll_success run'.1.1
  ∧ student_courses run.1.2 ≡ₚ student_courses run'.1.2
  ∧ colleges run.1.2 = colleges run'.1.2
  ∧ students run.1.2 = students run'.1.2
  ∧ courses run.1.2 = courses run'.1.2
  ∧ timetables run.1.2 = timetables run'.1.2.
Proof.
  intros Href Hperm run run'. subst run run'.
  assert (Hunique : distinct ids ≡ₚ distinct ids').
  { apply NoDup_Permutation; [apply NoDup_distinct|apply NoDup_distinct|].
    intros x. rewrite !elem_of_distinct. by rewrite Hperm. }
  assert (Hsame : ∀ l l' s, l ≡ₚ l' →
            guards_pass d studentId l s → guards_pass d studentId l' s).
  { intros l l' s Hll'. apply guards_pass_same_elements.
    - intros x. by rewrite Hll'.
    - by rewrite Hll'. }
  assert (Hstep : ∀ l l', l ≡ₚ l' →
            enroll_success
              (saveStudentCourses no_fault (JsNumber studentId) (JsArray l) d).1.1
            = true →
            (saveStudentCourses no_fault (JsNumber studentId) (JsArray l') d).1
            = (EnrollSuccess studentId
                 ((λ c, (c.1, co_code c.2, co_name c.2))
                    <$> select_courses (distinct l') d),
               enroll_db d studentId (distinct l'))
            ∧ (saveStudentCourses no_fault (JsNumber studentId) (JsArray l) d).1.2
              = enroll_db d studentId (distinct l)).
  { intros l l' Hll' Hok.
    destruct (saveStudentCourses_success_guards _ _ _ _ Hok)
      as (Hsid & Hl & s & Hpass & Hrun).
    split; [|by rewrite Hrun].
    apply (saveStudentCourses_enrolls_when_guards_pass studentId l' d s);
      [done| |done|].
    - intros ->. by apply Permutation_nil_r in Hll'.
    - apply (Hsame (distinct l)); [|done].
      apply NoDup_Permutation; [apply NoDup_distinct|apply NoDup_distinct|].
      intros x. rewrite !elem_of_distinct. by rewrite Hll'. }
  destruct (enroll_success
              (saveStudentCourses no_fault (JsNumber studentId) (JsArray ids) d).1.1)
    eqn:Hok.
  - destruct (Hstep ids ids' Hperm Hok) as [Hrun' Hrun].
    rewrite Hrun, Hrun'. simpl. repeat split; try done.
    unfold enrollment_rows. by rewrite Hunique.
  - destruct (enroll_success
                (saveStudentCourses no_fault (JsNumber studentId)
                   (JsArray ids') d).1.1) eqn:Hok'.
    + destruct (Hstep ids' ids (symmetry Hperm) Hok') as [Hrun _].
      rewrite Hrun in Hok. done.
    + assert (Hd : ∀ l, enroll_success
                (saveStudentCourses no_fault (JsNumber studentId)
                   (JsArray l) d).1.1 = false →
                (saveStudentCourses no_fault (JsNumber studentId)
                   (JsArray l) d).1.2 = d).
      { intros l Hfail.
        destruct (saveStudentCourses_db no_fault (JsNumber studentId)
                    (JsArray l) d) as [Hsame'|(s & committed & Hpass & _)];
          [done|].
        simpl in Hpass.
        destruct (decide (studentId = 0)) as [->|Hsid]; [done|].
        destruct (decide (l = [])) as [->|Hl]; [by destruct studentId|].
        rewrite (f_equal fst (saveStudentCourses_enrolls_when_guards_pass
                                studentId l d s Hsid Hl Href Hpass)) in Hfail.
        done. }
      rewrite (Hd ids Hok), (Hd ids' Hok'). done.
Qed.

Lemma saveStudentCourses_request_order_witness :
  let run := saveStudentCourses no_fault (JsNumber 1) (JsArray [1; 4]) sample_db in
  let run' := saveStudentCourses no_fault (JsNumber 1) (JsArray [4; 1]) sample_db in
  enroll_success run.1.1 = enroll_success run'.1.1
  ∧ student_courses run.1.2 ≡ₚ student_courses run'.1.2
  ∧ colleges run.1.2 = colleges run'.1.2
  ∧ students run.1.2 = students run'.1.2
  ∧ courses run.1.2 = courses run'.1.2
  ∧ timetables run.1.2 = timetables run'.1.2.
Proof.
  apply (saveStudentCourses_request_order 1 [1; 4] [4; 1] sample_db);
    [apply referentialb_sound; reflexivity | apply perm_swap].
Defined.

(** ** What the mutations of the timetables and courses leave behind *)

Lemma js_ge_false (a b : string) : js_ge a b = false ↔ sql_time_lt a b = true.
Proof. unfold js_ge, sql_time_lt. by destruct (String.ltb a b). Qed.

Lemma addTimetable_effect (fault : nat → option sql_error) (courseId : Z)
    (dayOfWeek startTime endTime : string) (d : db) :
  (∃ day id,
     weekday_of_name dayOfWeek = Some day
     ∧ sql_time_lt startTime endTime = true
     ∧ is_Some (courses d !! courseId)
     ∧ id = next_id (timetables d)
     ∧ (select_enrolled_students courseId d = []
        ∨ add_conflicts d courseId day startTime endTime = [])
     ∧ (addTimetable fault courseId dayOfWeek startTime endTime d).1
       = (TimetableAdded id courseId day startTime endTime,
          set_timetables d
            (<[id := TimetableRow courseId day startTime endTime]>
               (timetables d))))
  ∨ (admin_success
       (addTimetable fault courseId dayOfWeek startTime endTime d).1.1 = false
     ∧ (addTimetable fault courseId dayOfWeek startTime endTime d).1.2 = d).
Proof.
  destruct (weekday_of_name dayOfWeek) as [day|] eqn:Hday.
  2: { right. unfold addTimetable. by rewrite Hday. }
  destruct (js_ge startTime endTime) eqn:Hwf.
  { right. unfold addTimetable. by rewrite Hday, Hwf. }
  pose proof (addTimetable_outcome fault courseId dayOfWeek startTime endTime
                day d Hday Hwf) as Hout.
  destruct (addTimetable fault courseId dayOfWeek startTime endTime d)
    as [[res after] trace]. simpl in Hout |- *.
  inversion Hout; subst; auto.
  left. exists day, insertId.
  match goal with
  | H : insert_timetable _ _ _ _ _ = inr _ |- _ =>
      unfold insert_timetable in H; repeat case_match; try done;
      injection H as <- <-
  end.
  apply js_ge_false in Hwf. auto 10.
Qed.

Lemma updateTimetable_effect (fault : nat → option sql_error) (timetableId : Z)
    (updates : timetable_updates) (d : db) :
  (∃ old new_day,
     let day := new_day (tt_day_of_week old) in
     let startTime := js_or_field (upd_startTime updates) (tt_start_time old) in
     let endTime := js_or_field (upd_endTime updates) (tt_end_time old) in
     update_day (upd_dayOfWeek updates) = Some new_day
     ∧ timetables d !! timetableId = Some old
     ∧ sql_time_lt startTime endTime = true
     ∧ update_conflicts d timetableId (tt_course_id old) day startTime endTime
       = []
     ∧ (updateTimetable fault timetableId updates d).1
       = (TimetableUpdated timetableId day startTime endTime,
          set_timetables d
            (<[timetableId :=
                 TimetableRow (tt_course_id old) day startTime endTime]>
               (timetables d))))
  ∨ (admin_success (updateTimetable fault timetableId updates d).1.1 = false
     ∧ (updateTimetable fault timetableId updates d).1.2 = d).
Proof.
  destruct (update_day (upd_dayOfWeek updates)) as [new_day|] eqn:Hday.
  2: { right. unfold updateTimetable. by rewrite Hday. }
  pose proof (updateTimetable_outcome fault timetableId updates new_day d Hday)
    as Hout.
  destruct (updateTimetable fault timetableId updates d)
    as [[res after] trace]. simpl in Hout |- *.
  inversion Hout; subst; auto.
  left. exists old, new_day.
  match goal with
  | H : update_timetable _ _ _ _ _ = inr _ |- _ =>
      eapply update_timetable_inr in H; [|done]; subst
  end.
  match goal with H : js_ge _ _ = false |- _ => apply js_ge_false in H end.
  simpl. auto 10.
Qed.

(** The four ways the INSERT of a course can end. *)
Lemma insert_course_cases (courseCode courseName : string)
    (collegeId credits : Z) (d : db) :
  (insert_course courseCode courseName collegeId credits d
   = inl ER_WARN_DATA_OUT_OF_RANGE
   ∨ insert_course courseCode courseName collegeId credits d
     = inl ER_DATA_TOO_LONG)
  ∨ ((∃ id c, courses d !! id = Some c
              ∧ collation_key (co_code c) = collation_key courseCode
              ∧ co_college_id c = collegeId)
     ∧ insert_course courseCode courseName collegeId credits d
       = inl ER_DUP_ENTRY)
  ∨ ((∀ id c, courses d !! id = Some c →
              ¬ (co_code c = courseCode ∧ co_college_id c = collegeId))
     ∧ colleges d !! collegeId = None
     ∧ insert_course courseCode courseName collegeId credits d
       = inl ER_NO_REFERENCED_ROW)
  ∨ ((∀ id c, courses d !! id = Some c →
              ¬ (co_code c = courseCode ∧ co_college_id c = collegeId))
     ∧ is_Some (colleges d !! collegeId)
     ∧ insert_course courseCode courseName collegeId credits d
       = inr (next_id (courses d),
              set_courses d
                (<[next_id (courses d) :=
                     CourseRow courseCode courseName collegeId credits]>
                   (courses d)))).
Proof.
  unfold insert_course.
  destruct (_ || _); [by left; left|].
  destruct (_ || _); [by left; right|]. right.
  destruct (bool_decide_reflect
              (Exists (λ row : Z * course_row,
                         collation_key (co_code row.2)
                         = collation_key courseCode
                         ∧ co_college_id row.2 = collegeId)
                      (map_to_list (courses d)))) as [Hdup|Hnew].
  - left. split; [|done].
    apply Exists_exists in Hdup as ([id c] & Hin & Hcode & Hcollege).
    apply elem_of_map_to_list in Hin. by exists id, c.
  - right.
    assert (∀ id c, courses d !! id = Some c →
              ¬ (co_code c = courseCode ∧ co_college_id c = collegeId))
      as Hfree.
    { intros id c Hc [Hcode Hcollege]. apply Hnew, Exists_exists.
      exists (id, c). split; [by apply elem_of_map_to_list|].
      simpl. by rewrite Hcode. }
    destruct (bool_decide_reflect (colleges d !! collegeId = None))
      as [Hnone|Hsome]; [by left|].
    right. split; [done|]. split; [|done].
    by apply not_eq_None_Some.
Qed.


(** ** Dropping a course *)

Lemma filter_ne_notin {A} `{EqDecision A} (x : A) (l : list A) :
  x ∉ l → filter (λ y, y ≠ x) l = l.
Proof.
  induction l as [|y l IH]; [done|].
  intros [Hxy Hx]%not_elem_of_cons.
  rewrite filter_cons_True by done. by rewrite IH.
Qed.

Lemma set_student_courses_id (d : db) :
  set_student_courses d (student_courses d) = d.
Proof. by destruct d. Qed.

Lemma set_timetables_id (d : db) : set_timetables d (timetables d) = d.
Proof. by destruct d. Qed.

Lemma dropCourse_no_fault (fault : nat → option sql_error)
    (studentId courseId : Z) (d : db) :
  fault 0%nat = None →
  dropCourse fault studentId courseId d
  = (if decide (enrolled d studentId courseId) then DropSuccess
     else DropNotFound,
     set_student_courses d
       (filter (λ sc, sc ≠ (studentId, courseId)) (student_courses d)),
     [EvQuery DeleteEnrollment]).
Proof.
  intros Hfault. unfold dropCourse, with_pool, delete_enrollment.
  rewrite Hfault. do 2 f_equal.
  destruct (decide (enrolled d studentId courseId)) as [Hen|Hen].
  - pose proof (length_filter_lt (λ sc, sc ≠ (studentId, courseId))
                  (student_courses d) (studentId, courseId) Hen
                  ltac:(by intros ?)) as Hlt.
    destruct (Nat.eqb_spec
                (length (student_courses d)
                 - length (filter (λ sc, sc ≠ (studentId, courseId))
                                  (student_courses d))) 0); [lia|done].
  - rewrite filter_ne_notin by done. by rewrite Nat.sub_diag.
Qed.

(** X9. With the statement going through, [dropCourse] reports success
    exactly when the student was enrolled in the course; afterwards the
    student is not enrolled in it, every other enrollment is as before, and
    no other table has changed. When the student was not enrolled the answer
    is 'Enrollment not found' and the tables are as they were. *)
Theorem dropCourse_removes_exactly_the_enrollment
    (fault : nat → option sql_error) (studentId courseId : Z) (d : db) :
  fault 0%nat = None →
  let run := dropCourse fault studentId courseId d in
  (enrolled d studentId courseId → run.1.1 = DropSuccess)
  ∧ (¬ enrolled d studentId courseId → run.1 = (DropNotFound, d))
  ∧ ¬ enrolled run.1.2 studentId courseId
  ∧ (∀ sid c, (sid, c) ≠ (studentId, courseId) →
              enrolled run.1.2 sid c ↔ enrolled d sid c)
  ∧ colleges run.1.2 = colleges d ∧ students run.1.2 = students d
  ∧ courses run.1.2 = courses d ∧ timetables run.1.2 = timetables d.
Proof.
  intros Hfault run. subst run. rewrite (dropCourse_no_fault _ _ _ _ Hfault).
  simpl. unfold enrolled. simpl. repeat split; try done.
  - intros Hen. by rewrite decide_True.
  - intros Hen. rewrite decide_False by done.
    rewrite filter_ne_notin by done. by rewrite set_student_courses_id.
  - by intros [Hne _]%list_elem_of_filter.
  - by intros [_ ?]%list_elem_of_filter.
  - intros Hin. by apply list_elem_of_filter.
Qed.

Lemma dropCourse_removes_exactly_the_enrollment_witness :
  let run := dropCourse no_fault 1 4 enrolled_db in
  run.1.1 = DropSuccess
  ∧ ¬ enrolled run.1.2 1 4
  ∧ (enrolled run.1.2 1 1 ↔ enrolled enrolled_db 1 1).
Proof.
  destruct (dropCourse_removes_exactly_the_enrollment no_fault 1 4 enrolled_db
              eq_refl) as (Hok & _ & Hgone & Hkept & _).
  split; [apply Hok; unfold enrolled; simpl; rewrite !elem_of_cons; auto|].
  split; [exact Hgone|]. apply Hkept. discriminate.
Defined.

(** X10. Dropping the same course twice: once a [dropCourse] statement has
    gone through, whether it found the enrollment or not, the next
    [dropCourse] of the same student and course that goes through answers
    'Enrollment not found' and changes nothing. A [dropCourse] whose
    statement storage rejects answers 'Failed to drop course' and changes
    nothing either. *)
Theorem dropCourse_twice_not_found
    (fault fault' : nat → option sql_error) (studentId courseId : Z) (d : db) :
  fault' 0%nat = None →
  let first := dropCourse fault studentId courseId d in
  let second := dropCourse fault' studentId courseId first.1.2 in
  (fault 0%nat = None → second.1 = (DropNotFound, first.1.2))
  ∧ (fault 0%nat ≠ None → first.1 = (DropFailed, d)).
Proof.
  intros Hfault' first second. subst first second. split.
  - intros Hfault.
    rewrite (dropCourse_no_fault fault' _ _ _ Hfault').
    rewrite (dropCourse_no_fault fault _ _ _ Hfault). simpl.
    assert (Hgone : (studentId, courseId)
                    ∉ filter (λ sc, sc ≠ (studentId, courseId))
                             (student_courses d)).
    { by intros [Hne _]%list_elem_of_filter. }
    destruct (decide _) as [Hen|_]; [destruct (Hgone Hen)|].
    by rewrite (filter_ne_notin _ _ Hgone).
  - intros Hfault. unfold dropCourse, with_pool.
    by destruct (fault 0%nat).
Qed.

Lemma dropCourse_twice_not_found_witness :
  (dropCourse no_fault 1 4 (dropCourse no_fault 1 4 enrolled_db).1.2).1
  = (DropNotFound, (dropCourse no_fault 1 4 enrolled_db).1.2).
Proof.
  apply (dropCourse_twice_not_found no_fault no_fault 1 4 enrolled_db eq_refl).
  reflexivity.
Defined.

(** ** Deleting, adding and updating a timetable slot *)

Lemma deleteTimetable_no_fault (fault : nat → option sql_error)
    (timetableId : Z) (d : db) :
  fault 0%nat = None →
  deleteTimetable fault timetableId d
  = (match timetables d !! timetableId with
     | Some _ => TimetableDeleted
     | None => TimetableNotFound
     end,
     set_timetables d (delete timetableId (timetables d)),
     [EvQuery DeleteTimetable]).
Proof.
  intros Hfault. unfold deleteTimetable, with_pool, delete_timetable.
  rewrite Hfault. destruct (timetables d !! timetableId) eqn:Hrow; [done|].
  simpl. rewrite (delete_id _ _ Hrow). by rewrite set_timetables_id.
Qed.

(** X11. With the statement going through, [deleteTimetable] deletes the
    slot when it exists and answers 'Timetable not found' when it does not;
    no conflict query is sent; afterwards the slot is gone, every other slot
    and every other table is as before, and deleting the same slot again
    answers 'Timetable not found'. *)
Theorem deleteTimetable_removes_exactly_the_slot
    (fault fault' : nat → option sql_error) (timetableId : Z) (d : db) :
  fault 0%nat = None → fault' 0%nat = None →
  let run := deleteTimetable fault timetableId d in
  (is_Some (timetables d !! timetableId) → run.1.1 = TimetableDeleted)
  ∧ (timetables d !! timetableId = None → run.1 = (TimetableNotFound, d))
  ∧ run.2 = [EvQuery DeleteTimetable]
  ∧ timetables run.1.2 !! timetableId = None
  ∧ (∀ id, id ≠ timetableId → timetables run.1.2 !! id = timetables d !! id)
  ∧ colleges run.1.2 = colleges d ∧ students run.1.2 = students d
  ∧ courses run.1.2 = courses d
  ∧ student_courses run.1.2 = student_courses d
  ∧ (deleteTimetable fault' timetableId run.1.2).1
    = (TimetableNotFound, run.1.2).
Proof.
  intros Hfault Hfault' run. subst run.
  rewrite (deleteTimetable_no_fault fault' _ _ Hfault').
  rewrite (deleteTimetable_no_fault fault _ _ Hfault). simpl.
  rewrite lookup_delete_eq. repeat split; try done.
  - by intros [t ->].
  - intros Hnone. rewrite Hnone, (delete_id _ _ Hnone).
    by rewrite set_timetables_id.
  - intros id Hne. by rewrite lookup_delete_ne.
  - rewrite (delete_id (delete timetableId (timetables d)) timetableId)
      by apply lookup_delete_eq.
    by destruct d.
Qed.

Lemma deleteTimetable_removes_exactly_the_slot_witness :
  let run := deleteTimetable no_fault 7 enrolled_db in
  run.1.1 = TimetableDeleted
  ∧ timetables run.1.2 !! 7 = None
  ∧ timetables run.1.2 !! 8 = timetables enrolled_db !! 8
  ∧ (deleteTimetable no_fault 7 run.1.2).1 = (TimetableNotFound, run.1.2).
Proof.
  destruct (deleteTimetable_removes_exactly_the_slot no_fault no_fault 7
              enrolled_db eq_refl eq_refl)
    as (Hok & _ & _ & Hgone & Hkept & _ & _ & _ & _ & Hagain).
  split; [apply Hok; by eexists|]. split; [exact Hgone|].
  split; [apply Hkept; lia|exact Hagain].
Defined.

(** X12. A successful [addTimetable] with times given as HH:MM:SS strings,
    whatever storage failures it met, wrote exactly one row: the identifier
    it returns was not in use, the row stored under it carries the course,
    day and times of the call, the day was one of the seven names, the
    start lies before the end, the course exists, and every other slot and
    table is as before. An [addTimetable] that does not succeed leaves the
    tables as they were. *)
Theorem addTimetable_adds_exactly_one_slot
    (fault : nat → option sql_error) (courseId : Z)
    (dayOfWeek startTime endTime : string) (d : db) :
  time_well_formed startTime → time_well_formed endTime →
  let run := addTimetable fault courseId dayOfWeek startTime endTime d in
  (admin_success run.1.1 = true →
   ∃ day id,
     run.1.1 = TimetableAdded id courseId day startTime endTime
     ∧ dayOfWeek = weekday_name day
     ∧ js_lt startTime endTime = true
     ∧ is_Some (courses d !! courseId)
     ∧ timetables d !! id = None
     ∧ timetables run.1.2 !! id
       = Some (TimetableRow courseId day startTime endTime)
     ∧ (∀ id', id' ≠ id → timetables run.1.2 !! id' = timetables d !! id')
     ∧ colleges run.1.2 = colleges d ∧ students run.1.2 = students d
     ∧ courses run.1.2 = courses d
     ∧ student_courses run.1.2 = student_courses d)
  ∧ (admin_success run.1.1 = false → run.1.2 = d).
Proof.
  intros _ _ run. subst run.
  destruct (addTimetable_effect fault courseId dayOfWeek startTime endTime d)
    as [(day & id & Hday & Hlt & Hcourse & -> & _ & Hrun)|[Hfail Hsame]].
  - rewrite Hrun. simpl. split; [|done]. intros _.
    exists day, (next_id (timetables d)).
    rewrite lookup_insert_eq. repeat split; try done.
    + unfold weekday_of_name in Hday.
      repeat match type of Hday with
      | (if String.eqb ?s ?name then _ else _) = _ =>
          destruct (String.eqb_spec s name); [by simplify_eq|]
      end.
      done.
    + apply next_id_fresh.
    + intros id' Hne. by rewrite lookup_insert_ne.
  - split; [by rewrite Hfail|done].
Qed.

Lemma addTimetable_adds_exactly_one_slot_witness :
  ∃ day id,
    (addTimetable no_fault 2 "Friday" "09:00:00" "10:00:00" enrolled_db).1.1
    = TimetableAdded id 2 day "09:00:00" "10:00:00"
    ∧ "Friday" = weekday_name day
    ∧ timetables enrolled_db !! id = None
    ∧ timetables
        (addTimetable no_fault 2 "Friday" "09:00:00" "10:00:00" enrolled_db).1.2
      !! id
      = Some (TimetableRow 2 day "09:00:00" "10:00:00").
Proof.
  destruct (addTimetable_adds_exactly_one_slot no_fault 2 "Friday"
              "09:00:00" "10:00:00" enrolled_db) as [Hadded _];
    [apply (bool_decide_unpack _); reflexivity
    |apply (bool_decide_unpack _); reflexivity|].
  destruct (Hadded eq_refl)
    as (day & id & Hres & Hname & _ & _ & Hfresh & Hrow & _).
  exists day, id. auto.
Defined.

(** X13. A slot added by [addTimetable] and then deleted by
    [deleteTimetable] under the identifier that was returned leaves every
    table exactly as it was before the two calls. *)
Theorem addTimetable_then_deleteTimetable
    (fault fault' : nat → option sql_error) (courseId : Z)
    (dayOfWeek startTime endTime : string) (d : db) (id : Z) (day : weekday) :
  fault' 0%nat = None →
  let added := addTimetable fault courseId dayOfWeek startTime endTime d in
  added.1.1 = TimetableAdded id courseId day startTime endTime →
  (deleteTimetable fault' id added.1.2).1 = (TimetableDeleted, d).
Proof.
  intros Hfault' added Hres. subst added.
  rewrite (deleteTimetable_no_fault fault' _ _ Hfault').
  destruct (addTimetable_effect fault courseId dayOfWeek startTime endTime d)
    as [(day' & id' & _ & _ & _ & -> & _ & Hrun)|[Hfail _]].
  - rewrite Hrun in Hres |- *. simpl in *. injection Hres as <- _.
    rewrite lookup_insert_eq.
    rewrite delete_insert_id by apply next_id_fresh. by destruct d.
  - by rewrite Hres in Hfail.
Qed.

Lemma addTimetable_then_deleteTimetable_witness :
  (deleteTimetable no_fault 10
     (addTimetable no_fault 2 "Friday" "09:00:00" "10:00:00" enrolled_db).1.2).1
  = (TimetableDeleted, enrolled_db).
Proof.
  apply (addTimetable_then_deleteTimetable no_fault no_fault 2 "Friday"
           "09:00:00" "10:00:00" enrolled_db 10 Friday eq_refl).
  reflexivity.
Defined.

(** ** When a timetable mutation is accepted *)

Lemma empty_or_element {A} (l : list A) : l = [] ∨ ∃ x, x ∈ l.
Proof. destruct l as [|x l]; [by left|]. right. exists x. left. Qed.

Lemma weekday_of_name_name (day : weekday) :
  weekday_of_name (weekday_name day) = Some day.
Proof. by destruct day. Qed.

(** X14. With storage answering every statement, the enrollments referring
    to existing students and courses and all times being HH:MM:SS strings,
    those of the slots and those of the call, [addTimetable] on an existing
    course, a valid day and an interval with start before end succeeds
    exactly when no student enrolled in the course is enrolled in another
    course with a slot on that day overlapping the new interval. *)
Theorem addTimetable_accepts_iff_no_conflict
    (fault : nat → option sql_error) (courseId : Z)
    (dayOfWeek startTime endTime : string) (day : weekday) (d : db) :
  (∀ n, fault n = None) → referential d → times_well_formed d →
  time_well_formed startTime → time_well_formed endTime →
  weekday_of_name dayOfWeek = Some day →
  js_lt startTime endTime = true →
  is_Some (courses d !! courseId) →
  admin_success
    (addTimetable fault courseId dayOfWeek startTime endTime d).1.1 = true
  ↔ ∀ sid id t,
      enrolled d sid courseId → enrolled d sid (tt_course_id t) →
      tt_course_id t ≠ courseId →
      timetables d !! id = Some t → tt_day_of_week t = day →
      timeSlotsOverlap (tt_start_time t) (tt_end_time t) startTime endTime
      = false.
Proof.
  intros Hfault Href _ _ _ Hday Hlt Hcourse.
  assert (Hwf : js_ge startTime endTime = false).
  { unfold js_ge. unfold js_lt in Hlt. by rewrite Hlt. }
  split.
  - intros Hok sid id t Hen1 Hen2 Hother Hrow Hsame.
    destruct (addTimetable_effect fault courseId dayOfWeek startTime endTime d)
      as [(day' & id' & Hday' & _ & _ & _ & Hno & _)|[Hfail _]];
      [|by rewrite Hok in Hfail].
    assert (day' = day) as -> by congruence.
    destruct Hno as [Hnobody|Hfree].
    + destruct (Href sid courseId Hen1) as [[st Hst] _].
      pose proof (elem_of_select_enrolled_students courseId d sid st Hen1 Hst)
        as Hin.
      rewrite Hnobody in Hin. by apply not_elem_of_nil in Hin.
    + apply (no_conflicts_no_overlap courseId day startTime endTime
               (λ course _, bool_decide (course ≠ courseId)) d sid id t);
        try done.
      by apply bool_decide_eq_true.
  - intros Hnone.
    pose proof (addTimetable_outcome fault courseId dayOfWeek startTime endTime
                  day d Hday Hwf) as Hout.
    destruct (addTimetable fault courseId dayOfWeek startTime endTime d)
      as [[res after] trace]. simpl in Hout |- *.
    inversion Hout; subst; try done.
    + match goal with H : fault _ = Some _ |- _ => by rewrite Hfault in H end.
    + match goal with H : courses _ !! _ = None |- _ =>
        rewrite H in Hcourse; by destruct Hcourse end.
    + exfalso.
      match goal with H : add_conflicts ?tables _ _ _ _ ≠ [] |- _ =>
        destruct (empty_or_element
                    (add_conflicts tables courseId day startTime endTime))
          as [Hnil|[row Hrow]]; [done|]
      end.
      apply elem_of_select_conflicts in Hrow
        as (sid & st & id & t & c & Hen1 & _ & Hen2 & Ht & _ & Hsame & Hlt1
            & Hlt2 & Hkeep & _).
      apply bool_decide_eq_true in Hkeep.
      pose proof (Hnone sid id t Hen1 Hen2 Hkeep Ht Hsame) as Hfree.
      unfold timeSlotsOverlap, js_lt, js_gt in Hfree.
      unfold sql_time_lt in Hlt1, Hlt2. by rewrite Hlt1, Hlt2 in Hfree.
    + exfalso.
      match goal with H : insert_timetable _ _ _ _ _ = inl _ |- _ =>
        unfold insert_timetable in H;
        rewrite bool_decide_eq_false_2 in H
          by (by apply not_eq_None_Some);
        unfold sql_time_lt in H; unfold js_lt in Hlt; by rewrite Hlt in H
      end.
Qed.

Lemma addTimetable_accepts_iff_no_conflict_witness :
  admin_success
    (addTimetable no_fault 1 "Friday" "09:00:00" "10:00:00" enrolled_db).1.1
  = true
  ↔ ∀ sid id t,
      enrolled enrolled_db sid 1 → enrolled enrolled_db sid (tt_course_id t) →
      tt_course_id t ≠ 1 →
      timetables enrolled_db !! id = Some t → tt_day_of_week t = Friday →
      timeSlotsOverlap (tt_start_time t) (tt_end_time t) "09:00:00" "10:00:00"
      = false.
Proof.
  apply (addTimetable_accepts_iff_no_conflict no_fault 1 "Friday" "09:00:00"
           "10:00:00" Friday enrolled_db);
    [done | apply referentialb_sound; reflexivity
     | apply (bool_decide_unpack _); vm_compute; reflexivity
     | apply (bool_decide_unpack _); reflexivity
     | apply (bool_decide_unpack _); reflexivity
     | reflexivity | reflexivity | by eexists].
Defined.

(** X15. With storage answering every statement, the enrollments referring
    to existing students and courses and all times being HH:MM:SS strings,
    those of the slots and those supplied, [updateTimetable] on an existing
    slot, with a valid day and a merged interval with start before end,
    succeeds exactly when no student enrolled in the slot's course is
    enrolled in a course with another slot on the new day overlapping the
    new interval; slots of the same course count. *)
Theorem updateTimetable_accepts_iff_no_conflict
    (fault : nat → option sql_error) (timetableId : Z)
    (updates : timetable_updates) (new_day : weekday → weekday)
    (old : timetable_row) (d : db) :
  let day := new_day (tt_day_of_week old) in
  let startTime := js_or_field (upd_startTime updates) (tt_start_time old) in
  let endTime := js_or_field (upd_endTime updates) (tt_end_time old) in
  (∀ n, fault n = None) → referential d → times_well_formed d →
  field_well_formed (upd_startTime updates) →
  field_well_formed (upd_endTime updates) →
  update_day (upd_dayOfWeek updates) = Some new_day →
  timetables d !! timetableId = Some old →
  js_lt startTime endTime = true →
  admin_success (updateTimetable fault timetableId updates d).1.1 = true
  ↔ ∀ sid id t,
      enrolled d sid (tt_course_id old) → enrolled d sid (tt_course_id t) →
      id ≠ timetableId →
      timetables d !! id = Some t → tt_day_of_week t = day →
      timeSlotsOverlap (tt_start_time t) (tt_end_time t) startTime endTime
      = false.
Proof.
  intros day startTime endTime Hfault Href _ _ _ Hday Hold Hlt.
  assert (Hwf : js_ge startTime endTime = false).
  { unfold js_ge. unfold js_lt in Hlt. by rewrite Hlt. }
  split.
  - intros Hok sid id t Hen1 Hen2 Hother Hrow Hsame.
    destruct (updateTimetable_effect fault timetableId updates d)
      as [(old' & new_day' & Hday' & Hold' & _ & Hfree & _)|[Hfail _]];
      [|by rewrite Hok in Hfail].
    assert (old' = old) as -> by congruence.
    assert (new_day' = new_day) as -> by congruence.
    apply (no_conflicts_no_overlap (tt_course_id old) day startTime endTime
             (λ _ tid, bool_decide (tid ≠ timetableId)) d sid id t);
      try done.
    by apply bool_decide_eq_true.
  - intros Hnone.
    pose proof (updateTimetable_outcome fault timetableId updates new_day d
                  Hday) as Hout.
    destruct (updateTimetable fault timetableId updates d)
      as [[res after] trace]. simpl in Hout |- *.
    inversion Hout; subst; try done;
      try match goal with H : fault _ = Some _ |- _ =>
            by rewrite Hfault in H end;
      try match goal with H : timetables _ !! _ = _ |- _ =>
            rewrite Hold in H; simplify_eq end;
      exfalso.
    + subst startTime endTime. congruence.
    + match goal with H : update_conflicts ?tables _ ?course _ _ _ ≠ [] |- _ =>
        destruct (empty_or_element
                    (update_conflicts tables timetableId course day
                       startTime endTime))
          as [Hnil|[row Hrow]]; [done|]
      end.
      apply elem_of_select_conflicts in Hrow
        as (sid & st & id & t & c & Hen1 & _ & Hen2 & Ht & _ & Hsame & Hlt1
            & Hlt2 & Hkeep & _).
      apply bool_decide_eq_true in Hkeep.
      pose proof (Hnone sid id t Hen1 Hen2 Hkeep Ht Hsame) as Hfree.
      unfold timeSlotsOverlap, js_lt, js_gt in Hfree.
      unfold sql_time_lt in Hlt1, Hlt2. by rewrite Hlt1, Hlt2 in Hfree.
    + match goal with H : update_timetable _ _ _ _ _ = inl _ |- _ =>
        unfold update_timetable in H; rewrite Hold in H;
        unfold sql_time_lt in H; unfold js_lt in Hlt;
        subst startTime endTime; by rewrite Hlt in H
      end.
Qed.

Lemma updateTimetable_accepts_iff_no_conflict_witness :
  admin_success
    (updateTimetable no_fault 7 (Updates (Some "Friday") None None)
       enrolled_db).1.1 = true
  ↔ ∀ sid id t,
      enrolled enrolled_db sid 4 → enrolled enrolled_db sid (tt_course_id t) →
      id ≠ 7 →
      timetables enrolled_db !! id = Some t → tt_day_of_week t = Friday →
      timeSlotsOverlap (tt_start_time t) (tt_end_time t) "10:00:00" "12:00:00"
      = false.
Proof.
  apply (updateTimetable_accepts_iff_no_conflict no_fault 7
           (Updates (Some "Friday") None None) (λ _, Friday)
           (TimetableRow 4 Wednesday "10:00:00" "12:00:00") enrolled_db);
    [done | apply referentialb_sound; reflexivity
     | apply (bool_decide_unpack _); vm_compute; reflexivity
     | done | done | reflexivity | reflexivity | reflexivity].
Defined.

(** X16. With storage answering every statement and all times being
    HH:MM:SS strings, those of the slots and those supplied, neither
    [addTimetable] nor [updateTimetable] ends in 'Failed to add timetable'
    or 'Failed to update timetable': the foreign key and the CHECK
    constraint of [timetables] reject no row that the validation of the
    service lets through. *)
Theorem timetable_mutations_fail_only_on_storage_faults
    (fault : nat → option sql_error) (d : db) :
  (∀ n, fault n = None) → times_well_formed d →
  (∀ courseId dayOfWeek startTime endTime,
     time_well_formed startTime → time_well_formed endTime →
     (addTimetable fault courseId dayOfWeek startTime endTime d).1.1
     ≠ AdminFailed)
  ∧ (∀ timetableId updates,
       field_well_formed (upd_startTime updates) →
       field_well_formed (upd_endTime updates) →
       (updateTimetable fault timetableId updates d).1.1 ≠ AdminFailed).
Proof.
  intros Hfault _. split.
  - intros courseId dayOfWeek startTime endTime _ _.
    destruct (weekday_of_name dayOfWeek) as [day|] eqn:Hday.
    2: { unfold addTimetable. by rewrite Hday. }
    destruct (js_ge startTime endTime) eqn:Hwf.
    { unfold addTimetable. by rewrite Hday, Hwf. }
    pose proof (addTimetable_outcome fault courseId dayOfWeek startTime endTime
                  day d Hday Hwf) as Hout.
    destruct (addTimetable fault courseId dayOfWeek startTime endTime d)
      as [[res after] trace]. simpl in Hout |- *.
    inversion Hout; subst; try done.
    + match goal with H : fault _ = Some _ |- _ => by rewrite Hfault in H end.
    + match goal with
      | H : insert_timetable _ _ _ _ _ = inl _,
        Hc : is_Some (courses _ !! _) |- _ =>
          unfold insert_timetable in H;
          rewrite bool_decide_eq_false_2 in H
            by (by apply not_eq_None_Some);
          apply js_ge_false in Hwf; by rewrite Hwf in H
      end.
  - intros timetableId updates _ _.
    destruct (update_day (upd_dayOfWeek updates)) as [new_day|] eqn:Hday.
    2: { unfold updateTimetable. by rewrite Hday. }
    pose proof (updateTimetable_outcome fault timetableId updates new_day d
                  Hday) as Hout.
    destruct (updateTimetable fault timetableId updates d)
      as [[res after] trace]. simpl in Hout |- *.
    inversion Hout; subst; try done.
    + match goal with H : fault _ = Some _ |- _ => by rewrite Hfault in H end.
    + match goal with
      | H : update_timetable _ _ _ _ _ = inl _,
        Hrow : timetables _ !! _ = Some _,
        Hwf : js_ge _ _ = false |- _ =>
          unfold update_timetable in H; rewrite Hrow in H;
          apply js_ge_false in Hwf; by rewrite Hwf in H
      end.
Qed.

Lemma timetable_mutations_fail_only_on_storage_faults_witness :
  (addTimetable no_fault 1 "Wednesday" "09:30:00" "10:30:00" enrolled_db).1.1
  ≠ AdminFailed
  ∧ (updateTimetable no_fault 1 (Updates None (Some "09:30:00") None)
       enrolled_db).1.1 ≠ AdminFailed.
Proof.
  destruct (timetable_mutations_fail_only_on_storage_faults no_fault
              enrolled_db ltac:(done)) as [Hadd Hupdate].
  { apply (bool_decide_unpack _). vm_compute. reflexivity. }
  split.
  - apply Hadd; apply (bool_decide_unpack _); reflexivity.
  - apply Hupdate; [right; apply (bool_decide_unpack _); reflexivity|done].
Defined.

(** X17. On slots whose times are HH:MM:SS strings, a successful
    [updateTimetable] with times supplied as HH:MM:SS strings, whatever
    storage failures it met, rewrote exactly one row: the slot existed, it
    keeps its course, each of day, start and end is the value supplied or,
    when the field is absent or the empty string, the value the slot had,
    the new start lies before the new end, and every other slot and table
    is as before. An [updateTimetable] that does not succeed leaves the
    tables as they were. *)
Theorem updateTimetable_rewrites_exactly_one_slot
    (fault : nat → option sql_error) (timetableId : Z)
    (updates : timetable_updates) (d : db) :
  times_well_formed d →
  field_well_formed (upd_startTime updates) →
  field_well_formed (upd_endTime updates) →
  let run := updateTimetable fault timetableId updates d in
  (admin_success run.1.1 = true →
   ∃ old day startTime endTime,
     timetables d !! timetableId = Some old
     ∧ run.1.1 = TimetableUpdated timetableId day startTime endTime
     ∧ timetables run.1.2 !! timetableId
       = Some (TimetableRow (tt_course_id old) day startTime endTime)
     ∧ match upd_dayOfWeek updates with
       | None | Some EmptyString => day = tt_day_of_week old
       | Some name => name = weekday_name day
       end
     ∧ match upd_startTime updates with
       | None | Some EmptyString => startTime = tt_start_time old
       | Some s => startTime = s
       end
     ∧ match upd_endTime updates with
       | None | Some EmptyString => endTime = tt_end_time old
       | Some e => endTime = e
       end
     ∧ js_lt startTime endTime = true
     ∧ (∀ id, id ≠ timetableId → timetables run.1.2 !! id = timetables d !! id)
     ∧ colleges run.1.2 = colleges d ∧ students run.1.2 = students d
     ∧ courses run.1.2 = courses d
     ∧ student_courses run.1.2 = student_courses d)
  ∧ (admin_success run.1.1 = false → run.1.2 = d).
Proof.
  intros _ _ _ run. subst run.
  destruct (updateTimetable_effect fault timetableId updates d)
    as [(old & new_day & Hday & Hold & Hlt & _ & Hrun)|[Hfail Hsame]].
  - rewrite Hrun. simpl. split; [|done]. intros _.
    exists old, (new_day (tt_day_of_week old)),
      (js_or_field (upd_startTime updates) (tt_start_time old)),
      (js_or_field (upd_endTime updates) (tt_end_time old)).
    rewrite lookup_insert_eq. repeat split; try done.
    + unfold update_day in Hday.
      destruct (upd_dayOfWeek updates) as [[|c name]|]; simplify_eq; try done.
      destruct (weekday_of_name (String c name)) as [day|] eqn:Hname;
        simplify_eq.
      unfold weekday_of_name in Hname.
      repeat match type of Hname with
      | (if String.eqb ?s ?n then _ else _) = _ =>
          destruct (String.eqb_spec s n) as [->|]; [by simplify_eq|]
      end.
      done.
    + by destruct (upd_startTime updates) as [[|c s]|].
    + by destruct (upd_endTime updates) as [[|c s]|].
    + intros id Hne. by rewrite lookup_insert_ne.
  - split; [by rewrite Hfail|done].
Qed.

Lemma updateTimetable_rewrites_exactly_one_slot_witness :
  ∃ old day startTime endTime,
    timetables enrolled_db !! 7 = Some old
    ∧ (updateTimetable no_fault 7 (Updates (Some "Friday") (Some "") None)
         enrolled_db).1.1
      = TimetableUpdated 7 day startTime endTime
    ∧ "Friday" = weekday_name day
    ∧ startTime = tt_start_time old
    ∧ endTime = tt_end_time old.
Proof.
  destruct (updateTimetable_rewrites_exactly_one_slot no_fault 7
              (Updates (Some "Friday") (Some "") None) enrolled_db)
    as [Hupdated _];
    [apply (bool_decide_unpack _); vm_compute; reflexivity
    |by left|done|].
  destruct (Hupdated eq_refl)
    as (old & day & s & e & Hold & Hres & _ & Hday & Hs & He & _).
  exists old, day, s, e. auto.
Defined.

Lemma updateTimetable_carried_out (fault : nat → option sql_error)
    (timetableId : Z) (updates : timetable_updates)
    (new_day : weekday → weekday) (old : timetable_row) (d : db) :
  let day := new_day (tt_day_of_week old) in
  let startTime := js_or_field (upd_startTime updates) (tt_start_time old) in
  let endTime := js_or_field (upd_endTime updates) (tt_end_time old) in
  (∀ n, fault n = None) →
  update_day (upd_dayOfWeek updates) = Some new_day →
  timetables d !! timetableId = Some old →
  sql_time_lt startTime endTime = true →
  update_conflicts d timetableId (tt_course_id old) day startTime endTime = [] →
  (updateTimetable fault timetableId updates d).1
  = (TimetableUpdated timetableId day startTime endTime,
     set_timetables d
       (<[timetableId := TimetableRow (tt_course_id old) day startTime endTime]>
          (timetables d))).
Proof.
  intros day startTime endTime Hfault Hday Hold Hlt Hfree.
  pose proof (updateTimetable_outcome fault timetableId updates new_day d Hday)
    as Hout.
  destruct (updateTimetable fault timetableId updates d)
    as [[res after] trace]. simpl in Hout |- *.
  subst day startTime endTime. apply js_ge_false in Hlt.
  inversion Hout; subst;
    try match goal with H : fault _ = Some _ |- _ =>
          by rewrite Hfault in H end;
    try match goal with H : timetables _ !! _ = _ |- _ =>
          rewrite Hold in H; simplify_eq end;
    try congruence.
  - match goal with H : update_timetable _ _ _ _ _ = inl _ |- _ =>
      unfold update_timetable in H; rewrite Hold in H;
      apply js_ge_false in Hlt; by rewrite Hlt in H
    end.
  - match goal with H : update_timetable _ _ _ _ _ = inr _ |- _ =>
      eapply update_timetable_inr in H; [|done]; by subst
    end.
Qed.

Lemma update_day_idemp (dayOfWeek : option string)
    (new_day : weekday → weekday) (day : weekday) :
  update_day dayOfWeek = Some new_day → new_day (new_day day) = new_day day.
Proof.
  unfold update_day. intros Hday.
  destruct dayOfWeek as [[|c name]|]; simplify_eq; try done.
  by destruct (weekday_of_name (String c name)); simplify_eq.
Qed.

Lemma js_or_field_idemp (field : option string) (existing : string) :
  js_or_field field (js_or_field field existing) = js_or_field field existing.
Proof. by destruct field as [[|c s]|]. Qed.

Lemma update_conflicts_own_row (d : db) (timetableId courseId : Z)
    (day : weekday) (startTime endTime : string) (row : timetable_row) :
  update_conflicts d timetableId courseId day startTime endTime = [] →
  update_conflicts
    (set_timetables d (<[timetableId := row]> (timetables d)))
    timetableId courseId day startTime endTime = [].
Proof.
  intros Hfree.
  destruct (empty_or_element
              (update_conflicts
                 (set_timetables d (<[timetableId := row]> (timetables d)))
                 timetableId courseId day startTime endTime))
    as [Hnil|[conflict Hin]]; [done|].
  exfalso.
  apply elem_of_select_conflicts in Hin
    as (sid & st & id & t & c & Hen1 & Hst & Hen2 & Ht & Hc & Hsame & Hlt1
        & Hlt2 & Hkeep & ->).
  pose proof Hkeep as Hne. apply bool_decide_eq_true in Hne.
  simpl in Ht. rewrite lookup_insert_ne in Ht by done.
  assert (ConflictRow sid (st_name st) (co_code c) (tt_day_of_week t)
            (tt_start_time t) (tt_end_time t)
          ∈ update_conflicts d timetableId courseId day startTime endTime)
    as Hold.
  { apply elem_of_select_conflicts. exists sid, st, id, t, c. auto 12. }
  rewrite Hfree in Hold. by apply not_elem_of_nil in Hold.
Qed.

(** X18. Repeating an update changes nothing further: after a successful
    [updateTimetable], the same call again, with storage answering every
    statement, succeeds with the same result and leaves the tables as the
    first call left them. *)
Theorem updateTimetable_idempotent
    (fault fault' : nat → option sql_error) (timetableId : Z)
    (updates : timetable_updates) (d : db) :
  (∀ n, fault' n = None) →
  let first := updateTimetable fault timetableId updates d in
  admin_success first.1.1 = true →
  (updateTimetable fault' timetableId updates first.1.2).1 = first.1.
Proof.
  intros Hfault' first Hok. subst first.
  destruct (updateTimetable_effect fault timetableId updates d)
    as [(old & new_day & Hday & Hold & Hlt & Hfree & Hrun)|[Hfail _]];
    [|by rewrite Hok in Hfail].
  rewrite Hrun. simpl.
  set (new := TimetableRow (tt_course_id old) (new_day (tt_day_of_week old))
                (js_or_field (upd_startTime updates) (tt_start_time old))
                (js_or_field (upd_endTime updates) (tt_end_time old))).
  rewrite (updateTimetable_carried_out fault' timetableId updates new_day new
             (set_timetables d (<[timetableId := new]> (timetables d)))
             Hfault' Hday).
  - subst new. simpl.
    rewrite (update_day_idemp _ _ _ Hday), !js_or_field_idemp.
    by rewrite insert_insert_eq.
  - simpl. apply lookup_insert_eq.
  - subst new. simpl. by rewrite !js_or_field_idemp.
  - subst new. simpl.
    rewrite (update_day_idemp _ _ _ Hday), !js_or_field_idemp.
    by apply update_conflicts_own_row.
Qed.

Lemma updateTimetable_idempotent_witness :
  (updateTimetable no_fault 7 (Updates (Some "Friday") None None)
     (updateTimetable no_fault 7 (Updates (Some "Friday") None None)
        enrolled_db).1.2).1
  = (updateTimetable no_fault 7 (Updates (Some "Friday") None None)
       enrolled_db).1.
Proof.
  apply (updateTimetable_idempotent no_fault no_fault 7
           (Updates (Some "Friday") None None) enrolled_db);
    [done | reflexivity].
Defined.

(** ** Adding a course *)



(** The unique key files a code without regard to the case of its letters;
    a course of a college that does not exist is refused by the foreign
    key. *)
Example addCourse_on_the_sample_data :
  (addCourse no_fault "cs101" "Computing" 1 3 sample_db).1
  = (CourseCodeExists, sample_db)
  ∧ (addCourse no_fault "CS101" "Computing" 9 3 sample_db).1
    = (AdminFailed, sample_db)
  ∧ (addCourse no_fault "CS301" "Compilers" 1 3 sample_db).1.1
    = CourseAdded 6.
Proof. repeat split; reflexivity. Qed.

(** ** The constraints of the schema along histories *)

Lemma addCourse_db_fresh (fault : nat → option sql_error)
    (courseCode courseName : string) (collegeId credits : Z) (d : db) :
  (addCourse fault courseCode courseName collegeId credits d).1.2 = d
  ∨ ((∀ id c, courses d !! id = Some c →
              ¬ (co_code c = courseCode ∧ co_college_id c = collegeId))
     ∧ is_Some (colleges d !! collegeId)
     ∧ (addCourse fault courseCode courseName collegeId credits d).1.2
       = set_courses d
           (<[next_id (courses d) :=
                CourseRow courseCode courseName collegeId credits]>
              (courses d))).
Proof.
  unfold addCourse, with_pool. destruct (fault 0%nat); [by left|].
  destruct (insert_course_cases courseCode courseName collegeId credits d)
    as [[->| ->]|[[_ ->]|[(_ & _ & ->)|(Hfree & Hsome & ->)]]]; auto.
Qed.

Lemma operation_same_college (fault : nat → option sql_error) (op : operation)
    (d : db) :
  referential d → same_college d → same_college (run_operation fault op d).
Proof.
  intros Href Hsame. destruct op; unfold run_operation.
  - destruct (saveStudentCourses_db fault studentId courseIds d)
      as [->|(s & committed & Hpass & Hsub & ->)]; [done|].
    intros sid c st co Hen Hst Hco.
    apply enrolled_enroll_db in Hen as [Hold|[-> Hin]];
      [by apply (Hsame sid c)|].
    apply (elem_of_sublist _ _ _ Hsub) in Hin.
    destruct Hpass as (Hs & _ & Hforeign & _).
    simpl in Hst, Hco. assert (st = s) as -> by congruence.
    destruct (decide (co_college_id co = st_college_id s)) as [|Hne];
      [done|].
    assert ((c, co) ∈ foreign_courses d (st_college_id s)
                        (distinct (js_elements courseIds))) as Hf
      by (by apply elem_of_foreign_courses).
    rewrite Hforeign in Hf. by apply not_elem_of_nil in Hf.
  - destruct (dropCourse_db fault studentId courseId d) as [->| ->]; [done|].
    intros sid c st co Hen. apply Hsame.
    unfold enrolled in *. simpl in Hen.
    by apply list_elem_of_filter in Hen as [_ ?].
  - destruct (addTimetable_db fault courseId dayOfWeek startTime endTime d)
      as [->|(day & id & _ & _ & ->)]; done.
  - destruct (updateTimetable_db fault timetableId updates d)
      as [->|(old & day & s & e & _ & _ & ->)]; done.
  - destruct (deleteTimetable_db fault timetableId d) as [->| ->]; done.
  - destruct (addCourse_db_fresh fault courseCode courseName collegeId credits
                d) as [->|(_ & _ & ->)]; [done|].
    intros sid c st co Hen Hst Hco. simpl in Hst, Hco.
    destruct (Href sid c Hen) as [_ [co' Hco']].
    rewrite lookup_insert_ne in Hco; [by apply (Hsame sid c st co)|].
    intros <-. by rewrite next_id_fresh in Hco'.
Qed.

Lemma operation_unique_enrollments (fault : nat → option sql_error)
    (op : operation) (d : db) :
  unique_enrollments d → unique_enrollments (run_operation fault op d).
Proof.
  unfold unique_enrollments. intros Hnd. destruct op; unfold run_operation.
  - destruct (saveStudentCourses_db fault studentId courseIds d)
      as [->|(s & committed & Hpass & Hsub & ->)]; [done|].
    simpl. apply NoDup_app. split; [done|].
    pose proof (NoDup_distinct (js_elements courseIds)) as Hunique.
    pose proof (sublist_NoDup _ _ Hunique Hsub) as Hcommitted.
    split.
    + intros [sid c] Hold Hnew.
      apply list_elem_of_fmap in Hnew as (c' & [= -> ->] & Hin).
      apply (elem_of_sublist _ _ _ Hsub) in Hin.
      destruct Hpass as (_ & Hlen & _ & _ & _ & Halready).
      destruct (found_course d _ c' Hunique Hlen Hin) as [co Hco].
      pose proof (already_enrolled_named d _ c' _ co Hold Hin Hco) as Hnamed.
      rewrite Halready in Hnamed. by apply not_elem_of_nil in Hnamed.
    + apply NoDup_fmap_2; [|done]. by intros c1 c2 [= ->].
  - destruct (dropCourse_db fault studentId courseId d) as [->| ->]; [done|].
    simpl. by apply NoDup_filter.
  - destruct (addTimetable_db fault courseId dayOfWeek startTime endTime d)
      as [->|(day & id & _ & _ & ->)]; done.
  - destruct (updateTimetable_db fault timetableId updates d)
      as [->|(old & day & s & e & _ & _ & ->)]; done.
  - destruct (deleteTimetable_db fault timetableId d) as [->| ->]; done.
  - destruct (addCourse_db fault courseCode courseName collegeId credits d)
      as [->|(id & row & ->)]; done.
Qed.

Lemma operation_courses_well_formed (fault : nat → option sql_error)
    (op : operation) (d : db) :
  courses_well_formed d → courses_well_formed (run_operation fault op d).
Proof.
  intros Hwf. destruct op; unfold run_operation.
  - destruct (saveStudentCourses_db fault studentId courseIds d)
      as [->|(s & committed & _ & _ & ->)]; done.
  - destruct (dropCourse_db fault studentId courseId d) as [->| ->]; done.
  - destruct (addTimetable_db fault courseId dayOfWeek startTime endTime d)
      as [->|(day & id & _ & _ & ->)]; done.
  - destruct (updateTimetable_db fault timetableId updates d)
      as [->|(old & day & s & e & _ & _ & ->)]; done.
  - destruct (deleteTimetable_db fault timetableId d) as [->| ->]; done.
  - destruct (addCourse_db_fresh fault courseCode courseName collegeId credits
                d) as [->|(Hfree & Hcollege & ->)]; [done|].
    destruct Hwf as [Hunique Hfk]. split; simpl.
    + intros id1 id2 c1 c2 H1 H2 Hcode Hcol.
      apply lookup_insert_Some in H1 as [[<- <-]|[Hne1 H1]];
        apply lookup_insert_Some in H2 as [[<- <-]|[Hne2 H2]].
      * done.
      * simpl in Hcode, Hcol. by destruct (Hfree id2 c2 H2).
      * simpl in Hcode, Hcol. by destruct (Hfree id1 c1 H1).
      * by apply (Hunique id1 id2 c1 c2).
    + intros id c Hc.
      apply lookup_insert_Some in Hc as [[<- <-]|[Hne Hc]]; [done|].
      by apply (Hfk id c).
Qed.

Lemma operation_timetables_well_formed (fault : nat → option sql_error)
    (op : operation) (d : db) :
  timetables_well_formed d →
  timetables_well_formed (run_operation fault op d).
Proof.
  intros Hwf. destruct op; unfold run_operation.
  - destruct (saveStudentCourses_db fault studentId courseIds d)
      as [->|(s & committed & _ & _ & ->)]; done.
  - destruct (dropCourse_db fault studentId courseId d) as [->| ->]; done.
  - destruct (addTimetable_effect fault courseId dayOfWeek startTime endTime d)
      as [(day & id & _ & Hlt & Hcourse & _ & _ & Hrun)|[_ ->]]; [|done].
    rewrite Hrun. intros id' t Ht. simpl in Ht |- *.
    apply lookup_insert_Some in Ht as [[_ <-]|[_ Ht]]; [done|].
    by apply (Hwf id' t).
  - destruct (updateTimetable_effect fault timetableId updates d)
      as [(old & new_day & _ & Hold & Hlt & _ & Hrun)|[_ ->]]; [|done].
    rewrite Hrun. intros id' t Ht. simpl in Ht |- *.
    apply lookup_insert_Some in Ht as [[_ <-]|[_ Ht]];
      [|by apply (Hwf id' t)].
    split; [done|]. simpl. by apply (Hwf timetableId old).
  - destruct (deleteTimetable_db fault timetableId d) as [->| ->]; [done|].
    intros id t Ht. simpl in Ht |- *.
    apply lookup_delete_Some in Ht as [_ Ht]. by apply (Hwf id t).
  - destruct (addCourse_db fault courseCode courseName collegeId credits d)
      as [->|(id & row & ->)]; [done|].
    intros id' t Ht. simpl in Ht |- *.
    destruct (Hwf id' t Ht) as [Hlt [c Hc]]. split; [done|].
    destruct (decide (id = tt_course_id t)) as [<-|Hne].
    + rewrite lookup_insert_eq. eauto.
    + rewrite lookup_insert_ne by done. eauto.
Qed.

Example sample_db_constraints :
  same_college sample_db ∧ unique_enrollments sample_db
  ∧ courses_well_formed sample_db ∧ timetables_well_formed sample_db.
Proof.
  split; [|split; [|split]].
  - intros sid c s co Hen. by apply not_elem_of_nil in Hen.
  - apply NoDup_nil_2.
  - split.
    + intros id1 id2 c1 c2 H1 H2.
      apply elem_of_map_to_list in H1, H2.
      vm_compute map_to_list in H1, H2.
      rewrite !elem_of_cons in H1, H2.
      destruct H1 as [H1|[H1|[H1|[H1|[H1|H1]]]]];
        try (by apply not_elem_of_nil in H1); injection H1 as -> ->;
        destruct H2 as [H2|[H2|[H2|[H2|[H2|H2]]]]];
        try (by apply not_elem_of_nil in H2); injection H2 as -> ->;
        done.
    + intros id c Hc.
      apply elem_of_map_to_list in Hc.
      vm_compute map_to_list in Hc.
      rewrite !elem_of_cons in Hc.
      destruct Hc as [Hc|[Hc|[Hc|[Hc|[Hc|Hc]]]]];
        try (by apply not_elem_of_nil in Hc); injection Hc as -> ->;
        by eexists.
  - intros id t Ht.
    apply elem_of_map_to_list in Ht.
    vm_compute map_to_list in Ht.
    rewrite !elem_of_cons in Ht.
    repeat (destruct Ht as [Ht|Ht];
            [injection Ht as -> ->; split; [reflexivity|by eexists]|]).
    by apply not_elem_of_nil in Ht.
Qed.

(** X20. No history of operations, whatever storage failures they meet,
    enrolls a student in a course of another college: from tables in which
    every enrollment joins a student and a course of one college (and refers
    to existing rows), every sequence of enrollments, drops, timetable
    mutations and course additions leads to such tables. *)
Theorem history_keeps_same_college
    (steps : list ((nat → option sql_error) * operation)) (d : db) :
  referential d → same_college d →
  same_college (run_history steps d).
Proof.
  revert d. induction steps as [|[fault op] steps IH]; intros d Href Hsame;
    [done|].
  simpl. apply IH.
  - by apply operation_referential.
  - by apply operation_same_college.
Qed.

Lemma history_keeps_same_college_witness :
  same_college
    (run_history
       [(no_fault, OpEnroll (JsNumber 1) (JsArray [1; 4]));
        (no_fault, OpAddCourse "CS301" "Compilers" 2 3);
        (no_fault, OpEnroll (JsNumber 1) (JsArray [6]));
        (no_fault, OpDropCourse 1 4)] sample_db).
Proof.
  apply (history_keeps_same_college
           [(no_fault, OpEnroll (JsNumber 1) (JsArray [1; 4]));
            (no_fault, OpAddCourse "CS301" "Compilers" 2 3);
            (no_fault, OpEnroll (JsNumber 1) (JsArray [6]));
            (no_fault, OpDropCourse 1 4)] sample_db).
  - apply referentialb_sound. reflexivity.
  - apply sample_db_constraints.
Defined.

(** X21. No history of operations, whatever storage failures they meet,
    stores the same enrollment twice: from tables without a repeated
    (student, course) pair every sequence of operations leads to tables
    without one. *)
Theorem history_keeps_enrollments_unique
    (steps : list ((nat → option sql_error) * operation)) (d : db) :
  unique_enrollments d → unique_enrollments (run_history steps d).
Proof.
  revert d. induction steps as [|[fault op] steps IH]; intros d Hnd; [done|].
  simpl. by apply IH, operation_unique_enrollments.
Qed.

Lemma history_keeps_enrollments_unique_witness :
  unique_enrollments
    (run_history
       [(no_fault, OpEnroll (JsNumber 1) (JsArray [1; 4; 1]));
        (no_fault, OpEnroll (JsNumber 1) (JsArray [4; 2]));
        (no_fault, OpEnroll (JsNumber 2) (JsArray [1]))] sample_db).
Proof.
  apply (history_keeps_enrollments_unique
           [(no_fault, OpEnroll (JsNumber 1) (JsArray [1; 4; 1]));
            (no_fault, OpEnroll (JsNumber 1) (JsArray [4; 2]));
            (no_fault, OpEnroll (JsNumber 2) (JsArray [1]))] sample_db).
  apply sample_db_constraints.
Defined.

(** X22. No history of operations, whatever storage failures they meet,
    gives two courses of one college the same code or stores a course of a
    college that does not exist, starting from tables where neither is the
    case. *)
Theorem history_keeps_courses_well_formed
    (steps : list ((nat → option sql_error) * operation)) (d : db) :
  courses_well_formed d → courses_well_formed (run_history steps d).
Proof.
  revert d. induction steps as [|[fault op] steps IH]; intros d Hwf; [done|].
  simpl. by apply IH, operation_courses_well_formed.
Qed.

Lemma history_keeps_courses_well_formed_witness :
  courses_well_formed
    (run_history
       [(no_fault, OpAddCourse "CS301" "Compilers" 1 3);
        (no_fault, OpAddCourse "CS301" "Compilers, again" 1 4);
        (no_fault, OpAddCourse "CS301" "Compilers" 2 3)] sample_db).
Proof.
  apply (history_keeps_courses_well_formed
           [(no_fault, OpAddCourse "CS301" "Compilers" 1 3);
            (no_fault, OpAddCourse "CS301" "Compilers, again" 1 4);
            (no_fault, OpAddCourse "CS301" "Compilers" 2 3)] sample_db).
  apply sample_db_constraints.
Defined.

(** X23. No history of operations, whatever storage failures they meet,
    stores a slot whose start is not before its end or whose course does not
    exist, starting from tables where every slot is well-formed. *)
Theorem history_keeps_timetables_well_formed
    (steps : list ((nat → option sql_error) * operation)) (d : db) :
  timetables_well_formed d → timetables_well_formed (run_history steps d).
Proof.
  revert d. induction steps as [|[fault op] steps IH]; intros d Hwf; [done|].
  simpl. by apply IH, operation_timetables_well_formed.
Qed.

Lemma history_keeps_timetables_well_formed_witness :
  timetables_well_formed
    (run_history
       [(no_fault, OpAddTimetable 2 "Friday" "09:00:00" "10:00:00");
        (no_fault, OpUpdateTimetable 10 (Updates None None (Some "08:00:00")));
        (no_fault, OpUpdateTimetable 10 (Updates (Some "Monday") None None))]
       sample_db).
Proof.
  apply (history_keeps_timetables_well_formed
           [(no_fault, OpAddTimetable 2 "Friday" "09:00:00" "10:00:00");
            (no_fault,
             OpUpdateTimetable 10 (Updates None None (Some "08:00:00")));
            (no_fault,
             OpUpdateTimetable 10 (Updates (Some "Monday") None None))]
           sample_db).
  apply sample_db_constraints.
Defined.

(** ** Enrolling and then dropping *)

Lemma filter_all {A} (P : A → Prop) `{!∀ x, Decision (P x)} (l : list A) :
  (∀ x, x ∈ l → P x) → filter P l = l.
Proof.
  induction l as [|x l IH]; intros Hall; [done|].
  rewrite filter_cons_True by (apply Hall; left).
  rewrite IH; [done|]. intros y Hy. apply Hall. by right.
Qed.

Lemma filter_none {A} (P : A → Prop) `{!∀ x, Decision (P x)} (l : list A) :
  (∀ x, x ∈ l → ¬ P x) → filter P l = [].
Proof.
  induction l as [|x l IH]; intros Hnone; [done|].
  rewrite filter_cons_False by (apply Hnone; left).
  apply IH. intros y Hy. apply Hnone. by right.
Qed.

Lemma drop_all_courses (fault : nat → option sql_error) (studentId : Z)
    (ids : list Z) (d : db) :
  fault 0%nat = None →
  foldr (λ courseId tables, (dropCourse fault studentId courseId tables).1.2)
        d ids
  = set_student_courses d
      (filter (λ sc, ¬ (sc.1 = studentId ∧ sc.2 ∈ ids)) (student_courses d)).
Proof.
  intros Hfault. induction ids as [|c ids IH]; simpl.
  - rewrite filter_all; [by rewrite set_student_courses_id|].
    intros sc _ [_ Hin]. by apply not_elem_of_nil in Hin.
  - rewrite IH, (dropCourse_no_fault _ _ _ _ Hfault). simpl.
    unfold set_student_courses. simpl. f_equal.
    rewrite list_filter_filter. apply list_filter_iff.
    intros [sid c']. simpl. rewrite elem_of_cons. split.
    + intros [Hne Hrest] [-> [->|Hin]]; [done|]. by apply Hrest.
    + intros Hnot. split.
      * intros [= -> ->]. apply Hnot. auto.
      * intros [-> Hin]. apply Hnot. auto.
Qed.

(** X24. Dropping undoes enrolling: after a successful [saveStudentCourses],
    whatever storage failures it met, each requested course can be dropped,
    and dropping all of them, in any order in which the statements go
    through, leaves every table exactly as it was before the enrollment. *)
Theorem enroll_then_drop_restores
    (fault fault' : nat → option sql_error) (studentId : Z)
    (ids dropped : list Z) (d : db) :
  fault' 0%nat = None → dropped ≡ₚ ids →
  let run := saveStudentCourses fault (JsNumber studentId) (JsArray ids) d in
  enroll_success run.1.1 = true →
  (∀ c, c ∈ ids → (dropCourse fault' studentId c run.1.2).1.1 = DropSuccess)
  ∧ foldr (λ courseId tables,
             (dropCourse fault' studentId courseId tables).1.2)
          run.1.2 dropped
    = d.
Proof.
  intros Hfault' Hperm run Hok. subst run.
  destruct (saveStudentCourses_success_guards _ _ _ _ Hok)
    as (_ & _ & s & Hpass & Hrun).
  rewrite Hrun. simpl. split.
  - intros c Hin. rewrite (dropCourse_no_fault _ _ _ _ Hfault'). simpl.
    rewrite decide_True; [done|].
    apply enrolled_enroll_db. right. split; [done|].
    by apply elem_of_distinct.
  - rewrite (drop_all_courses _ _ _ _ Hfault'). simpl.
    rewrite filter_app.
    destruct Hpass as (_ & Hlen & _ & _ & _ & Halready).
    rewrite filter_all, filter_none.
    + rewrite app_nil_r. by destruct d.
    + intros sc [c [-> Hc]]%list_elem_of_fmap Hnot. apply Hnot. simpl.
      split; [done|]. rewrite Hperm.
      exact (proj1 (elem_of_distinct ids c) Hc).
    + intros [sid c] Hold [Hsid Hin]. simpl in Hsid, Hin. subst sid.
      rewrite Hperm in Hin. apply (elem_of_distinct ids c) in Hin.
      destruct (found_course d _ c (NoDup_distinct ids) Hlen Hin) as [co Hco].
      pose proof (already_enrolled_named d _ c _ co Hold Hin Hco) as Hnamed.
      rewrite Halready in Hnamed. by apply not_elem_of_nil in Hnamed.
Qed.

Lemma enroll_then_drop_restores_witness :
  foldr (λ courseId tables, (dropCourse no_fault 1 courseId tables).1.2)
        (saveStudentCourses no_fault (JsNumber 1) (JsArray [1; 4; 1])
           sample_db).1.2
        [4; 1; 1]
  = sample_db.
Proof.
  apply (enroll_then_drop_restores no_fault no_fault 1 [1; 4; 1] [4; 1; 1]
           sample_db eq_refl).
  - apply perm_swap.
  - reflexivity.
Defined.

(** ** The read-only methods *)

Lemma string_compare_le_trans (a b c : string) :
  String.compare a b ≠ Gt → String.compare b c ≠ Gt → String.compare a c ≠ Gt.
Proof.
  revert b c. induction a as [|x a IH]; intros [|y b] [|z c]; simpl;
    try done.
  unfold Ascii.compare.
  destruct (N.compare_spec (N_of_ascii x) (N_of_ascii y)) as [Hxy|Hxy|Hxy],
           (N.compare_spec (N_of_ascii y) (N_of_ascii z)) as [Hyz|Hyz|Hyz],
           (N.compare_spec (N_of_ascii x) (N_of_ascii z)) as [Hxz|Hxz|Hxz];
    try done; try lia.
  apply IH.
Qed.

Lemma string_ltb_false (a b : string) :
  String.ltb a b = false ↔ String.compare b a ≠ Gt.
Proof.
  unfold String.ltb. rewrite (String.compare_antisym b a).
  destruct (String.compare a b); simpl; split; congruence.
Qed.

Lemma string_ltb_true (a b : string) :
  String.ltb a b = true ↔ String.compare a b = Lt.
Proof. unfold String.ltb. destruct (String.compare a b); split; congruence. Qed.

Lemma string_ltb_le (a b : string) :
  String.ltb a b = true → String.ltb b a = false.
Proof.
  rewrite string_ltb_true, string_ltb_false. congruence.
Qed.

Lemma string_lt_le_trans (a b c : string) :
  String.ltb a b = true → String.ltb c b = false → String.ltb a c = true.
Proof.
  intros Hab Hbc. pose proof (string_ltb_le a b Hab) as Hab'.
  rewrite string_ltb_false in Hab', Hbc. rewrite string_ltb_true in Hab |- *.
  pose proof (string_compare_le_trans a b c Hab' Hbc) as Hac.
  destruct (String.compare a c) eqn:Hcmp; [|done|done].
  apply String.compare_eq_iff in Hcmp as ->.
  rewrite String.compare_antisym, Hab in Hbc. by destruct Hbc.
Qed.

Lemma string_le_lt_trans (a b c : string) :
  String.ltb b a = false → String.ltb b c = true → String.ltb a c = true.
Proof.
  intros Hab Hbc. pose proof (string_ltb_le b c Hbc) as Hbc'.
  rewrite string_ltb_false in Hab, Hbc'. rewrite string_ltb_true in Hbc |- *.
  pose proof (string_compare_le_trans a b c Hab Hbc') as Hac.
  destruct (String.compare a c) eqn:Hcmp; [|done|done].
  apply String.compare_eq_iff in Hcmp as ->.
  rewrite String.compare_antisym, Hbc in Hab. by destruct Hab.
Qed.

Lemma sql_time_le_trans (a b c : string) :
  sql_time_lt b a = false → sql_time_lt c b = false → sql_time_lt c a = false.
Proof.
  unfold sql_time_lt. rewrite !string_ltb_false.
  apply string_compare_le_trans.
Qed.

Lemma sql_field_weekday (day : weekday) :
  sql_field (weekday_name day)
    ["Monday"; "Tuesday"; "Wednesday"; "Thursday"; "Friday"; "Saturday";
     "Sunday"] = weekday_index day.
Proof. by destruct day. Qed.

Lemma weekday_index_inj (a b : weekday) :
  weekday_index a = weekday_index b → a = b.
Proof. by destruct a, b. Qed.

Lemma listed_le_spec (a b : slot * string) :
  listed_le a b
  ↔ (weekday_index (day_of_week a.1) < weekday_index (day_of_week b.1))%nat
    ∨ (day_of_week a.1 = day_of_week b.1
       ∧ (js_lt (start_time a.1) (start_time b.1) = true
          ∨ (js_lt (start_time b.1) (start_time a.1) = false
             ∧ timetable_id a.1 ≤ timetable_id b.1))).
Proof.
  unfold listed_le. rewrite !sql_field_weekday. unfold sql_time_lt, js_lt.
  split; (intros [Hlt|[Hday Htime]]; [by left|right; split; [|done]]).
  - by apply weekday_index_inj.
  - by rewrite Hday.
Qed.

(** Rows in the order of the listing come by weekday and, within a day, by
    start time. *)
Lemma listed_le_by_day_and_start (a b : slot * string) :
  listed_le a b →
  (weekday_index (day_of_week a.1) < weekday_index (day_of_week b.1))%nat
  ∨ (day_of_week a.1 = day_of_week b.1
     ∧ js_lt (start_time b.1) (start_time a.1) = false).
Proof.
  rewrite listed_le_spec. intros [?|[Hday [Hlt|[Hle _]]]]; auto.
  right. split; [done|]. by apply js_lt_asym.
Qed.

Global Instance listed_le_total : Total listed_le.
Proof.
  intros a b. rewrite !listed_le_spec.
  destruct (lt_eq_lt_dec (weekday_index (day_of_week a.1))
                         (weekday_index (day_of_week b.1)))
    as [[Hlt|Heq]|Hgt]; [by left; left| |by right; left].
  apply weekday_index_inj in Heq.
  destruct (js_lt (start_time a.1) (start_time b.1)) eqn:Hab; [by auto|].
  destruct (js_lt (start_time b.1) (start_time a.1)) eqn:Hba; [by auto|].
  destruct (Z.le_ge_cases (timetable_id a.1) (timetable_id b.1)); auto 10.
Qed.

Global Instance listed_le_trans : Transitive listed_le.
Proof.
  intros a b c. rewrite !listed_le_spec. unfold js_lt.
  intros [Hab|[Hab Htab]] [Hbc|[Hbc Htbc]].
  - left. lia.
  - left. by rewrite <- Hbc.
  - left. by rewrite Hab.
  - right. split; [congruence|].
    destruct Htab as [Hlt1|[Hle1 Hid1]], Htbc as [Hlt2|[Hle2 Hid2]].
    + left. apply (string_lt_le_trans _ (start_time b.1)); [done|].
      by apply string_ltb_le.
    + left. by apply (string_lt_le_trans _ (start_time b.1)).
    + left. by apply (string_le_lt_trans _ (start_time b.1)).
    + right. split; [|lia].
      by apply (sql_time_le_trans _ (start_time b.1)).
Qed.

Lemma join_course_name_Some (d : db) (id : Z) (t : timetable_row)
    (s : slot) (name : string) :
  join_course_name d (id, t) = Some (s, name)
  ↔ ∃ c, courses d !! tt_course_id t = Some c ∧ s = slot_of id t c
         ∧ name = co_name c.
Proof.
  unfold join_course_name, slot_of. simpl.
  destruct (courses d !! tt_course_id t) as [c|]; simpl; split.
  - intros [= <- <-]. by exists c.
  - by intros (c' & [= <-] & -> & ->).
  - done.
  - by intros (c' & ? & _).
Qed.

Lemma elem_of_select_course_timetables (courseId : Z) (d : db) (s : slot)
    (name : string) :
  (s, name) ∈ select_course_timetables courseId d
  ↔ ∃ id t c, timetables d !! id = Some t ∧ tt_course_id t = courseId
              ∧ courses d !! courseId = Some c ∧ s = slot_of id t c
              ∧ name = co_name c.
Proof.
  unfold select_course_timetables.
  rewrite merge_sort_Permutation, list_elem_of_omap. split.
  - intros ([id t] & [Hcourse Hin]%list_elem_of_filter & Hjoin).
    apply elem_of_table_rows in Hin. simpl in Hcourse.
    apply join_course_name_Some in Hjoin as (c & Hc & -> & ->).
    exists id, t, c. by rewrite <- Hcourse at 2.
  - intros (id & t & c & Ht & Hcourse & Hc & -> & ->).
    exists (id, t). split.
    + apply list_elem_of_filter. split; [done|]. by apply elem_of_table_rows.
    + apply join_course_name_Some. exists c. by rewrite Hcourse.
Qed.

Lemma omap_cons {A B} (f : A → option B) (x : A) (l : list A) :
  omap f (x :: l)
  = match f x with Some y => y :: omap f l | None => omap f l end.
Proof. done. Qed.

Lemma NoDup_joined_ids (d : db) (rows : list (Z * timetable_row)) :
  NoDup rows.*1 →
  NoDup ((λ row : slot * string, timetable_id row.1)
           <$> omap (join_course_name d) rows).
Proof.
  induction rows as [|[id t] rows IH]; [constructor|].
  rewrite fmap_cons, omap_cons. intros [Hid Hrest]%NoDup_cons.
  destruct (join_course_name d (id, t)) as [[s name]|] eqn:Hjoin;
    [rewrite fmap_cons|by apply IH].
  apply NoDup_cons. split; [|by apply IH].
  apply join_course_name_Some in Hjoin as (c & _ & -> & _). simpl.
  intros ([s' name'] & Hs' & ([id' t'] & Hin & Hjoin')%list_elem_of_omap)
           %list_elem_of_fmap.
  apply join_course_name_Some in Hjoin' as (c' & _ & -> & _).
  simpl in Hs'. subst id'. apply Hid.
  apply list_elem_of_fmap. by exists (id, t').
Qed.

Lemma NoDup_fst_filter {A B} (P : A * B → Prop) `{!∀ x, Decision (P x)}
    (l : list (A * B)) :
  NoDup l.*1 → NoDup (filter P l).*1.
Proof.
  induction l as [|x l IH]; [done|]. csimpl.
  intros [Hx Hl]%NoDup_cons. rewrite filter_cons.
  destruct (decide (P x)); csimpl; [|by apply IH].
  apply NoDup_cons. split; [|by apply IH].
  intros (y & Hy & [_ Hin]%list_elem_of_filter)%list_elem_of_fmap.
  apply Hx. apply list_elem_of_fmap. by exists y.
Qed.

(** X25. With the statement going through, [getCourseTimetables] lists
    exactly the slots of the course, each once, with the code and name of
    the course (nothing when the course does not exist), ordered from Monday
    to Sunday; when the slot times are HH:MM:SS strings, the slots of a day
    come by start time: of two rows of a day, the earlier in the listing
    does not start after the later. *)
Theorem getCourseTimetables_lists_the_slots_in_order
    (fault : nat → option sql_error) (courseId : Z) (d : db) :
  fault 0%nat = None →
  ∃ data,
    getCourseTimetables fault courseId d = Listing data
    ∧ (∀ s name,
         (s, name) ∈ data
         ↔ ∃ id t c, timetables d !! id = Some t ∧ tt_course_id t = courseId
                     ∧ courses d !! courseId = Some c ∧ s = slot_of id t c
                     ∧ name = co_name c)
    ∧ NoDup ((λ row : slot * string, timetable_id row.1) <$> data)
    ∧ (∀ (i j : nat) a b,
         (i < j)%nat → data !! i = Some a → data !! j = Some b →
         (weekday_index (day_of_week a.1) ≤ weekday_index (day_of_week b.1))%nat)
    ∧ (times_well_formed d →
       ∀ (i j : nat) a b,
         (i < j)%nat → data !! i = Some a → data !! j = Some b →
         day_of_week a.1 = day_of_week b.1 →
         ∃ ta tb, time_of_string (start_time a.1) = Some ta
                  ∧ time_of_string (start_time b.1) = Some tb
                  ∧ (ta ≤ tb)%N).
Proof.
  intros Hfault. exists (select_course_timetables courseId d).
  unfold getCourseTimetables, pool_select. rewrite Hfault.
  split; [done|]. split; [apply elem_of_select_course_timetables|].
  assert (Hordered : ∀ (i j : nat) a b,
            (i < j)%nat → select_course_timetables courseId d !! i = Some a →
            select_course_timetables courseId d !! j = Some b →
            listed_le a b).
  { pose proof (StronglySorted_merge_sort listed_le
                  (omap (join_course_name d)
                     (filter (λ row, tt_course_id row.2 = courseId)
                             (table_rows (timetables d))))) as Hsorted.
    fold (select_course_timetables courseId d) in Hsorted.
    induction Hsorted as [|x l _ IH Hx]; intros i j a b Hij Ha Hb; [done|].
    destruct j as [|j]; [lia|]. destruct i as [|i]; simpl in Ha, Hb.
    + injection Ha as <-. rewrite Forall_forall in Hx. apply Hx.
      by eapply list_elem_of_lookup_2.
    + apply (IH i j); [lia|done|done]. }
  split; [|split].
  - unfold select_course_timetables. rewrite merge_sort_Permutation.
    apply NoDup_joined_ids, NoDup_fst_filter, NoDup_fst_table_rows.
  - intros i j a b Hij Ha Hb.
    destruct (listed_le_by_day_and_start a b (Hordered i j a b Hij Ha Hb))
      as [?|[-> _]]; lia.
  - intros Htimes i j a b Hij Ha Hb Hday.
    destruct (listed_le_by_day_and_start a b (Hordered i j a b Hij Ha Hb))
      as [Hlt|[_ Hle]]; [rewrite Hday in Hlt; lia|].
    assert (Hwf : ∀ row, row ∈ select_course_timetables courseId d →
                         time_well_formed (start_time row.1)).
    { intros [s name] (id & t & c & Ht & _ & _ & -> & _)
               %elem_of_select_course_timetables.
      apply (Htimes id t Ht). }
    destruct (Hwf a (list_elem_of_lookup_2 _ _ _ Ha)) as [ta Hta].
    destruct (Hwf b (list_elem_of_lookup_2 _ _ _ Hb)) as [tb Htb].
    exists ta, tb. split; [done|]. split; [done|].
    rewrite (hhmmss_js_lt _ _ tb ta Htb Hta) in Hle.
    by apply N.ltb_ge in Hle.
Qed.

Lemma getCourseTimetables_lists_the_slots_in_order_witness :
  ∃ data,
    getCourseTimetables no_fault 4 sample_db = Listing data
    ∧ (∀ s name,
         (s, name) ∈ data
         ↔ ∃ id t c, timetables sample_db !! id = Some t ∧ tt_course_id t = 4
                     ∧ courses sample_db !! 4 = Some c ∧ s = slot_of id t c
                     ∧ name = co_name c)
    ∧ NoDup ((λ row : slot * string, timetable_id row.1) <$> data)
    ∧ (∀ (i j : nat) a b,
         (i < j)%nat → data !! i = Some a → data !! j = Some b →
         (weekday_index (day_of_week a.1) ≤ weekday_index (day_of_week b.1))%nat)
    ∧ (times_well_formed sample_db →
       ∀ (i j : nat) a b,
         (i < j)%nat → data !! i = Some a → data !! j = Some b →
         day_of_week a.1 = day_of_week b.1 →
         ∃ ta tb, time_of_string (start_time a.1) = Some ta
                  ∧ time_of_string (start_time b.1) = Some tb
                  ∧ (ta ≤ tb)%N).
Proof.
  apply (getCourseTimetables_lists_the_slots_in_order no_fault 4 sample_db).
  reflexivity.
Defined.

Example getCourseTimetables_of_a_sample_course :
  getCourseTimetables no_fault 4 sample_db
  = Listing
      [(Slot 7 4 Wednesday "10:00:00" "12:00:00" "CS201", "Data Structures");
       (Slot 8 4 Friday "14:00:00" "16:00:00" "CS201", "Data Structures")].
Proof. reflexivity. Qed.

(** X26. A slot that [addTimetable] has added shows in the listing of its
    course: after a successful [addTimetable] with times given as HH:MM:SS
    strings, [getCourseTimetables] of the course lists the rows it listed
    before and, under the identifier that was returned, the new slot with
    the day and times of the call, and nothing else. *)
Theorem addTimetable_then_getCourseTimetables
    (fault fault' : nat → option sql_error) (courseId : Z)
    (dayOfWeek startTime endTime : string) (d : db) (id : Z) (day : weekday) :
  fault' 0%nat = None →
  time_well_formed startTime → time_well_formed endTime →
  let added := addTimetable fault courseId dayOfWeek startTime endTime d in
  added.1.1 = TimetableAdded id courseId day startTime endTime →
  ∃ c before after,
    courses d !! courseId = Some c
    ∧ getCourseTimetables fault' courseId d = Listing before
    ∧ getCourseTimetables fault' courseId added.1.2 = Listing after
    ∧ (∀ row, row ∈ before → timetable_id row.1 ≠ id)
    ∧ (∀ row,
         row ∈ after
         ↔ row ∈ before
           ∨ row = (Slot id courseId day startTime endTime (co_code c),
                    co_name c)).
Proof.
  intros Hfault' _ _ added Hres. subst added.
  destruct (addTimetable_effect fault courseId dayOfWeek startTime endTime d)
    as [(day' & id' & _ & _ & [c Hc] & -> & _ & Hrun)|[Hfail _]];
    [|by rewrite Hres in Hfail].
  rewrite Hrun in Hres |- *. simpl in *. injection Hres as <- <-.
  exists c, (select_course_timetables courseId d),
    (select_course_timetables courseId
       (set_timetables d
          (<[next_id (timetables d) :=
               TimetableRow courseId day' startTime endTime]>
             (timetables d)))).
  unfold getCourseTimetables, pool_select. rewrite Hfault'.
  split; [done|]. split; [done|]. split; [done|]. split.
  - intros [s name] (id & t & c' & Ht & _ & _ & -> & _)
                    %elem_of_select_course_timetables.
    simpl. intros ->. by rewrite next_id_fresh in Ht.
  - intros [s name]. rewrite !elem_of_select_course_timetables. simpl.
    split.
    + intros (id & t & c' & Ht & Hcourse & Hc' & -> & ->).
      apply lookup_insert_Some in Ht as [[<- <-]|[Hne Ht]].
      * right. unfold slot_of. simpl. congruence.
      * left. by exists id, t, c'.
    + intros [(id & t & c' & Ht & Hcourse & Hc' & -> & ->)|[= -> ->]].
      * exists id, t, c'. split; [|done].
        rewrite lookup_insert_ne; [done|].
        intros <-. by rewrite next_id_fresh in Ht.
      * exists (next_id (timetables d)),
          (TimetableRow courseId day' startTime endTime), c.
        by rewrite lookup_insert_eq.
Qed.

Lemma addTimetable_then_getCourseTimetables_witness :
  ∃ c before after,
    courses enrolled_db !! 2 = Some c
    ∧ getCourseTimetables no_fault 2 enrolled_db = Listing before
    ∧ getCourseTimetables no_fault 2
        (addTimetable no_fault 2 "Friday" "09:00:00" "10:00:00"
           enrolled_db).1.2
      = Listing after
    ∧ (∀ row, row ∈ before → timetable_id row.1 ≠ 10)
    ∧ (∀ row,
         row ∈ after
         ↔ row ∈ before
           ∨ row = (Slot 10 2 Friday "09:00:00" "10:00:00" (co_code c),
                    co_name c)).
Proof.
  apply (addTimetable_then_getCourseTimetables no_fault no_fault 2 "Friday"
           "09:00:00" "10:00:00" enrolled_db 10 Friday eq_refl);
    [apply (bool_decide_unpack _); reflexivity
    |apply (bool_decide_unpack _); reflexivity
    |reflexivity].
Defined.

Lemma elem_of_available_ids (group_concat_max_len : nat) (studentId : Z)
    (d : db) (id : Z) :
  id ∈ av_course_id
         <$> select_available_courses group_concat_max_len studentId d
  ↔ ∃ s c, students d !! studentId = Some s ∧ courses d !! id = Some c
           ∧ co_college_id c = st_college_id s.
Proof.
  unfold select_available_courses.
  destruct (students d !! studentId) as [s|]; simpl.
  - rewrite <- list_fmap_compose, list_elem_of_fmap. split.
    + intros ([id' c] & -> & [Hcollege Hin]%list_elem_of_filter).
      apply elem_of_table_rows in Hin. by exists s, c.
    + intros (s' & c & [= <-] & Hc & Hcollege). exists (id, c).
      split; [done|]. apply list_elem_of_filter.
      split; [done|]. by apply elem_of_table_rows.
  - split; [by intros ?%not_elem_of_nil|]. by intros (s & c & ? & _).
Qed.

(** X27. [getAvailableCoursesForStudent] lists the courses of the student's
    college, and these are the courses the first three guards of
    [saveStudentCourses] let through: with storage answering every
    statement, an accepted request ends in 'Student not found', 'Courses not
    found' or '... do not belong to student's college' exactly when it names
    a course that is not listed for the student. *)
Theorem available_courses_pass_the_college_guard
    (group_concat_max_len : nat) (studentId : Z) (ids : list Z) (d : db) :
  studentId ≠ 0 → ids ≠ [] →
  ∃ data,
    getAvailableCoursesForStudent group_concat_max_len no_fault studentId d
    = Listing data
    ∧ (∀ id, id ∈ av_course_id <$> data
             ↔ ∃ s c, students d !! studentId = Some s
                      ∧ courses d !! id = Some c
                      ∧ co_college_id c = st_college_id s)
    ∧ ((∀ id, id ∈ ids → id ∈ av_course_id <$> data)
       ↔ match (saveStudentCourses no_fault (JsNumber studentId) (JsArray ids)
                  d).1.1 with
         | EnrollStudentNotFound | EnrollCoursesNotFound _
         | EnrollWrongCollege _ => False
         | _ => True
         end).
Proof.
  intros Hsid Hids.
  exists (select_available_courses group_concat_max_len studentId d).
  split; [done|]. split; [apply elem_of_available_ids|].
  pose proof (saveStudentCourses_outcome no_fault studentId ids d Hsid Hids)
    as Hout.
  destruct (saveStudentCourses no_fault (JsNumber studentId) (JsArray ids) d)
    as [[res after] trace]. simpl in Hout |- *.
  assert (Hlisted : ∀ s,
            students d !! studentId = Some s →
            length (select_courses (distinct ids) d) = length (distinct ids) →
            foreign_courses d (st_college_id s) (distinct ids) = [] →
            ∀ id, id ∈ ids →
              id ∈ av_course_id
                     <$> select_available_courses group_concat_max_len
                           studentId d).
  { intros s Hs Hlen Hforeign id Hin. apply elem_of_available_ids.
    apply (elem_of_distinct ids) in Hin.
    destruct (found_course d _ id (NoDup_distinct ids) Hlen Hin) as [c Hc].
    exists s, c. split; [done|]. split; [done|].
    destruct (decide (co_college_id c = st_college_id s)) as [|Hne]; [done|].
    assert ((id, c) ∈ foreign_courses d (st_college_id s) (distinct ids))
      as Hf by (by apply elem_of_foreign_courses).
    rewrite Hforeign in Hf. by apply not_elem_of_nil in Hf. }
  assert (Hguards : (∀ id, id ∈ ids →
              id ∈ av_course_id
                     <$> select_available_courses group_concat_max_len
                           studentId d) →
            ∃ s, students d !! studentId = Some s
                 ∧ length (select_courses (distinct ids) d)
                   = length (distinct ids)
                 ∧ foreign_courses d (st_college_id s) (distinct ids) = []).
  { intros Hall.
    destruct ids as [|id0 ids0]; [done|].
    destruct (proj1 (elem_of_available_ids _ _ _ _)
                    (Hall id0 ltac:(left))) as (s & _ & Hs & _).
    exists s. split; [done|]. split.
    - apply select_courses_all_found; [apply NoDup_distinct|].
      destruct (empty_or_element
                  (missing_courses d (distinct (id0 :: ids0))))
        as [Hnil|[id Hin]]; [done|].
      apply elem_of_missing_courses in Hin as [Hin Hnone].
      apply (elem_of_distinct (id0 :: ids0)) in Hin.
      destruct (proj1 (elem_of_available_ids _ _ _ _) (Hall id Hin))
        as (_ & c & _ & Hc & _).
      congruence.
    - destruct (empty_or_element
                  (foreign_courses d (st_college_id s)
                     (distinct (id0 :: ids0))))
        as [Hnil|[[id c] Hin]]; [done|].
      apply elem_of_foreign_courses in Hin as (Hin & Hc & Hne).
      apply (elem_of_distinct (id0 :: ids0)) in Hin.
      destruct (proj1 (elem_of_available_ids _ _ _ _) (Hall id Hin))
        as (s' & c' & Hs' & Hc' & Hcollege).
      congruence. }
  inversion Hout; subst; unfold guards_pass in *;
    try match goal with H : no_fault _ = Some _ |- _ => discriminate H end.
  - split; [|done]. intros Hall. destruct (Hguards Hall) as (s & Hs & _).
    congruence.
  - split; [|done]. intros Hall.
    destruct (Hguards Hall) as (s' & _ & Hlen & _). congruence.
  - split; [|done]. intros Hall.
    destruct (Hguards Hall) as (s' & Hs' & _ & Hforeign).
    assert (s' = s) as -> by congruence. congruence.
  - split; [done|]. intros _. by apply (Hlisted s).
  - split; [done|]. intros _. by apply (Hlisted s).
  - split; [done|]. intros _. by apply (Hlisted s).
  - split; [by destruct e|]. intros _. apply (Hlisted s); tauto.
  - split; [done|]. intros _. apply (Hlisted s); tauto.
Qed.

Lemma available_courses_pass_the_college_guard_witness :
  ∃ data,
    getAvailableCoursesForStudent 1024 no_fault 3 sample_db = Listing data
    ∧ (∀ id, id ∈ av_course_id <$> data
             ↔ ∃ s c, students sample_db !! 3 = Some s
                      ∧ courses sample_db !! id = Some c
                      ∧ co_college_id c = st_college_id s)
    ∧ ((∀ id, id ∈ [5; 1] → id ∈ av_course_id <$> data)
       ↔ match (saveStudentCourses no_fault (JsNumber 3) (JsArray [5; 1])
                  sample_db).1.1 with
         | EnrollStudentNotFound | EnrollCoursesNotFound _
         | EnrollWrongCollege _ => False
         | _ => True
         end).
Proof.
  apply (available_courses_pass_the_college_guard 1024 3 [5; 1] sample_db);
    [lia | done].
Defined.


Example getAvailableCoursesForStudent_of_a_sample_student :
  getAvailableCoursesForStudent 1024 no_fault 3 sample_db
  = Listing
      [AvailableCourse 5 "CS102" "Programming Fundamentals" 3
         (Some "Monday 09:00:00-11:00:00")]
  ∧ group_concat_timetable 1024 1 sample_db
    = Some "Monday 09:00:00-10:00:00; Tuesday 10:00:00-11:00:00".
Proof. split; reflexivity. Qed.

(** ** The triggers and keys of [student_courses] on their own *)

Lemma trigger_clash_count_free (d : db) (studentId courseId : Z)
    (id1 id2 : Z) (t1 t2 : timetable_row) :
  trigger_clash_count d studentId courseId = 0%nat →
  timetables d !! id1 = Some t1 → timetables d !! id2 = Some t2 →
  enrolled d studentId (tt_course_id t1) → tt_course_id t2 = courseId →
  tt_day_of_week t1 = tt_day_of_week t2 →
  rows_overlap t1 t2 = false.
Proof.
  unfold trigger_clash_count. intros Hcount Ht1 Ht2 Hen Hcourse Hday.
  apply nil_length_inv in Hcount.
  destruct (rows_overlap t1 t2) eqn:Hov; [exfalso|done].
  assert (((id1, t1), (id2, t2)) ∈ @nil ((Z * timetable_row) * (Z * timetable_row)))
    as Hin; [|by apply not_elem_of_nil in Hin].
  rewrite <- Hcount. apply list_elem_of_bind.
  exists (studentId, tt_course_id t1). split; [|done]. simpl.
  rewrite decide_True by done.
  apply list_elem_of_bind. exists (id1, t1). split.
  2: { apply list_elem_of_filter. split; [done|].
       by apply elem_of_map_to_list. }
  apply list_elem_of_bind. exists (id2, t2). split.
  2: { apply list_elem_of_filter. split; [done|].
       by apply elem_of_map_to_list. }
  simpl. rewrite bool_decide_eq_true_2 by done.
  unfold rows_overlap, timeSlotsOverlap, js_lt, js_gt in Hov.
  unfold sql_overlap, sql_time_lt. rewrite Hov. simpl. left.
Qed.

(** X30. The triggers and keys of [student_courses] enforce the rules on
    their own. On slots whose times are HH:MM:SS strings, an INSERT that
    the table accepts adds the one row, for an existing student and an
    existing course of the student's college in which the student was not
    enrolled, and no slot of that course overlaps a same-weekday slot of a
    course the student was enrolled in. So an accepted INSERT keeps the
    enrollments referring to existing rows, within one college, without
    repetition and without overlapping slots of two different courses. *)
Theorem insert_enrollment_enforces_the_constraints
    (studentId courseId : Z) (d d' : db) (u : unit) :
  times_well_formed d →
  insert_enrollment studentId courseId d = inr (u, d') →
  d' = set_student_courses d (student_courses d ++ [(studentId, courseId)])
  ∧ (∃ s c, students d !! studentId = Some s ∧ courses d !! courseId = Some c
            ∧ st_college_id s = co_college_id c)
  ∧ ¬ enrolled d studentId courseId
  ∧ (∀ id1 id2 t1 t2,
       timetables d !! id1 = Some t1 → timetables d !! id2 = Some t2 →
       enrolled d studentId (tt_course_id t1) → tt_course_id t2 = courseId →
       tt_day_of_week t1 = tt_day_of_week t2 →
       rows_overlap t1 t2 = false)
  ∧ (referential d → referential d')
  ∧ (same_college d → same_college d')
  ∧ (unique_enrollments d → unique_enrollments d')
  ∧ (cross_course_ok d studentId → cross_course_ok d' studentId).
Proof.
  unfold insert_enrollment. intros _ Hrun.
  destruct (students d !! studentId) as [s|] eqn:Hs;
    [|by repeat case_match].
  destruct (courses d !! courseId) as [c|] eqn:Hc;
    [|by repeat case_match].
  destruct (bool_decide_reflect (st_college_id s ≠ co_college_id c))
    as [|Hcollege]; [done|].
  apply dec_stable in Hcollege.
  destruct (trigger_clash_count d studentId courseId) as [|n] eqn:Hcount;
    [|done].
  simpl in Hrun.
  case_bool_decide as Hnew; [done|].
  assert (d' = set_student_courses d
                 (student_courses d ++ [(studentId, courseId)])) as ->
    by congruence.
  clear Hrun.
  assert (Henrolled : ∀ sid c',
            enrolled (set_student_courses d
                        (student_courses d ++ [(studentId, courseId)])) sid c'
            ↔ enrolled d sid c' ∨ (sid = studentId ∧ c' = courseId)).
  { intros sid c'. unfold enrolled. simpl.
    rewrite elem_of_app, list_elem_of_singleton. split.
    - intros [?|[= -> ->]]; auto.
    - intros [?|[-> ->]]; auto. }
  pose proof (λ id1 id2 t1 t2,
                trigger_clash_count_free d studentId courseId id1 id2 t1 t2
                  Hcount) as Hfree.
  split; [done|]. split; [by exists s, c|]. split; [done|].
  split; [done|]. split; [|split; [|split]].
  - intros Href sid c' [Hold|[-> ->]]%Henrolled; [by apply Href|].
    simpl. rewrite Hs, Hc. eauto.
  - intros Hsame sid c' s' co [Hold|[-> ->]]%Henrolled Hs' Hco;
      simpl in Hs', Hco; [by apply (Hsame sid c')|].
    congruence.
  - unfold unique_enrollments. simpl. intros Hnd.
    apply NoDup_app. split; [done|]. split; [|apply NoDup_singleton].
    intros x Hx ->%list_elem_of_singleton. done.
  - intros Hok id1 id2 t1 t2 Hne Ht1 Ht2 [Hen1|[_ Hen1]]%Henrolled
           [Hen2|[_ Hen2]]%Henrolled Hday; simpl in Ht1, Ht2.
    + by apply (Hok id1 id2).
    + by apply (Hfree id1 id2).
    + rewrite rows_overlap_sym. by apply (Hfree id2 id1).
    + congruence.
Qed.

Lemma insert_enrollment_enforces_the_constraints_witness :
  ¬ enrolled enrolled_db 1 2
  ∧ rows_overlap (TimetableRow 1 Monday "09:00:00" "10:00:00")
                 (TimetableRow 2 Monday "10:00:00" "11:00:00") = false
  ∧ (referential enrolled_db →
     referential
       (set_student_courses enrolled_db [(1, 1); (1, 4); (1, 2)])).
Proof.
  destruct (insert_enrollment_enforces_the_constraints 1 2 enrolled_db
              (set_student_courses enrolled_db [(1, 1); (1, 4); (1, 2)]) ())
    as (_ & _ & Hnew & Hfree & Href & _).
  { apply (bool_decide_unpack _). vm_compute. reflexivity. }
  { reflexivity. }
  split; [exact Hnew|]. split; [|exact Href].
  apply (Hfree 1 3); [reflexivity | reflexivity | by left | reflexivity
                      | reflexivity].
Defined.

Example insert_enrollment_rejected_by_the_triggers :
  insert_enrollment 1 5 enrolled_db
  = inl (ER_SIGNAL_EXCEPTION
           "Student and course must belong to the same college")
  ∧ insert_enrollment 1 3 enrolled_db
    = inl (ER_SIGNAL_EXCEPTION
             "Timetable clash detected with existing course enrollment")
  ∧ insert_enrollment 1 1 (set_timetables enrolled_db ∅) = inl ER_DUP_ENTRY.
Proof. repeat split; reflexivity. Qed.
